(** * Configuration-driven widgets of the input-output model viewer

    A shallow embedding of the industry list (heatmap) widget, of the
    commodity list of the grid widget and of the matrix selector, together
    with the properties of their ranking, paging, export and update cycle. *)

From Stdlib Require Import ZArith Ascii String DecimalString Sorted Permutation.
From Stdlib Require DecimalZ.
From Stdlib Require Import Floats.PrimFloat.
From stdpp Require Import gmap strings list fin_maps.

Local Open Scope string_scope.
Local Open Scope Z_scope.

(** ** Values of optional configuration fields *)

(** A field of a configuration object is absent ([undefined]), explicitly
    cleared ([null]) or holds a value. *)
Inductive optional (A : Type) : Type :=
  | Undefined
  | Null
  | Def (a : A).
Arguments Undefined {A}.
Arguments Null {A}.
Arguments Def {A} a.

(** The truthiness of a value, as used by [!x], [x && y], [x || y] and
    [x ? a : b]. *)
Class Truthy (A : Type) := truthy : A → bool.

#[global] Instance string_truthy : Truthy string :=
  λ s, match s with EmptyString => false | String _ _ => true end.
#[global] Instance Z_truthy : Truthy Z := λ z, negb (z =? 0).
#[global] Instance bool_truthy : Truthy bool := λ b, b.
#[global] Instance list_truthy {A} : Truthy (list A) := λ _, true.
#[global] Instance optional_truthy {A} `{Truthy A} : Truthy (optional A) :=
  λ o, match o with Def a => truthy a | _ => false end.
#[global] Instance option_truthy {A} `{Truthy A} : Truthy (option A) :=
  λ o, match o with Some a => truthy a | None => false end.

(** Strict equality [===] where the compared values are primitives, given
    the equality test of the underlying type. *)
Definition strict_eq {A} (eqb : A → A → bool) (x y : optional A) : bool :=
  match x, y with
  | Undefined, Undefined => true
  | Null, Null => true
  | Def a, Def b => eqb a b
  | _, _ => false
  end.

(** [x || d] on an optional number. *)
Definition or_default (x : optional Z) (d : Z) : Z :=
  match x with
  | Def z => if truthy z then z else d
  | _ => d
  end.

(** An array object: [===] compares the identity of two arrays, not their
    content. *)
Record array (A : Type) : Type := Array { ref : positive; items : list A }.
Arguments Array {A} ref items.
Arguments ref {A} a.
Arguments items {A} a.

#[global] Instance array_truthy {A} : Truthy (array A) := λ _, true.

Definition same_array {A} (x y : array A) : bool := Pos.eqb (ref x) (ref y).

(** ** The configuration object *)

Module Config.

(** The fields of the shared configuration that the widgets read. Every
    field is optional. *)
Record t : Type := {
  sectors : optional (list string);
  naics : optional (list string);
  indicators : optional (list string);
  view : optional (array string);
  perspective : optional string;
  analysis : optional string;
  year : optional Z;
  location : optional string;
  count : optional Z;
  page : optional Z;
  showvalues : optional bool;
  showdownload : optional bool;
  showscientific : optional bool;
  selectmatrix : optional bool;
}.

(** The empty object [{}]. *)
Definition empty : t := {|
  sectors := Undefined; naics := Undefined; indicators := Undefined;
  view := Undefined; perspective := Undefined; analysis := Undefined;
  year := Undefined; location := Undefined; count := Undefined;
  page := Undefined; showvalues := Undefined; showdownload := Undefined;
  showscientific := Undefined; selectmatrix := Undefined |}.

(** Assignments to single fields. *)
Definition set_sectors (v : optional (list string)) (c : t) : t := {|
  sectors := v; naics := naics c; indicators := indicators c;
  view := view c; perspective := perspective c; analysis := analysis c;
  year := year c; location := location c; count := count c;
  page := page c; showvalues := showvalues c;
  showdownload := showdownload c; showscientific := showscientific c;
  selectmatrix := selectmatrix c |}.

Definition set_naics (v : optional (list string)) (c : t) : t := {|
  sectors := sectors c; naics := v; indicators := indicators c;
  view := view c; perspective := perspective c; analysis := analysis c;
  year := year c; location := location c; count := count c;
  page := page c; showvalues := showvalues c;
  showdownload := showdownload c; showscientific := showscientific c;
  selectmatrix := selectmatrix c |}.

Definition set_perspective (v : optional string) (c : t) : t := {|
  sectors := sectors c; naics := naics c; indicators := indicators c;
  view := view c; perspective := v; analysis := analysis c;
  year := year c; location := location c; count := count c;
  page := page c; showvalues := showvalues c;
  showdownload := showdownload c; showscientific := showscientific c;
  selectmatrix := selectmatrix c |}.

Definition set_analysis (v : optional string) (c : t) : t := {|
  sectors := sectors c; naics := naics c; indicators := indicators c;
  view := view c; perspective := perspective c; analysis := v;
  year := year c; location := location c; count := count c;
  page := page c; showvalues := showvalues c;
  showdownload := showdownload c; showscientific := showscientific c;
  selectmatrix := selectmatrix c |}.

Definition set_view (v : optional (array string)) (c : t) : t := {|
  sectors := sectors c; naics := naics c; indicators := indicators c;
  view := v; perspective := perspective c; analysis := analysis c;
  year := year c; location := location c; count := count c;
  page := page c; showvalues := showvalues c;
  showdownload := showdownload c; showscientific := showscientific c;
  selectmatrix := selectmatrix c |}.

Definition set_count (v : optional Z) (c : t) : t := {|
  sectors := sectors c; naics := naics c; indicators := indicators c;
  view := view c; perspective := perspective c; analysis := analysis c;
  year := year c; location := location c; count := v;
  page := page c; showvalues := showvalues c;
  showdownload := showdownload c; showscientific := showscientific c;
  selectmatrix := selectmatrix c |}.

Definition set_page (v : optional Z) (c : t) : t := {|
  sectors := sectors c; naics := naics c; indicators := indicators c;
  view := view c; perspective := perspective c; analysis := analysis c;
  year := year c; location := location c; count := count c;
  page := v; showvalues := showvalues c;
  showdownload := showdownload c; showscientific := showscientific c;
  selectmatrix := selectmatrix c |}.

End Config.

(** ** Numbers, strings and arrays *)

(** A number as the widgets compute with it: an integer, or [NaN] as
    produced by a failed [parseInt]. Scores, demand amounts and results
    are kept as integers. The integers of the engine are floating point
    numbers: they are exact between the bounds of the safe integers;
    [Num z] for another integer [z] stands for a number that the engine
    has made of it. *)
Inductive number : Type :=
  | Num (z : Z)
  | NaN.

(** The safe integers: between -2^53 and 2^53. *)
Definition safe (z : Z) : bool := (- 2 ^ 53 <? z) && (z <? 2 ^ 53).

(** What the engine makes of integers beyond the safe integers lies
    outside of the sources: the number that [parseInt] gives for digits
    of a base with such a value, rounded to a floating point number, and
    the text of such a number, with rounded digits or in exponent
    notation. *)
Class Engine : Type := {
  big_number : Z → Z → number;
  big_text : Z → string;
}.

Definition dquote : ascii := "034"%char.
Definition newline : ascii := "010"%char.
Definition comma : ascii := ","%char.
Definition colon : ascii := ":"%char.

(** The text of a number inside a template literal. *)
Definition Z_to_string (z : Z) : string :=
  NilZero.string_of_int (Z.to_int z).

Definition number_to_string `{Engine} (n : number) : string :=
  match n with
  | Num z => if safe z then Z_to_string z else big_text z
  | NaN => "NaN"
  end.

(** [xs.slice(start, end)]: negative positions count from the end, all
    positions are clamped to the array. *)
Definition relative_index (len k : Z) : Z :=
  if k <? 0 then Z.max (len + k) 0 else Z.min k len.

Definition slice {A} (xs : list A) (start end_ : Z) : list A :=
  let len := Z.of_nat (length xs) in
  let from := relative_index len start in
  let to := relative_index len end_ in
  take (Z.to_nat (to - from)) (drop (Z.to_nat from) xs).

(** [xs.sort(cmp)]: the sort is stable, an element moves in front of
    another one only when the comparison is negative. *)
Fixpoint insert_by {A} (cmp : A → A → Z) (x : A) (xs : list A) : list A :=
  match xs with
  | [] => [x]
  | y :: ys => if cmp y x <=? 0 then y :: insert_by cmp x ys else x :: y :: ys
  end.

Definition sort_by {A} (cmp : A → A → Z) (xs : list A) : list A :=
  foldl (λ acc x, insert_by cmp x acc) [] xs.

(** With respect to a comparison, [x] may stand in front of [y]. *)
Definition before {A} (cmp : A → A → Z) (x y : A) : Prop := cmp x y ≤ 0.

(** [s.split(sep)] for a separator of one character. *)
Fixpoint split (sep : ascii) (s : string) : list string :=
  match s with
  | EmptyString => [EmptyString]
  | String c rest =>
      if Ascii.eqb c sep then EmptyString :: split sep rest
      else match split sep rest with
           | [] => [String c EmptyString]
           | p :: ps => String c p :: ps
           end
  end.

(** White space and line terminators. Texts are sequences of bytes in
    UTF-8. The white space of one byte: tab, line feed, vertical tab, form
    feed, carriage return and space. *)
Definition is_space (c : ascii) : bool :=
  let n := nat_of_ascii c in
  ((9 <=? n) && (n <=? 13))%nat || (n =? 32)%nat.

(** The first byte of a white space character of more than one byte. *)
Definition space_lead (c : ascii) : bool :=
  let n := nat_of_ascii c in
  ((n =? 194) || (n =? 225) || (n =? 226) || (n =? 227) || (n =? 239))%nat.

(** The no-break space U+00A0. *)
Definition no_break_space (c1 c2 : ascii) : bool :=
  let n1 := nat_of_ascii c1 in
  let n2 := nat_of_ascii c2 in
  space_lead c1 && ((n1 =? 194) && (n2 =? 160))%nat.

(** The white space of three bytes: the Ogham space mark U+1680, the
    spaces U+2000 to U+200A, the line separator U+2028, the paragraph
    separator U+2029, the narrow no-break space U+202F, the medium
    mathematical space U+205F, the ideographic space U+3000 and the byte
    order mark U+FEFF. *)
Definition wide_space (c1 c2 c3 : ascii) : bool :=
  let n1 := nat_of_ascii c1 in
  let n2 := nat_of_ascii c2 in
  let n3 := nat_of_ascii c3 in
  space_lead c1
  && (((n1 =? 225) && (n2 =? 154) && (n3 =? 128))
      || ((n1 =? 226) && (n2 =? 128)
          && (((128 <=? n3) && (n3 <=? 138))
              || (n3 =? 168) || (n3 =? 169) || (n3 =? 175)))
      || ((n1 =? 226) && (n2 =? 129) && (n3 =? 159))
      || ((n1 =? 227) && (n2 =? 128) && (n3 =? 128))
      || ((n1 =? 239) && (n2 =? 187) && (n3 =? 191)))%nat.

Fixpoint trim_start (s : string) : string :=
  match s with
  | String c1 rest1 =>
      if is_space c1 then trim_start rest1
      else
        match rest1 with
        | String c2 rest2 =>
            if no_break_space c1 c2 then trim_start rest2
            else
              match rest2 with
              | String c3 rest3 =>
                  if wide_space c1 c2 c3 then trim_start rest3 else s
              | EmptyString => s
              end
        | EmptyString => s
        end
  | EmptyString => s
  end.

(** The text without the white space at its end: it ends in front of the
    first position behind which there is white space only. *)
Fixpoint trim_end (s : string) : string :=
  match s with
  | EmptyString => EmptyString
  | String c rest =>
      match trim_start s with
      | EmptyString => EmptyString
      | _ => String c (trim_end rest)
      end
  end.

(** [s.trim()] *)
Definition trim (s : string) : string := trim_end (trim_start s).

(** [xs.indexOf(x)] on an array of strings. *)
Fixpoint indexOf (xs : list string) (x : string) : Z :=
  match xs with
  | [] => -1
  | y :: ys =>
      if String.eqb y x then 0
      else let i := indexOf ys x in if i <? 0 then -1 else i + 1
  end.

(** [xs.findIndex(p)] *)
Fixpoint findIndex {A} (p : A → bool) (xs : list A) : Z :=
  match xs with
  | [] => -1
  | y :: ys =>
      if p y then 0
      else let i := findIndex p ys in if i <? 0 then -1 else i + 1
  end.

(** The value of a digit or letter in a base, if it has one. *)
Definition digit_value (radix : Z) (c : ascii) : option Z :=
  let n := Z.of_nat (nat_of_ascii c) in
  let d :=
    if (48 <=? n) && (n <=? 57) then Some (n - 48)
    else if (97 <=? n) && (n <=? 122) then Some (n - 87)
    else if (65 <=? n) && (n <=? 90) then Some (n - 55)
    else None in
  match d with
  | Some v => if v <? radix then Some v else None
  | None => None
  end.

Fixpoint read_digits (radix : Z) (acc : option Z) (s : string) : option Z :=
  match s with
  | EmptyString => acc
  | String c rest =>
      match digit_value radix c with
      | Some v =>
          read_digits radix
            (Some (match acc with Some a => a * radix + v | None => v end))
            rest
      | None => acc
      end
  end.

(** The integer at the start of a text with its base, as [parseInt]
    without a radix reads it: leading white space and a sign are skipped,
    a prefix [0x] selects base 16, and the longest run of digits is read;
    there is no integer without any digit. *)
Definition read_integer (s : string) : option (Z * Z) :=
  let s := trim_start s in
  let '(sign, s) :=
    match s with
    | String "-" rest => (-1, rest)
    | String "+" rest => (1, rest)
    | _ => (1, s)
    end in
  let '(radix, s) :=
    match s with
    | String "0" (String "x" rest) | String "0" (String "X" rest) => (16, rest)
    | _ => (10, s)
    end in
  match read_digits radix None s with
  | Some v => Some (radix, sign * v)
  | None => None
  end.

(** [parseInt(s)]: the integer at the start of the text as a number;
    without any digit the result is [NaN]. *)
Definition parseInt `{Engine} (s : string) : number :=
  match read_integer s with
  | Some (radix, z) => if safe z then Num z else big_number radix z
  | None => NaN
  end.

(** The number that decimal digits denote behind the digits that were
    read before them with the value [acc]. *)
Fixpoint uint_value (d : Decimal.uint) (acc : Z) : Z :=
  match d with
  | Decimal.Nil => acc
  | Decimal.D0 d => uint_value d (acc * 10)
  | Decimal.D1 d => uint_value d (acc * 10 + 1)
  | Decimal.D2 d => uint_value d (acc * 10 + 2)
  | Decimal.D3 d => uint_value d (acc * 10 + 3)
  | Decimal.D4 d => uint_value d (acc * 10 + 4)
  | Decimal.D5 d => uint_value d (acc * 10 + 5)
  | Decimal.D6 d => uint_value d (acc * 10 + 6)
  | Decimal.D7 d => uint_value d (acc * 10 + 7)
  | Decimal.D8 d => uint_value d (acc * 10 + 8)
  | Decimal.D9 d => uint_value d (acc * 10 + 9)
  end.

(** ** Helpers of the string utilities *)

Module strings.

(** Modelled from the spec: [compare] of the string utilities, whose
    module is not part of the sources; it orders two names
    alphabetically (negative, zero or positive). *)
Definition compare (s1 s2 : string) : Z :=
  match String.compare s1 s2 with
  | Lt => -1
  | Eq => 0
  | Gt => 1
  end.

(** Modelled from the spec: [isMember] of the string utilities, whose
    module is not part of the sources; it tells whether a view mode is
    one of the configured view modes. *)
Definition isMember (x : string) (xs : optional (array string)) : bool :=
  match xs with
  | Def a => existsb (String.eqb x) (items a)
  | _ => false
  end.

End strings.

(** ** Reference data of the model *)

Module Sector.
Record t : Type := {
  id : string;
  index : Z;
  code : string;
  name : string;
  description : string;
}.
End Sector.

(** The groups of indicators. *)
Inductive IndicatorGroup : Type :=
  | IMPACT_POTENTIAL
  | RESOURCE_USE
  | CHEMICAL_RELEASES
  | WASTE_GENERATED
  | ECONOMIC_SOCIAL.

#[global] Instance IndicatorGroup_eq_dec : EqDecision IndicatorGroup.
Proof. solve_decision. Defined.

Module Indicator.
Record t : Type := {
  id : string;
  code : string;
  name : string;
  unit : string;
  group : option IndicatorGroup;
}.
End Indicator.

(** A row of a ranking: a sector and its score. *)
Abbreviation Row := (Sector.t * Z)%type.

(** The interface of a heatmap result as the industry list uses it; the
    class itself belongs to the calculation module, which is not part of
    the sources. *)
Record HeatmapResult : Type := {
  getRanking : list Indicator.t → list Row;
  getResult : Indicator.t → Sector.t → Z;
}.

#[global] Instance HeatmapResult_truthy : Truthy HeatmapResult := λ _, true.
#[global] Instance gmap_truthy {A} : Truthy (gmap string A) := λ _, true.

(** An entry of a demand vector. *)
Module DemandEntry.
Record t : Type := { sector : string; amount : Z }.
End DemandEntry.

(** A raw result of the model: a matrix with its totals and the codes of
    its rows and columns. *)
Module Result.
Record t : Type := {
  data : list (list Z);
  totals : list Z;
  indicators : list string;
  sectors : list string;
}.
End Result.

(** The model accessor: the answers of the data service to the requests
    of a widget, and the wrapping of a raw result into a heatmap result. *)
Module Model.
Record t : Type := {
  matrix : string → list (list Z);
  indicators : option (list Indicator.t);
  sectors : list Sector.t;
  singleRegionSectors : list Sector.t;
  findDemand : Config.t → string;
  demand : string → option (list DemandEntry.t);
  calculate : optional string → option (list DemandEntry.t) → Result.t;
  heatmap : Result.t → HeatmapResult;
}.
End Model.

(** ** The matrix selector *)

Module MatrixSelector.

(** Mnemonics of the matrices: [D] and [U] are based on 1 USD per sector,
    [RD] and [RU] on a demand vector. *)
Inductive Matrix : Type := D | U | RD | RU.

(** The matrix type of a configuration; the configuration itself may be
    missing. *)
Definition matrixOf (config : option Config.t) : Matrix :=
  match config with
  | None => RU
  | Some config =>
      if negb (truthy (Config.perspective config)) then RU
      else if strict_eq String.eqb (Config.perspective config) (Def "direct")
      then (if negb (truthy (Config.analysis config)) then D else RD)
      else (if negb (truthy (Config.analysis config)) then U else RU)
  end.

(** The configuration for a selected matrix; without a matrix the copy
    of the configuration is returned as it is. *)
Definition update (config : option Config.t) (matrix : option Matrix)
  : Config.t :=
  let conf := match config with None => Config.empty | Some c => c end in
  match matrix with
  | None => conf
  | Some ((D | U) as m) =>
      (* clear the analysis type for 1 USD based matrices *)
      let conf := Config.set_analysis Null conf in
      Config.set_perspective
        (Def (match m with D => "direct" | _ => "final" end)) conf
  | Some m =>
      (* set the analysis type if it is not present yet *)
      let conf :=
        if negb (truthy (Config.analysis conf))
        then Config.set_analysis (Def "Consumption") conf
        else conf in
      Config.set_perspective
        (Def (match m with RD => "direct" | _ => "final" end)) conf
  end.

End MatrixSelector.

(** ** The industry list *)

Module IndustryList.

Definition INDICATOR_GROUPS : list IndicatorGroup :=
  [IMPACT_POTENTIAL; RESOURCE_USE; CHEMICAL_RELEASES; WASTE_GENERATED;
   ECONOMIC_SOCIAL].

(** The fields of the widget. All of them are unset until the first
    update; [sectors] is only initialised while there is no result. *)
Record t : Type := {
  config : option Config.t;
  result : option HeatmapResult;
  demand : option (gmap string Z);
  indicators : option (list Indicator.t);
  sectors : option (list Sector.t);
  _naicsAttr : option string;
}.

(** The requests to the model and the rendering, in the order in which an
    update issues them. *)
Inductive Call : Type :=
  | GetMatrix (name : string)
  | GetIndicators
  | GetSectors
  | GetSingleRegionSectors
  | FindDemand
  | GetDemand (id : string)
  | Calculate
  | Render.

(** An update runs on the widget and records its requests. *)
Record State : Type := { this : t; calls : list Call }.

Definition M (A : Type) : Type := State → A * State.

#[global] Instance M_ret : MRet M := λ A a st, (a, st).
#[global] Instance M_bind : MBind M :=
  λ A B k m st, let '(a, st') := m st in k a st'.

Definition get : M t := λ st, (this st, st).
Definition modify (f : t → t) : M unit :=
  λ st, (tt, {| this := f (this st); calls := calls st |}).
Definition call {A} (c : Call) (answer : A) : M A :=
  λ st, (answer, {| this := this st; calls := calls st ++ [c] |}).
Definition when (b : bool) (m : M unit) : M unit := if b then m else mret tt.

(** A method that may throw: when it does, it has no value, the steps
    behind the throw are not run, and the widget and the requests are left
    as they were at the throw. *)
Definition E (A : Type) : Type := State → option A * State.

#[global] Instance E_ret : MRet E := λ A a st, (Some a, st).
#[global] Instance E_bind : MBind E :=
  λ A B k m st,
    match m st with
    | (Some a, st') => k a st'
    | (None, st') => (None, st')
    end.

Definition throw {A} : E A := λ st, (None, st).
Definition lift {A} (m : M A) : E A :=
  λ st, let '(a, st') := m st in (Some a, st').

Definition set_config (v : Config.t) (w : t) : t :=
  {| config := Some v; result := result w; demand := demand w;
     indicators := indicators w; sectors := sectors w;
     _naicsAttr := _naicsAttr w |}.
Definition set_result (v : HeatmapResult) (w : t) : t :=
  {| config := config w; result := Some v; demand := demand w;
     indicators := indicators w; sectors := sectors w;
     _naicsAttr := _naicsAttr w |}.
Definition set_demand (v : gmap string Z) (w : t) : t :=
  {| config := config w; result := result w; demand := Some v;
     indicators := indicators w; sectors := sectors w;
     _naicsAttr := _naicsAttr w |}.
Definition set_indicators (v : list Indicator.t) (w : t) : t :=
  {| config := config w; result := result w; demand := demand w;
     indicators := Some v; sectors := sectors w;
     _naicsAttr := _naicsAttr w |}.
Definition set_sectors (v : list Sector.t) (w : t) : t :=
  {| config := config w; result := result w; demand := demand w;
     indicators := indicators w; sectors := Some v;
     _naicsAttr := _naicsAttr w |}.

(** Without a result every sector has the score 0. *)
Definition unranked (s : Sector.t) : Row := (s, 0).

(** Whether an update needs a new calculation. *)
Definition needsCalculation (w : t)
    (oldConfig newConfig : option Config.t) : bool :=
  match newConfig with
  | None => false
  | Some newConfig =>
      if negb (strings.isMember "mosaic" (Config.view newConfig)) then false
      else
        match oldConfig, result w with
        | Some oldConfig, Some _ =>
            (* changes in these fields trigger a calculation *)
            negb (strict_eq same_array
                    (Config.view oldConfig) (Config.view newConfig))
            || negb (strict_eq String.eqb
                    (Config.perspective oldConfig)
                    (Config.perspective newConfig))
            || negb (strict_eq String.eqb
                    (Config.analysis oldConfig) (Config.analysis newConfig))
            || negb (strict_eq Z.eqb
                    (Config.year oldConfig) (Config.year newConfig))
            || negb (strict_eq String.eqb
                    (Config.location oldConfig) (Config.location newConfig))
            || negb (strict_eq same_array
                    (Config.view oldConfig) (Config.view newConfig))
        | _, _ => true
        end
  end.

(** The calculation of a heatmap result. For a plain matrix it reads the
    length of the indicators of the model and throws when the model has
    delivered none. *)
Definition calculate (model : Model.t) (config : Config.t)
  : E HeatmapResult :=
  if negb (truthy (Config.analysis config)) then
    (* for plain matrices: wrap the matrix into a result *)
    let name :=
      if strict_eq String.eqb (Config.perspective config) (Def "direct")
      then "D" else "U" in
    m ← lift (call (GetMatrix name) (Model.matrix model name));
    indicators ← lift (call GetIndicators (Model.indicators model));
    sectors ← lift (call GetSectors (Model.sectors model));
    match indicators with
    | Some indicators =>
        mret (Model.heatmap model {|
          Result.data := m;
          Result.totals := (λ _, 1) <$> indicators;
          Result.indicators := Indicator.code <$> indicators;
          Result.sectors := Sector.id <$> sectors |})
    | None => throw
    end
  else
    (* run a calculation *)
    demand ← lift (call FindDemand (Model.findDemand model config));
    d ← lift (call (GetDemand demand) (Model.demand model demand));
    r ← lift (call Calculate
                (Model.calculate model (Config.perspective config) d));
    mret (Model.heatmap model r).

Section Widget.

(** The default indicator codes of the configuration module and the
    search of a term in a name (the position of the term, negative
    when it does not occur) of the string utilities; both modules lie
    outside of the sources. *)
Variable DEFAULT_INDICATORS : list string.
Variable search : string → string → Z.

Definition group_index (g : option IndicatorGroup) : Z :=
  findIndex (λ g', bool_decide (Some g' = g)) INDICATOR_GROUPS.

(** The order of the indicators: by groups and, within a group, by
    codes. *)
Definition compare_indicators (i1 i2 : Indicator.t) : Z :=
  if decide (Indicator.group i1 = Indicator.group i2)
  then strings.compare (Indicator.code i1) (Indicator.code i2)
  else group_index (Indicator.group i1) - group_index (Indicator.group i2).

Definition syncIndicators (model : Model.t) (config : Config.t)
  : M (list Indicator.t) :=
  if negb (strings.isMember "mosaic" (Config.view config)) then mret []
  else
    all ← call GetIndicators (Model.indicators model);
    match all with
    | None | Some [] => mret []
    | Some all =>
        (* filter indicators by configuration codes *)
        let codes :=
          match Config.indicators config with
          | Def ((_ :: _) as codes) => codes
          | _ => DEFAULT_INDICATORS
          end in
        let indicators :=
          filter (λ i, 0 ≤ indexOf codes (Indicator.code i)) all in
        if (length indicators <=? 1)%nat then mret indicators
        else mret (sort_by compare_indicators indicators)
    end.

(** The demand values of a demand vector, given as pairs of a sector id
    and an amount, aggregated by sector code. The aggregation is written
    for any numbers with their addition and their truthiness, so that it
    covers the floating point amounts of the data service, whose sums
    depend on the order of the additions; the widget of this development
    keeps its amounts as integers. *)
Definition aggregate {N : Type} `{Truthy N} (add : N → N → N)
    (demand : list (string * N)) (sectors : list Sector.t)
  : gmap string N :=
  let values : gmap string N :=
    foldl (λ values e, <[e.1 := e.2]> values) ∅ demand in
  foldl (λ acc sector,
      match values !! Sector.id sector with
      | Some val =>
          if negb (truthy val) then acc
          else
            let sum := acc !! Sector.code sector in
            <[Sector.code sector :=
                match sum with
                | Some sum => if truthy sum then add sum val else val
                | None => val
                end]> acc
      | None => acc
      end)
    ∅ sectors.

Definition aggregate_demand (demand : list DemandEntry.t)
    (sectors : list Sector.t) : gmap string Z :=
  aggregate Z.add
    ((λ e, (DemandEntry.sector e, DemandEntry.amount e)) <$> demand) sectors.

(** The configuration that an update stores: a copy, completed by the
    codes of the attribute of the mount element when it has none. *)
Definition stored_config (w : t) (config : Config.t) : Config.t :=
  if negb (truthy (Config.naics config)) && truthy (_naicsAttr w)
  then Config.set_naics
         (Def (trim <$> split comma (default "" (_naicsAttr w)))) config
  else config.

(** The steps of an update behind the calculation. *)
Definition finish_update (model : Model.t) (config : Config.t)
    (needsCalc : bool) : M unit :=
  w ← get;
  when (negb (truthy (result w)))
    (* initialize the sector array *)
    (sectors ← call GetSingleRegionSectors
       (Model.singleRegionSectors model);
     modify (set_sectors sectors));;
  (* load the demand vector if required *)
  w ← get;
  when (truthy (Config.showvalues config)
        && (negb (truthy (demand w)) || needsCalc))
    (demandID ← call FindDemand (Model.findDemand model config);
     demand ← call (GetDemand demandID) (Model.demand model demandID);
     match demand with
     | Some demand =>
         sectors ← call GetSectors (Model.sectors model);
         modify (set_demand (aggregate_demand demand sectors))
     | None => mret tt
     end);;
  indicators ← syncIndicators model config;
  modify (set_indicators indicators);;
  call Render tt.

(** An update of the widget. It is rejected when its calculation throws:
    the configuration is stored by then, the steps behind the calculation
    are not run and nothing is rendered. The value of an update tells
    that it has come to its rendering; what the rendering shows for the
    widget is the matter of the component. *)
Definition handleUpdate (model : Model.t) (config : Config.t) : E unit :=
  w ← lift get;
  (* run a new calculation if necessary *)
  let needsCalc := needsCalculation w (IndustryList.config w) (Some config) in
  lift (modify (set_config (stored_config w config)));;
  (if needsCalc
   then r ← calculate model config; lift (modify (set_result r))
   else mret tt);;
  lift (finish_update model config needsCalc).

(** *** The rows of the list *)

(** The order of the rows: by descending scores, rows of equal score
    by names. *)
Definition compare_rows (r1 r2 : Row) : Z :=
  let '(s1, rank1) := r1 in
  let '(s2, rank2) := r2 in
  if rank1 =? rank2
  then strings.compare (Sector.name s1) (Sector.name s2)
  else rank2 - rank1.

(** The rows of the list for the indicator that the user sorts by and
    the search term, if any, before they are sorted. *)
Definition candidates (w : t) (sorter : option Indicator.t)
    (searchTerm : option string) : option (list Row) :=
  ranking ←
    match result w with
    | Some result =>
        match sorter with
        | Some sorter => Some (getRanking result [sorter])
        | None => getRanking result <$> indicators w
        end
    | None => map unranked <$> sectors w
    end;
  Some (if truthy searchTerm
        then filter
               (λ r : Row,
                  0 ≤ search (Sector.name r.1) (default "" searchTerm))
               ranking
        else ranking).

(** The sector ranking of the list. *)
Definition ranking (w : t) (sorter : option Indicator.t)
    (searchTerm : option string) : option (list Row) :=
  sort_by compare_rows <$> candidates w sorter searchTerm.

(** The selection of the page. *)
Definition select_page (config : Config.t) (ranking : list Row)
  : list Row :=
  match Config.count config with
  | Def count =>
      if truthy count && (0 <=? count) then
        match Config.page config with
        | Def page =>
            if page <=? 1 then slice ranking 0 count
            else
              let offset := (page - 1) * count in
              if offset <? Z.of_nat (length ranking)
              then slice ranking offset (offset + count)
              else slice ranking 0 count
        | Null =>
            (* [null <= 1] holds *)
            slice ranking 0 count
        | Undefined =>
            (* neither [page <= 1] nor [offset < ranking.length] holds *)
            slice ranking 0 count
        end
      else ranking
  | _ => ranking
  end.

(** The rows that the component renders. *)
Definition Component (w : t) (sorter : option Indicator.t)
    (searchTerm : option string) : option (list Row) :=
  config ← config w;
  ranking ← ranking w sorter searchTerm;
  Some (select_page config ranking).

End Widget.

(** *** Requests of an update *)

(** The requests that compute the matrix of a result. *)
Definition recalculates (c : Call) : bool :=
  match c with
  | GetMatrix _ | Calculate => true
  | _ => false
  end.

(** A step of an update is quiet when it keeps the result of the widget
    and issues no request that computes one. *)
Definition quiet {A} (m : M A) : Prop :=
  ∀ st : State,
    result (this (m st).2) = result (this st)
    ∧ ∃ issued,
        calls (m st).2 = (calls st ++ issued)%list
        ∧ Forall (λ c, recalculates c = false) issued.

(** *** The paginator *)

(** The number of sectors that the header passes to its paginator: the
    number of the sectors of the result or, when that is missing or zero,
    of the sectors of the widget; there is none when both are missing.
    The sectors of a heatmap result, a field of the class of the
    calculation module, are a parameter. *)
Definition Header_total (sectors_of : HeatmapResult → option (list Sector.t))
    (w : t) : option Z :=
  let of_result :=
    r ← result w; sectors ← sectors_of r; Some (Z.of_nat (length sectors)) in
  if truthy of_result then of_result
  else (λ sectors : list Sector.t, Z.of_nat (length sectors)) <$> sectors w.

(** The number of pages and the page that the paginator of the header
    marks as the current one, for the number of sectors [total]. *)
Definition Paginator (total : Z) (config : Config.t) : Z * Z :=
  (* calculate the page count *)
  let count := or_default (Config.count config) (-1) in
  let count := if total <? count then total else count in
  let pageCount := if 0 <? count then - (- total / count) else 0 in
  (* select the page *)
  let page := or_default (Config.page config) 1 in
  let page := if page <=? 0 then 1 else page in
  let page := if pageCount <? page then pageCount else page in
  (pageCount, page).

(** *** The download *)

Definition quoted (s : string) : string :=
  String dquote (s +:+ String dquote EmptyString).

Definition indicator_label (i : Indicator.t) : string :=
  Indicator.code i +:+ " - " +:+ Indicator.name i
    +:+ " [" +:+ Indicator.unit i +:+ "]".

(** The ranking that is exported. *)
Definition download_ranking (w : t) : option (list Row) :=
  match result w with
  | Some result => getRanking result <$> indicators w
  | None => map unranked <$> sectors w
  end.

(** The first line of the delimited text, without its line break. *)
Definition csv_header (w : t) : string :=
  let text := "sector code,sector name" in
  let text := if truthy (demand w) then text +:+ ",demand" else text in
  match result w, indicators w with
  | Some _, Some indicators =>
      let text :=
        foldl (λ text i, text +:+ "," +:+ quoted (indicator_label i))
          text indicators in
      text +:+ ",ranking"
  | _, _ => text
  end.

(** The line of a row, without its line break. *)
Definition csv_line (w : t) (row : Row) : string :=
  let '(sector, rank) := row in
  let text :=
    quoted (Sector.code sector) +:+ "," +:+ quoted (Sector.name sector) in
  let text :=
    match demand w with
    | Some demand =>
        text +:+ "," +:+
          match demand !! Sector.code sector with
          | Some v => Z_to_string v
          | None => "undefined"
          end
    | None => text
    end in
  match result w, indicators w with
  | Some result, Some indicators =>
      let text :=
        foldl (λ text i,
            text +:+ "," +:+ Z_to_string (getResult result i sector))
          text indicators in
      text +:+ "," +:+ Z_to_string rank
  | _, _ => text
  end.

(** The delimited text of the download. *)
Definition onDownload_CSV (w : t) : option string :=
  ranking ← download_ranking w;
  Some (foldl (λ text row, text +:+ csv_line w row +:+ String newline "")
          (csv_header w +:+ String newline "") ranking).

(** The number of columns of a line of delimited text: the fields are
    separated by the commas that stand outside of double quotes. *)
Fixpoint separators (in_quotes : bool) (line : string) : nat :=
  match line with
  | EmptyString => 0
  | String c rest =>
      if Ascii.eqb c dquote then separators (negb in_quotes) rest
      else if Ascii.eqb c comma && negb in_quotes
      then S (separators in_quotes rest)
      else separators in_quotes rest
  end.

Definition csv_columns (line : string) : nat := S (separators false line).

(** Whether a position behind [line] lies inside of double quotes. *)
Fixpoint quote_state (in_quotes : bool) (line : string) : bool :=
  match line with
  | EmptyString => in_quotes
  | String c rest =>
      quote_state (if Ascii.eqb c dquote then negb in_quotes else in_quotes)
        rest
  end.

(** Texts without a double quote. *)
Fixpoint no_dquote (s : string) : bool :=
  match s with
  | EmptyString => true
  | String c rest => negb (Ascii.eqb c dquote) && no_dquote rest
  end.

(** A field that reads as one column: it has no separator and leaves
    no double quote open. *)
Definition closed (cell : string) : Prop :=
  separators false cell = 0%nat ∧ quote_state false cell = false.

Definition plain_indicator (i : Indicator.t) : bool :=
  no_dquote (Indicator.code i) && no_dquote (Indicator.name i)
  && no_dquote (Indicator.unit i).

Definition plain_sector (s : Sector.t) : bool :=
  no_dquote (Sector.code s) && no_dquote (Sector.name s).

(** The column count as the specification states it. *)
Definition expected_columns (w : t) : nat :=
  (2 + (match demand w with Some _ => 1 | None => 0 end)
     + length (default [] (indicators w))
     + (if (0 <? length (default [] (indicators w)))%nat then 1 else 0))%nat.

(** The column count of the export: the indicator columns and the
    ranking column depend on the presence of a result. *)
Definition exported_columns (w : t) : nat :=
  (2 + (match demand w with Some _ => 1 | None => 0 end)
     + (match result w, indicators w with
        | Some _, Some indicators => length indicators + 1
        | _, _ => 0
        end))%nat.

(** The columns in their order: sector code, sector name, demand,
    indicators, ranking; first their titles, then their fields for
    a row. *)
Definition header_cells (w : t) : list string :=
  "sector code" :: "sector name"
    :: ((match demand w with Some _ => ["demand"] | None => [] end)
     ++ (match result w, indicators w with
         | Some _, Some indicators =>
             ((λ i, quoted (indicator_label i)) <$> indicators)
               ++ ["ranking"]
         | _, _ => []
         end))%list.

Definition line_cells (w : t) (row : Row) : list string :=
  quoted (Sector.code row.1) :: quoted (Sector.name row.1)
    :: ((match demand w with
         | Some demand =>
             [match demand !! Sector.code row.1 with
              | Some v => Z_to_string v
              | None => "undefined"
              end]
         | None => []
         end)
     ++ (match result w, indicators w with
         | Some result, Some indicators =>
             ((λ i, Z_to_string (getResult result i row.1)) <$> indicators)
               ++ [Z_to_string row.2]
         | _, _ => []
         end))%list.

(** A step of an update keeps a part of the widget when that part is
    the same before and after it. *)
Definition keeps {A X} (part : t → X) (m : M A) : Prop :=
  ∀ st : State, part (this (m st).2) = part (this st).

(** The result of a calculation, unless it throws; it is the answer of
    the model and does not depend on the widget. *)
Definition calculated (model : Model.t) (config : Config.t)
  : option HeatmapResult :=
  (calculate model config {| this := {| config := None; result := None;
                                        demand := None; indicators := None;
                                        sectors := None; _naicsAttr := None |};
                             calls := [] |}).1.

(** Whether one of the fields that trigger a calculation differs between
    two configurations. *)
Definition stale (old new : Config.t) : Prop :=
  strict_eq same_array (Config.view old) (Config.view new) = false
  ∨ Config.perspective old ≠ Config.perspective new
  ∨ Config.analysis old ≠ Config.analysis new
  ∨ Config.year old ≠ Config.year new
  ∨ Config.location old ≠ Config.location new.

(** The demand amounts that count for a sector code: the truthy amounts
    of the sectors with that code, in the order of the sectors. *)
Definition amounts_of {N : Type} `{Truthy N} (values : gmap string N)
    (sectors : list Sector.t) (code : string) : list N :=
  omap (λ s,
      if String.eqb (Sector.code s) code
      then v ← values !! Sector.id s; if truthy v then Some v else None
      else None)
    sectors.

(** The sum of amounts as the aggregation adds them up: from left to
    right, starting again behind a sum that is not truthy. *)
Definition running_sum {N : Type} `{Truthy N} (add : N → N → N)
    (amounts : list N) : option N :=
  foldl (λ sum val,
      Some (match sum with
            | Some sum => if truthy sum then add sum val else val
            | None => val
            end))
    None amounts.

(** The indicator codes that a configuration selects: its own codes or,
    without any, the default codes. *)
Definition selected_codes (DEFAULT_INDICATORS : list string)
    (config : Config.t) : list string :=
  match Config.indicators config with
  | Def ((_ :: _) as codes) => codes
  | _ => DEFAULT_INDICATORS
  end.

(** *** The matrix of a calculation *)

(** The requests for the result of a matrix type: a plain matrix is
    fetched with the indicators and sectors, a result is calculated for
    the demand vector of the configuration. *)
Definition requests_of (model : Model.t) (config : Config.t)
    (matrix : MatrixSelector.Matrix) : list Call :=
  match matrix with
  | MatrixSelector.D => [GetMatrix "D"; GetIndicators; GetSectors]
  | MatrixSelector.U => [GetMatrix "U"; GetIndicators; GetSectors]
  | MatrixSelector.RD | MatrixSelector.RU =>
      [FindDemand; GetDemand (Model.findDemand model config); Calculate]
  end.

(** *** The observer of the mount element *)

(** The codes of the attribute of the mount element, if it has a value. *)
Definition attribute_codes (naicsAttr : option string)
  : optional (list string) :=
  if truthy naicsAttr
  then Def (trim <$> split comma (default "" naicsAttr))
  else Undefined.

(** A change of the attribute of the mount element: an update with a copy
    of the configuration and the codes of the attribute. *)
Definition onAttributeChange (DEFAULT_INDICATORS : list string)
    (model : Model.t) (naicsAttr : option string) : E unit :=
  w ← lift get;
  let config := match config w with Some c => c | None => Config.empty end in
  handleUpdate DEFAULT_INDICATORS model
    (Config.set_naics (attribute_codes naicsAttr) config).

(** *** The links of the paginator *)

(** The elements of the page links: the link to the previous page, the
    separators, the current page, the links to other pages and the link
    to the next page, each with the page that a click goes to. *)
Inductive PageLink : Type :=
  | Previous (target : Z)
  | Separator
  | Current (page : Z)
  | GoTo (target : Z)
  | Next (target : Z).

Definition page_link (page i : Z) (links : list PageLink) : list PageLink :=
  let links :=
    if (0 <? length links)%nat then (links ++ [Separator])%list else links in
  (links ++ [if i =? page then Current i else GoTo i])%list.

Definition Paginator_links (total : Z) (config : Config.t) : list PageLink :=
  let '(pageCount, page) := Paginator total config in
  let links := if 1 <? page then [Previous (page - 1)] else [] in
  let start := if 3 <? page then page - 2 else 1 in
  let end_ := start + 4 in
  let end_ := if pageCount <? end_ then pageCount else end_ in
  let links :=
    foldl (λ links i, page_link page i links) links
      (seqZ start (end_ - start + 1)) in
  if page <? pageCount
  then (links ++ [Separator; Next (page + 1)])%list
  else links.

(** The page that a click on an element goes to, and the change that it
    fires. *)
Definition link_target (l : PageLink) : option Z :=
  match l with
  | Previous t | GoTo t | Next t => Some t
  | Separator | Current _ => None
  end.

Definition goTo (nextPage : Z) : Config.t :=
  Config.set_page (Def nextPage) Config.empty.

(** *** The rows and their selection *)

Section Row.

(** The mapping of a NAICS code to a sector code, if there is one; the
    module of the NAICS codes is not part of the sources. *)
Variable toBEA : string → option string.

(** Whether the sector of a row is selected. *)
Definition Row_selected (config : Config.t) (sector : Sector.t) : bool :=
  match Config.sectors config with
  | Def sectors =>
      (* the code of the sector is in the sector list *)
      0 <=? indexOf sectors (Sector.code sector)
  | _ =>
      match Config.naics config with
      | Def naics =>
          (* maybe a matching NAICS code *)
          existsb (λ code, bool_decide (toBEA code = Some (Sector.code sector)))
            naics
      | _ => false
      end
  end.

(** [xs.splice(idx, 1)] *)
Definition splice1 {A} (xs : list A) (idx : Z) : list A :=
  let from := relative_index (Z.of_nat (length xs)) idx in
  delete (Z.to_nat from) xs.

(** The selection handler of a row: the sector list that it fires. *)
Definition onSelect (config : Config.t) (sector : Sector.t) : Config.t :=
  let selected := Row_selected config sector in
  let codes :=
    match Config.sectors config, Config.naics config with
    | Def codes, _ =>
        (* there is a sector configuration *)
        if selected
        then splice1 codes (indexOf codes (Sector.code sector))
        else (codes ++ [Sector.code sector])%list
    | _, Def naics =>
        (* create a sector configuration from NAICS codes *)
        foldl (λ codes naicsCode,
            match toBEA naicsCode with
            | Some code =>
                if negb (truthy code) then codes
                else if selected && String.eqb code (Sector.code sector)
                then codes
                else (codes ++ [code])%list
            | None => codes
            end)
          (if selected then [] else [Sector.code sector]) naics
    | _, _ => [Sector.code sector]
    end in
  Config.set_sectors (Def codes) Config.empty.

End Row.

(** *** The columns of the table *)

(** The cells of the head row and of the rows of the table by their
    columns: the sector with the check box (in the head row the paginator
    and the search field), the demand value, the grey cell before a group
    of indicators, the value of an indicator, and the ranking value. The
    keys, styles and texts of the cells are left out. *)
Inductive Column : Type :=
  | SectorColumn
  | DemandColumn
  | GroupColumn
  | IndicatorColumn (indicator : Indicator.t)
  | RankingColumn.

Section Table.

(** What an indicator without group has as its group: null or undefined,
    as the model delivers it. *)
Variable no_group : optional IndicatorGroup.

Definition group_of (indicator : Indicator.t) : optional IndicatorGroup :=
  match Indicator.group indicator with
  | Some g => Def g
  | None => no_group
  end.

Definition same_group (g1 g2 : IndicatorGroup) : bool :=
  bool_decide (g1 = g2).

(** The head cells of the indicators. *)
Definition IndicatorHeader (indicators : option (list Indicator.t))
  : list Column :=
  match indicators with
  | None | Some [] => []   (* no indicators *)
  | Some [indicator] => [IndicatorColumn indicator]   (* single indicator *)
  | Some indicators =>
      (* multiple indicators with groups *)
      (foldl (λ '(g, items) indicator,
          let '(g, items) :=
            if negb (strict_eq same_group (group_of indicator) g)
            then (group_of indicator, (items ++ [GroupColumn])%list)
            else (g, items) in
          (g, (items ++ [IndicatorColumn indicator])%list))
         (Null, []) indicators).2
  end.

(** The indicator results of a row: nothing without indicators or
    without a result, a bar for a single indicator, mosaic cells for
    multiple indicators. *)
Definition IndicatorResult (w : t) : list Column :=
  match indicators w, result w with
  | None, _ | Some [], _ | _, None => []
  | Some [ind], Some _ => [IndicatorColumn ind]
  | Some indicators, Some _ =>
      (foldl (λ '(g, items) ind,
          let '(g, items) :=
            if negb (strict_eq same_group (group_of ind) g)
            then (group_of ind, (items ++ [GroupColumn])%list)
            else (g, items) in
          (g, (items ++ [IndicatorColumn ind])%list))
         (Null, []) indicators).2
  end.

(** The cells of the head row of the component. *)
Definition Component_head (w : t) : option (list Column) :=
  config ← config w;
  Some ([SectorColumn]
        ++ (if truthy (Config.showvalues config) then [DemandColumn] else [])
        ++ IndicatorHeader (indicators w)
        ++ (if strings.isMember "ranking" (Config.view config)
            then [RankingColumn] else []))%list.

(** The cells of a row; they are the same for the row of every
    sector. With the display of values a row reads the demand value of
    its sector and throws when the widget has no demand values. *)
Definition Row_cells (w : t) : option (list Column) :=
  config ← config w;
  demand ←
    (if truthy (Config.showvalues config)
     then _ ← demand w; Some [DemandColumn]
     else Some []);
  Some ([SectorColumn]
        ++ demand
        ++ IndicatorResult w
        ++ (if strings.isMember "ranking" (Config.view config)
            then [RankingColumn] else []))%list.

(** The table that the component renders for an indicator to sort by and
    a search term: the cells of the head row and of every row; there is
    none when the component or one of its rows throws. *)
Definition Component_table (search : string → string → Z) (w : t)
    (sorter : option Indicator.t) (searchTerm : option string)
  : option (list Column * list (list Column)) :=
  rows ← Component search w sorter searchTerm;
  head ← Component_head w;
  body ← mapM (λ _ : Row, Row_cells w) rows;
  Some (head, body).

End Table.

End IndustryList.

(** ** The commodity list of the grid *)

Module CommodityList.

(** A sector with its selection state and its scaling factor. *)
Module Commodity.
Record t : Type := {
  id : string;
  index : Z;
  name : string;
  code : string;
  selected : bool;
  value : number;
  description : string;
}.
End Commodity.

(** The page and page size of a page change of the data grid. *)
Module PageChangeParams.
Record t : Type := { page : Z; pageSize : Z }.
End PageChangeParams.

(** A plain object with factors under sector codes, as the selection is
    kept: its own properties in the order of their creation. Properties
    that a plain object inherits are not part of it. *)
Definition TMap : Type := list (string * number).

Fixpoint TMap_get (m : TMap) (k : string) : option number :=
  match m with
  | [] => None
  | (k', v) :: rest => if String.eqb k' k then Some v else TMap_get rest k
  end.

(** [m[k] = v]: the value of an own property is replaced at its place, a
    new property comes last. *)
Fixpoint TMap_set (k : string) (v : number) (m : TMap) : TMap :=
  match m with
  | [] => [(k, v)]
  | (k', v') :: rest =>
      if String.eqb k' k then (k', v) :: rest
      else (k', v') :: TMap_set k v rest
  end.

(** [delete m[k]] *)
Fixpoint TMap_remove (k : string) (m : TMap) : TMap :=
  match m with
  | [] => []
  | (k', v') :: rest =>
      if String.eqb k' k then TMap_remove k rest
      else (k', v') :: TMap_remove k rest
  end.

#[global] Instance TMap_empty : Empty TMap := [].
#[global] Instance TMap_lookup : Lookup string number TMap :=
  λ k m, TMap_get m k.
#[global] Instance TMap_insert : Insert string number TMap := TMap_set.
#[global] Instance TMap_delete : Delete string TMap := TMap_remove.

(** The index that a key is as an array index: the key is the decimal
    text of an integer from 0 to 2^32 - 2. *)
Definition array_index (k : string) : option Z :=
  match read_digits 10 None k with
  | Some i =>
      if String.eqb (Z_to_string i) k && (i <? 2 ^ 32 - 1) then Some i
      else None
  | None => None
  end.

(** [Object.keys(m)]: the keys that are array indices in ascending order,
    then the other keys in the order of their creation. *)
Definition Object_keys (m : TMap) : list string :=
  let keys := m.*1 in
  (sort_by (λ k1 k2, default 0 (array_index k1) - default 0 (array_index k2))
     (filter (λ k, is_Some (array_index k)) keys)
   ++ filter (λ k, ¬ is_Some (array_index k)) keys)%list.

(** The sector code of an entry [code] or [code:factor]. *)
Definition entry_key (entry : string) : string :=
  nth 0 (split colon entry) "".

(** The entries of the sector list of a configuration. *)
Definition entries (config : Config.t) : list string :=
  match Config.sectors config with
  | Def sectors => sectors
  | _ => []
  end.

(** Texts without a colon. *)
Fixpoint no_colon (s : string) : bool :=
  match s with
  | EmptyString => true
  | String c rest => negb (Ascii.eqb c colon) && no_colon rest
  end.

(** The factors between the minimum and the maximum of the slider. *)
Definition Slider_min : Z := 0.
Definition Slider_max : Z := 500.

Definition in_range (n : number) : Prop :=
  match n with
  | Num z => Slider_min ≤ z ≤ Slider_max
  | NaN => False
  end.

(** The numbers that are printed and read again as they are: the safe
    integers and [NaN]. *)
Definition exact (n : number) : Prop :=
  match n with
  | Num z => safe z = true
  | NaN => True
  end.

(** Modelled from the spec: [ifNone] of the utilities, whose module is
    not part of the sources; the default replaces a missing value, so that
    sectors without a factor get the value 100. *)
Definition ifNone {A} (x : option A) (d : A) : A := default d x.

Section Grid.

Context `{Engine}.

(** The step that stores an entry [code] or [code:factor] of the sector
    list in the map of the selection. *)
Definition select (numMap : TMap) (code : string) : TMap :=
  let parts := split colon code in
  if (length parts <? 2)%nat then <[code := Num 100]> numMap
  else <[nth 0 parts "" := parseInt (nth 1 parts "")]> numMap.

(** The selected sectors and their scaling factors from the
    configuration: sector code -> factor. *)
Definition selection (config : Config.t) : TMap :=
  match Config.sectors config with
  | Def sectors => foldl select ∅ sectors
  | _ => ∅
  end.

(** The factor of an entry: 100 unless the entry has a factor. *)
Definition entry_factor (entry : string) : number :=
  let parts := split colon entry in
  if (length parts <? 2)%nat then Num 100 else parseInt (nth 1 parts "").

(** The entry of a sector code in the emitted sector list; there is none
    for the empty code. *)
Definition entry (selection : TMap) (code : string) : option string :=
  if truthy code
  then Some (code +:+ ":" +:+
               match selection !! code with
               | Some v => number_to_string v
               | None => "undefined"
               end)
  else None.

(** The configuration changes that a handler fires, in their order. *)
Definition fireSelectionChange (selection : TMap) : list Config.t :=
  let sectors := omap (entry selection) (Object_keys selection) in
  [Config.set_sectors (Def sectors) Config.empty].

(** The sectors as commodity objects. *)
Definition commodities (config : Config.t) (sectors : list Sector.t)
  : list Commodity.t :=
  (λ s, {|
     Commodity.id := Sector.id s;
     Commodity.index := Sector.index s;
     Commodity.name := Sector.name s;
     Commodity.code := Sector.code s;
     Commodity.selected :=
       bool_decide (is_Some (selection config !! Sector.code s));
     Commodity.value := ifNone (selection config !! Sector.code s) (Num 100);
     Commodity.description := Sector.description s |}) <$> sectors.

(** The click on the check box of a commodity. *)
Definition onClick (config : Config.t) (commodity : Commodity.t)
  : list Config.t :=
  let selection :=
    if Commodity.selected commodity
    then delete (Commodity.code commodity) (selection config)
    else <[Commodity.code commodity := Num 100]> (selection config) in
  fireSelectionChange selection.

(** A change of the slider of a commodity; the slider delivers values
    between its minimum and its maximum. *)
Definition Slider_onChange (config : Config.t) (commodity : Commodity.t)
    (value : Z) : list Config.t :=
  fireSelectionChange (<[Commodity.code commodity := Num value]> (selection config)).

(** The click on a cell of the data grid, with the field of the cell and
    the commodity of its row: makes the commodity selected when its slider
    is clicked. The flag that the handler sets on the row object is
    replaced at the next rendering, where the rows are derived from the
    configuration again; the fired changes are what the handler leaves. *)
Definition onSliderClicked (config : Config.t) (field : string)
    (commodity : Commodity.t) : list Config.t :=
  if negb (String.eqb field "value") then []
  else if Commodity.selected commodity then []
  else
    fireSelectionChange
      (<[Commodity.code commodity := Commodity.value commodity]>
         (selection config)).

End Grid.

(** A change of the page or of the page size of the data grid. *)
Definition onPageChange (config : Config.t)
    (p : option PageChangeParams.t) : list Config.t :=
  match p with
  | None => []
  | Some p =>
      (* avoid unnecessary change events *)
      let currentPage := or_default (Config.page config) 1 in
      let currentSize := or_default (Config.count config) 10 in
      if (PageChangeParams.page p =? currentPage)
         && (PageChangeParams.pageSize p =? currentSize)
      then []
      else if negb (PageChangeParams.pageSize p =? currentSize) then
        (* jump back to page 1 when the page size changes *)
        [Config.set_count (Def (PageChangeParams.pageSize p))
           (Config.set_page (Def 1) Config.empty)]
      else
        [Config.set_count (Def (PageChangeParams.pageSize p))
           (Config.set_page (Def (PageChangeParams.page p)) Config.empty)]
  end.

End CommodityList.

(** ** Sample data *)

Module Samples.

Definition sector (code name : string) : Sector.t :=
  {| Sector.id := code; Sector.index := 0; Sector.code := code;
     Sector.name := name; Sector.description := "" |}.

(** A sector of a region: its id differs from its code. *)
Definition sector_of (id code : string) : Sector.t :=
  {| Sector.id := id; Sector.index := 0; Sector.code := code;
     Sector.name := code; Sector.description := "" |}.

(** The truthiness of a floating point number: it is neither zero nor
    NaN. *)
Definition float_truthy : Truthy float :=
  λ x, negb (PrimFloat.is_zero x || PrimFloat.is_nan x).

Definition apple : Sector.t := sector "A" "Apple".
Definition banana : Sector.t := sector "B" "Banana".
Definition cherry : Sector.t := sector "C" "Cherry".

(** A search that finds every term at the start of every name. *)
Definition search_all (name term : string) : Z := 0.

(** A widget without result after an update with the given
    configuration. *)
Definition listing (config : Config.t) (sectors : list Sector.t)
  : IndustryList.t :=
  {| IndustryList.config := Some config;
     IndustryList.result := None;
     IndustryList.demand := None;
     IndustryList.indicators := Some [];
     IndustryList.sectors := Some sectors;
     IndustryList._naicsAttr := None |}.

Definition co2 : Indicator.t :=
  {| Indicator.id := "1"; Indicator.code := "GHG";
     Indicator.name := "Greenhouse Gases"; Indicator.unit := "kg CO2 eq";
     Indicator.group := Some IMPACT_POTENTIAL |}.

(** A result with the scores 3, 3 and 5 and the value 1 in every cell. *)
Definition scores : HeatmapResult :=
  {| getRanking := λ _, [(banana, 3); (apple, 3); (cherry, 5)];
     getResult := λ _ _, 1 |}.

Definition model : Model.t :=
  {| Model.matrix := λ _, [[1; 1; 1]];
     Model.indicators := Some [co2];
     Model.sectors := [apple; banana; cherry];
     Model.singleRegionSectors := [apple; banana; cherry];
     Model.findDemand := λ _, "demand";
     Model.demand := λ _, None;
     Model.calculate := λ _ _,
       {| Result.data := []; Result.totals := [];
          Result.indicators := []; Result.sectors := [] |};
     Model.heatmap := λ _, scores |}.

(** The configuration of a heatmap and of a plain list. *)
Definition mosaic : Config.t :=
  {| Config.sectors := Undefined; Config.naics := Undefined;
     Config.indicators := Def ["GHG"];
     Config.view := Def (Array 1 ["mosaic"]);
     Config.perspective := Def "direct"; Config.analysis := Undefined;
     Config.year := Undefined; Config.location := Undefined;
     Config.count := Def 10; Config.page := Def 1;
     Config.showvalues := Undefined; Config.showdownload := Def true;
     Config.showscientific := Undefined; Config.selectmatrix := Undefined |}.

(** The widget before its first update. *)
Definition fresh : IndustryList.State :=
  {| IndustryList.this :=
       {| IndustryList.config := None; IndustryList.result := None;
          IndustryList.demand := None; IndustryList.indicators := None;
          IndustryList.sectors := None; IndustryList._naicsAttr := None |};
     IndustryList.calls := [] |}.

(** The widget after its first update as a heatmap, and after a second
    update that turns it into a list with a ranking column. *)
Definition heatmap : IndustryList.State :=
  (IndustryList.handleUpdate [] model mosaic fresh).2.

Definition ranked : IndustryList.State :=
  (IndustryList.handleUpdate [] model
     (Config.set_view (Def (Array 2 ["ranking"])) mosaic) heatmap).2.

(** Three rows without scores. *)
Definition three : list Row := [(apple, 0); (banana, 0); (cherry, 0)].

(** A model with a demand vector. *)
Definition demanding : Model.t :=
  {| Model.matrix := Model.matrix model;
     Model.indicators := Model.indicators model;
     Model.sectors := Model.sectors model;
     Model.singleRegionSectors := Model.singleRegionSectors model;
     Model.findDemand := Model.findDemand model;
     Model.demand := λ _,
       Some [{| DemandEntry.sector := "A"; DemandEntry.amount := 5 |};
             {| DemandEntry.sector := "B"; DemandEntry.amount := 7 |}];
     Model.calculate := Model.calculate model;
     Model.heatmap := Model.heatmap model |}.

(** A model that delivers no indicators. *)
Definition blank : Model.t :=
  {| Model.matrix := Model.matrix model;
     Model.indicators := None;
     Model.sectors := Model.sectors model;
     Model.singleRegionSectors := Model.singleRegionSectors model;
     Model.findDemand := Model.findDemand model;
     Model.demand := Model.demand demanding;
     Model.calculate := Model.calculate model;
     Model.heatmap := Model.heatmap model |}.

(** The digits of a text without the zeros at its end. *)
Fixpoint strip_zeros (s : string) : string :=
  match s with
  | EmptyString => EmptyString
  | String c rest =>
      match strip_zeros rest with
      | EmptyString => if Ascii.eqb c "0" then EmptyString else String c ""
      | rest' => String c rest'
      end
  end.

(** The exponent notation of an integer with all of its digits. *)
Definition exponent_text (z : Z) : string :=
  match Z_to_string (Z.abs z) with
  | String d rest =>
      (if z <? 0 then "-" else "")
      +:+ String d
            (match strip_zeros rest with
             | EmptyString => ""
             | digits => "." +:+ digits
             end)
      +:+ "e+" +:+ Z_to_string (Z.of_nat (String.length rest))
  | EmptyString => ""
  end.

(** An engine for the samples: beyond the safe integers it keeps the
    integer that was read and prints its digits, in exponent notation
    from 10^21 on. *)
Definition engine : Engine :=
  {| big_number := λ _ z, Num z;
     big_text := λ z,
       if Z.abs z <? 10 ^ 21 then Z_to_string z else exponent_text z |}.

(** A configuration with a sector selection. *)
Definition selecting (entries : list string) : Config.t :=
  Config.set_sectors (Def entries) Config.empty.

Definition commodity (s : Sector.t) (selected : bool) (value : number)
  : CommodityList.Commodity.t :=
  {| CommodityList.Commodity.id := Sector.id s;
     CommodityList.Commodity.index := Sector.index s;
     CommodityList.Commodity.name := Sector.name s;
     CommodityList.Commodity.code := Sector.code s;
     CommodityList.Commodity.selected := selected;
     CommodityList.Commodity.value := value;
     CommodityList.Commodity.description := Sector.description s |}.

(** A sector without a code. *)
Definition nameless : Sector.t := sector "" "Nameless".

Definition paged (count page : Z) : Config.t :=
  Config.set_page (Def page) (Config.set_count (Def count) Config.empty).

End Samples.

(** ** Properties of the matrix selector *)

(** C9: for every configuration, present or missing, and each of the four
    matrices, the matrix type of the updated configuration is the selected
    matrix. *)
Theorem matrixOf_update (c : option Config.t) (m : MatrixSelector.Matrix) :
  MatrixSelector.matrixOf (Some (MatrixSelector.update c (Some m))) = m.
Proof.
  unfold MatrixSelector.update.
  set (conf := match c with None => Config.empty | Some c0 => c0 end).
  destruct m; cbn [MatrixSelector.matrixOf]; try reflexivity.
  - destruct (negb (truthy (Config.analysis conf))) eqn:E; simpl.
    + reflexivity.
    + rewrite E. reflexivity.
  - destruct (negb (truthy (Config.analysis conf))) eqn:E; simpl.
    + reflexivity.
    + rewrite E. reflexivity.
Qed.

(** ** Properties of the paging of the commodity list *)

Import CommodityList.

(** C7: a page change whose page size differs from the current count of the
    configuration (10 when the configuration has none) fires one
    configuration change, with page 1 and the new page size as count. *)
Theorem onPageChange_resets_page (config : Config.t) (p : PageChangeParams.t) :
  PageChangeParams.pageSize p ≠ or_default (Config.count config) 10 →
  ∃ change,
    onPageChange config (Some p) = [change]
    ∧ Config.page change = Def 1
    ∧ Config.count change = Def (PageChangeParams.pageSize p).
Proof.
  intros Hsize. unfold onPageChange.
  apply Z.eqb_neq in Hsize. rewrite Hsize, andb_false_r. simpl.
  eexists. split; [reflexivity|]. split; reflexivity.
Qed.

Lemma onPageChange_resets_page_witness :
  ∃ change,
    onPageChange (Config.set_page (Def 4) (Config.set_count (Def 20) Config.empty))
      (Some {| PageChangeParams.page := 4; PageChangeParams.pageSize := 50 |})
      = [change]
    ∧ Config.page change = Def 1
    ∧ Config.count change = Def 50.
Proof.
  apply (onPageChange_resets_page
           (Config.set_page (Def 4) (Config.set_count (Def 20) Config.empty))
           {| PageChangeParams.page := 4; PageChangeParams.pageSize := 50 |}).
  simpl. lia.
Defined.

(** C10: a page change to the current page (1 when the configuration has
    none) with the current page size (10 when the configuration has none)
    fires no configuration change. *)
Theorem onPageChange_same_page (config : Config.t) (p : PageChangeParams.t) :
  PageChangeParams.page p = or_default (Config.page config) 1 →
  PageChangeParams.pageSize p = or_default (Config.count config) 10 →
  onPageChange config (Some p) = [].
Proof.
  intros Hpage Hsize. unfold onPageChange.
  rewrite Hpage, Hsize, !Z.eqb_refl. reflexivity.
Qed.

Lemma onPageChange_same_page_witness :
  onPageChange Config.empty
    (Some {| PageChangeParams.page := 1; PageChangeParams.pageSize := 10 |})
  = [].
Proof.
  apply (onPageChange_same_page Config.empty
           {| PageChangeParams.page := 1; PageChangeParams.pageSize := 10 |});
    reflexivity.
Defined.

(** ** Properties of the paging of the industry list *)

Lemma take_drop_clamped {A} (xs : list A) (n m : nat) :
  (length xs ≤ n + m)%nat → take (length xs - n) (drop n xs) = take m (drop n xs).
Proof.
  intros Hlen.
  rewrite !take_ge; [reflexivity | rewrite length_drop; lia ..].
Qed.

(** A slice that starts at a position [off] and has the size [n] consists
    of the [n] elements from the position [off] on, as far as there are
    any. *)
Lemma slice_take_drop {A} (xs : list A) (off n : Z) :
  0 ≤ off → 0 ≤ n →
  slice xs off (off + n) = take (Z.to_nat n) (drop (Z.to_nat off) xs).
Proof.
  intros Hoff Hn. unfold slice, relative_index.
  destruct (Z.ltb_spec off 0) as [?|_]; [lia|].
  destruct (Z.ltb_spec (off + n) 0) as [?|_]; [lia|].
  set (len := Z.of_nat (length xs)).
  destruct (Z.le_gt_cases off len) as [Hin|Hout].
  - rewrite (Z.min_l off len) by lia.
    destruct (Z.le_gt_cases (off + n) len) as [Hend|Hend].
    + rewrite Z.min_l by lia. f_equal. f_equal. lia.
    + rewrite Z.min_r by lia.
      replace (Z.to_nat (len - off)) with (length xs - Z.to_nat off)%nat
        by (subst len; lia).
      apply take_drop_clamped. subst len. lia.
  - rewrite !Z.min_r by lia.
    rewrite Z.sub_diag. simpl.
    rewrite (drop_ge xs (Z.to_nat off)) by (subst len; lia).
    now rewrite take_nil.
Qed.

Lemma slice_first {A} (xs : list A) (n : Z) :
  0 ≤ n → slice xs 0 n = take (Z.to_nat n) xs.
Proof. intros Hn. exact (slice_take_drop xs 0 n (Z.le_refl 0) Hn). Qed.

(** The page that the component selects for a page size [N] and a page
    number [P]: the page at the offset [(P-1)*N] when that offset lies in
    the ranking, and the first page otherwise. *)
Lemma select_page_spec (config : Config.t) (full : list Row) (N P : Z) :
  Config.count config = Def N → Config.page config = Def P → 1 ≤ N →
  IndustryList.select_page config full =
    if (1 <? P) && ((P - 1) * N <? Z.of_nat (length full))
    then take (Z.to_nat N) (drop (Z.to_nat ((P - 1) * N)) full)
    else take (Z.to_nat N) full.
Proof.
  intros HN HP Hpos. unfold IndustryList.select_page. rewrite HN, HP.
  unfold truthy, Z_truthy.
  destruct (Z.eqb_spec N 0) as [?|_]; [lia|].
  destruct (Z.leb_spec 0 N) as [_|?]; [|lia]. simpl.
  destruct (Z.leb_spec P 1) as [Hle|Hgt], (Z.ltb_spec 1 P) as [?|?];
    try lia; simpl.
  - apply slice_first; lia.
  - destruct (Z.ltb_spec ((P - 1) * N) (Z.of_nat (length full))).
    + apply slice_take_drop; nia.
    + apply slice_first; lia.
Qed.

(** C1: for a page size [N >= 1] and a page number [P] whose offset
    [(P-1)*N] lies within the ranking, the rendered rows are the rows
    [(P-1)*N, P*N) of the full ranking, cut at the end of the ranking. *)
Theorem Component_renders_page (search : string → string → Z)
    (w : IndustryList.t) (sorter : option Indicator.t)
    (searchTerm : option string)
    (config : Config.t) (full : list Row) (N P : Z) :
  IndustryList.config w = Some config →
  IndustryList.ranking search w sorter searchTerm = Some full →
  Config.count config = Def N → Config.page config = Def P →
  1 ≤ N → 0 ≤ (P - 1) * N < Z.of_nat (length full) →
  IndustryList.Component search w sorter searchTerm =
    Some (take (Z.to_nat (P * N - (P - 1) * N))
            (drop (Z.to_nat ((P - 1) * N)) full)).
Proof.
  intros Hconfig Hfull HN HP Hpos [Hlo Hhi].
  unfold IndustryList.Component. rewrite Hconfig, Hfull. simpl.
  rewrite (select_page_spec config full N P HN HP Hpos).
  replace (P * N - (P - 1) * N) with N by lia.
  destruct (Z.ltb_spec 1 P) as [HP1|HP1]; simpl.
  - destruct (Z.ltb_spec ((P - 1) * N) (Z.of_nat (length full))); [|lia].
    reflexivity.
  - assert (P = 1) as -> by nia. reflexivity.
Qed.

Lemma Component_renders_page_witness :
  IndustryList.Component Samples.search_all
    (Samples.listing (Samples.paged 2 2)
       [Samples.cherry; Samples.apple; Samples.banana]) None None
  = Some [(Samples.cherry, 0)].
Proof.
  apply (Component_renders_page Samples.search_all
           (Samples.listing (Samples.paged 2 2)
              [Samples.cherry; Samples.apple; Samples.banana]) None None
           (Samples.paged 2 2)
           [(Samples.apple, 0); (Samples.banana, 0); (Samples.cherry, 0)]
           2 2);
    try reflexivity; simpl; lia.
Defined.

(** C2: for a page size [N >= 1] and a page number whose offset [(P-1)*N]
    is at or behind the end of the ranking, the component renders the
    first page of the ranking. *)
Theorem Component_out_of_range_page (search : string → string → Z)
    (w : IndustryList.t) (sorter : option Indicator.t)
    (searchTerm : option string)
    (config : Config.t) (full : list Row) (N P : Z) :
  IndustryList.config w = Some config →
  IndustryList.ranking search w sorter searchTerm = Some full →
  Config.count config = Def N → Config.page config = Def P →
  1 ≤ N → Z.of_nat (length full) ≤ (P - 1) * N →
  IndustryList.Component search w sorter searchTerm =
    Some (take (Z.to_nat N) full).
Proof.
  intros Hconfig Hfull HN HP Hpos Hout.
  unfold IndustryList.Component. rewrite Hconfig, Hfull. simpl.
  rewrite (select_page_spec config full N P HN HP Hpos).
  destruct (Z.ltb_spec ((P - 1) * N) (Z.of_nat (length full))); [lia|].
  now rewrite andb_false_r.
Qed.

(** Three sectors in pages of two: for the page 3 the paginator marks the
    last page 2 as the current page, whose row is the third sector, while
    the rows of the first page are rendered. *)
Lemma Component_out_of_range_page_witness :
  let w := Samples.listing (Samples.paged 2 3)
             [Samples.apple; Samples.banana; Samples.cherry] in
  IndustryList.Component Samples.search_all w None None
    = Some [(Samples.apple, 0); (Samples.banana, 0)]
  ∧ IndustryList.Paginator 3 (Samples.paged 2 3) = (2, 2)
  ∧ IndustryList.Component Samples.search_all
      (Samples.listing (Samples.paged 2 2)
         [Samples.apple; Samples.banana; Samples.cherry]) None None
    = Some [(Samples.cherry, 0)].
Proof.
  split; [|split; reflexivity].
  apply (Component_out_of_range_page Samples.search_all
           (Samples.listing (Samples.paged 2 3)
              [Samples.apple; Samples.banana; Samples.cherry]) None None
           (Samples.paged 2 3)
           [(Samples.apple, 0); (Samples.banana, 0); (Samples.cherry, 0)]
           2 3);
    try reflexivity; simpl; lia.
Defined.

(** ** Properties of the sort *)

Section Sorting.

Context {A : Type} (cmp : A → A → Z).

Hypothesis cmp_total : ∀ x y, before cmp x y ∨ before cmp y x.
Hypothesis cmp_trans :
  ∀ x y z, before cmp x y → before cmp y z → before cmp x z.

Lemma insert_by_perm (x : A) (xs : list A) : insert_by cmp x xs ≡ₚ x :: xs.
Proof.
  induction xs as [|y ys IH]; simpl; [reflexivity|].
  destruct (cmp y x <=? 0); [|reflexivity].
  rewrite IH. apply perm_swap.
Qed.

Lemma insert_by_sorted (x : A) (xs : list A) :
  StronglySorted (before cmp) xs → StronglySorted (before cmp) (insert_by cmp x xs).
Proof.
  induction 1 as [|y ys Hys IH Hy]; simpl.
  - repeat constructor.
  - destruct (Z.leb_spec (cmp y x) 0) as [Hle|Hgt].
    + constructor; [exact IH|].
      rewrite (insert_by_perm x ys). constructor; assumption.
    + assert (before cmp x y) as Hxy.
      { destruct (cmp_total x y) as [H|H]; [exact H|unfold before in H; lia]. }
      constructor; [constructor; assumption|].
      constructor; [exact Hxy|].
      eapply Forall_impl; [exact Hy|]. intros z Hz. now apply cmp_trans with y.
Qed.

Lemma sort_by_from (acc xs : list A) :
  StronglySorted (before cmp) acc →
  StronglySorted (before cmp) (foldl (λ acc x, insert_by cmp x acc) acc xs)
  ∧ foldl (λ acc x, insert_by cmp x acc) acc xs ≡ₚ acc ++ xs.
Proof.
  revert acc. induction xs as [|x xs IH]; intros acc Hacc; simpl.
  - split; [exact Hacc|now rewrite app_nil_r].
  - destruct (IH (insert_by cmp x acc) (insert_by_sorted x acc Hacc))
      as [Hsorted Hperm].
    split; [exact Hsorted|].
    rewrite Hperm, insert_by_perm. simpl. apply Permutation_middle.
Qed.

Lemma sort_by_sorted (xs : list A) : StronglySorted (before cmp) (sort_by cmp xs).
Proof. apply sort_by_from. constructor. Qed.

Lemma sort_by_perm (xs : list A) : sort_by cmp xs ≡ₚ xs.
Proof. apply (sort_by_from [] xs). constructor. Qed.

(** In a sorted list every element may stand in front of the later
    ones. *)
Lemma sorted_lookup (xs : list A) (i j : nat) (x y : A) :
  StronglySorted (before cmp) xs → (i < j)%nat →
  xs !! i = Some x → xs !! j = Some y → before cmp x y.
Proof.
  intros Hsorted. revert i j.
  induction Hsorted as [|z zs Hzs IH Hz]; intros i j Hij Hi Hj.
  - rewrite lookup_nil in Hi. discriminate.
  - destruct j as [|j]; [lia|]. simpl in Hj.
    destruct i as [|i]; simpl in Hi.
    + injection Hi as ->.
      rewrite Forall_forall in Hz. apply Hz.
      eapply list_elem_of_lookup_2. exact Hj.
    + apply (IH i j); [lia|assumption..].
Qed.

End Sorting.

(** ** Properties of the ranking *)

Lemma string_compare_trans (a b c : string) :
  String.compare a b ≠ Gt → String.compare b c ≠ Gt → String.compare a c ≠ Gt.
Proof.
  revert b c. induction a as [|x a IH]; intros [|y b] [|z c]; simpl;
    try congruence.
  unfold Ascii.compare.
  destruct (N.compare_spec (N_of_ascii x) (N_of_ascii y)),
           (N.compare_spec (N_of_ascii y) (N_of_ascii z)),
           (N.compare_spec (N_of_ascii x) (N_of_ascii z));
    try congruence; try lia.
  apply IH.
Qed.

Lemma strings_compare_le (a b : string) :
  strings.compare a b ≤ 0 ↔ String.compare a b ≠ Gt.
Proof. unfold strings.compare. destruct (String.compare a b); split; (lia || congruence). Qed.

Lemma strings_compare_total (a b : string) :
  strings.compare a b ≤ 0 ∨ strings.compare b a ≤ 0.
Proof.
  rewrite !strings_compare_le, (String.compare_antisym a b).
  destruct (String.compare b a); simpl; (left; congruence) || (right; congruence).
Qed.

Lemma strings_compare_trans (a b c : string) :
  strings.compare a b ≤ 0 → strings.compare b c ≤ 0 → strings.compare a c ≤ 0.
Proof. rewrite !strings_compare_le. apply string_compare_trans. Qed.

(** A row may stand in front of another one when its score is higher, or
    when the scores are equal and its name is not the later one. *)
Lemma compare_rows_le (r1 r2 : Row) :
  before IndustryList.compare_rows r1 r2 ↔
    r2.2 < r1.2
    ∨ (r1.2 = r2.2
       ∧ strings.compare (Sector.name r1.1) (Sector.name r2.1) ≤ 0).
Proof.
  destruct r1 as [s1 rank1], r2 as [s2 rank2].
  unfold before, IndustryList.compare_rows. simpl.
  destruct (Z.eqb_spec rank1 rank2); lia.
Qed.

Lemma compare_rows_total (r1 r2 : Row) :
  before IndustryList.compare_rows r1 r2 ∨ before IndustryList.compare_rows r2 r1.
Proof.
  rewrite !compare_rows_le.
  destruct (strings_compare_total (Sector.name r1.1) (Sector.name r2.1)); lia.
Qed.

Lemma compare_rows_trans (r1 r2 r3 : Row) :
  before IndustryList.compare_rows r1 r2 →
  before IndustryList.compare_rows r2 r3 →
  before IndustryList.compare_rows r1 r3.
Proof.
  rewrite !compare_rows_le. intros [H12|[E12 H12]] [H23|[E23 H23]]; try lia.
  right. split; [lia|]. eapply strings_compare_trans; eassumption.
Qed.

(** C3: in the ranking of the industry list a row stands in front of
    another one only if its score is not lower and, for equal scores, its
    sector name is alphabetically not the later one. Without a result, the
    sectors Apple and Banana are ranked in this order. *)
Theorem ranking_order (search : string → string → Z) (w : IndustryList.t)
    (sorter : option Indicator.t) (searchTerm : option string) :
  (∀ (full : list Row) (i j : nat) (r1 r2 : Row),
     IndustryList.ranking search w sorter searchTerm = Some full →
     (i < j)%nat → full !! i = Some r1 → full !! j = Some r2 →
     r2.2 ≤ r1.2
     ∧ (r1.2 = r2.2 →
        strings.compare (Sector.name r1.1) (Sector.name r2.1) ≤ 0))
  ∧ (∀ a b : Sector.t,
       IndustryList.result w = None →
       IndustryList.sectors w = Some [a; b] →
       Sector.name a = "Apple" → Sector.name b = "Banana" →
       IndustryList.ranking search w sorter None = Some [(a, 0); (b, 0)]).
Proof.
  split.
  - intros full i j r1 r2 Hfull Hij Hi Hj.
    unfold IndustryList.ranking in Hfull.
    destruct (IndustryList.candidates search w sorter searchTerm)
      as [rows|]; [|discriminate].
    injection Hfull as <-.
    pose proof (sort_by_sorted IndustryList.compare_rows
                  compare_rows_total compare_rows_trans rows) as Hsorted.
    pose proof (sorted_lookup _ _ i j r1 r2 Hsorted Hij Hi Hj) as Hbefore.
    apply compare_rows_le in Hbefore. lia.
  - intros a b Hresult Hsectors Ha Hb.
    unfold IndustryList.ranking, IndustryList.candidates.
    rewrite Hresult, Hsectors. simpl.
    unfold sort_by, IndustryList.unranked. simpl.
    rewrite Ha, Hb. reflexivity.
Qed.

(** The ranking consists of the rows that were sorted. *)
Lemma ranking_perm (search : string → string → Z) (w : IndustryList.t)
    (sorter : option Indicator.t) (searchTerm : option string)
    (full : list Row) :
  IndustryList.ranking search w sorter searchTerm = Some full →
  ∃ rows,
    IndustryList.candidates search w sorter searchTerm = Some rows
    ∧ full ≡ₚ rows.
Proof.
  unfold IndustryList.ranking.
  destruct (IndustryList.candidates search w sorter searchTerm) as [rows|];
    [|discriminate].
  intros [= <-]. exists rows. split; [reflexivity|].
  apply sort_by_perm; [apply compare_rows_total|apply compare_rows_trans].
Qed.

Lemma ranking_order_witness :
  let w := Samples.listing Config.empty [Samples.banana; Samples.apple] in
  IndustryList.ranking Samples.search_all w None None
    = Some [(Samples.apple, 0); (Samples.banana, 0)]
  ∧ (0 ≤ 0 ∧ (0 = 0 →
       strings.compare (Sector.name Samples.apple) (Sector.name Samples.banana)
         ≤ 0)).
Proof.
  split; [reflexivity|].
  apply (proj1 (ranking_order Samples.search_all
                  (Samples.listing Config.empty [Samples.banana; Samples.apple])
                  None None)
           [(Samples.apple, 0); (Samples.banana, 0)] 0%nat 1%nat
           (Samples.apple, 0) (Samples.banana, 0));
    [reflexivity | lia | reflexivity | reflexivity].
Defined.

(** ** Properties of the update of the industry list *)

Section Quiet.

Import IndustryList.

Lemma quiet_ret {A} (a : A) : quiet (mret a).
Proof.
  intros st. split; [reflexivity|].
  exists []. split; [now rewrite app_nil_r|constructor].
Qed.

Lemma quiet_bind {A B} (m : M A) (k : A → M B) :
  quiet m → (∀ a, quiet (k a)) → quiet (m ≫= k).
Proof.
  intros Hm Hk st. unfold mbind, M_bind.
  destruct (Hm st) as [Hr1 (issued1 & Hc1 & Hq1)].
  destruct (m st) as [a st1]. simpl in *.
  destruct (Hk a st1) as [Hr2 (issued2 & Hc2 & Hq2)].
  split; [congruence|].
  exists (issued1 ++ issued2)%list. split.
  - rewrite Hc2, Hc1. now rewrite app_assoc.
  - now apply Forall_app.
Qed.

Lemma quiet_get : quiet get.
Proof.
  intros st. split; [reflexivity|].
  exists []. split; [now rewrite app_nil_r|constructor].
Qed.

Lemma quiet_modify (f : t → t) :
  (∀ w, result (f w) = result w) → quiet (modify f).
Proof.
  intros Hf st. split; [apply Hf|].
  exists []. split; [now rewrite app_nil_r|constructor].
Qed.

Lemma quiet_call {A} (c : Call) (answer : A) :
  recalculates c = false → quiet (call c answer).
Proof.
  intros Hc st. split; [reflexivity|].
  exists [c]. split; [reflexivity|]. now repeat constructor.
Qed.

Lemma quiet_when (b : bool) (m : M unit) : quiet m → quiet (when b m).
Proof. intros Hm. destruct b; [exact Hm|apply quiet_ret]. Qed.

Lemma quiet_syncIndicators (DEFAULT_INDICATORS : list string)
    (model : Model.t) (config : Config.t) :
  quiet (syncIndicators DEFAULT_INDICATORS model config).
Proof.
  unfold syncIndicators.
  destruct (negb _); [apply quiet_ret|].
  apply quiet_bind; [now apply quiet_call|].
  intros [[|i all]|]; try apply quiet_ret.
  destruct (_ <=? _)%nat; apply quiet_ret.
Qed.

(** Without a change in the fields that trigger a calculation, none is
    needed when the widget has a configuration and a result. *)
Lemma needsCalculation_unchanged (w : t) (old new : Config.t)
    (r : HeatmapResult) :
  result w = Some r →
  Config.view old = Config.view new →
  Config.perspective old = Config.perspective new →
  Config.analysis old = Config.analysis new →
  Config.year old = Config.year new →
  Config.location old = Config.location new →
  needsCalculation w (Some old) (Some new) = false.
Proof.
  intros Hr Hview Hpersp Hana Hyear Hloc. unfold needsCalculation.
  rewrite Hr, Hview, Hpersp, Hana, Hyear, Hloc.
  destruct (negb _); [reflexivity|].
  assert (∀ x : optional (array string), strict_eq same_array x x = true)
    as Harray.
  { intros [| |x]; simpl; [reflexivity..|apply Pos.eqb_refl]. }
  assert (∀ x : optional string, strict_eq String.eqb x x = true)
    as Hstring.
  { intros [| |x]; simpl; [reflexivity..|apply String.eqb_refl]. }
  assert (∀ x : optional Z, strict_eq Z.eqb x x = true) as Hnumber.
  { intros [| |x]; simpl; [reflexivity..|apply Z.eqb_refl]. }
  rewrite Harray, !Hstring, Hnumber. reflexivity.
Qed.

(** The steps behind the calculation keep the result and compute
    none. *)
Lemma finish_update_quiet (DEFAULT_INDICATORS : list string)
    (model : Model.t) (config : Config.t) (needsCalc : bool) :
  quiet (finish_update DEFAULT_INDICATORS model config needsCalc).
Proof.
  unfold finish_update.
  repeat first
    [ apply quiet_ret
    | apply quiet_get
    | apply quiet_syncIndicators
    | apply quiet_call; reflexivity
    | apply quiet_modify; reflexivity
    | apply quiet_when
    | apply quiet_bind; [|intros ?]
    | match goal with
      | |- quiet (match ?d with Some _ => _ | None => _ end) => destruct d
      end ].
Qed.

(** The state that a lifted step leaves. *)
Lemma lift_state {A} (m : M A) (st : State) : (lift m st).2 = (m st).2.
Proof. unfold lift. now destruct (m st). Qed.

Lemma lift_value {A} (m : M A) (st : State) : (lift m st).1 = Some (m st).1.
Proof. unfold lift. now destruct (m st). Qed.

Lemma run_bindE {A B} (m : E A) (k : A → E B) (st : State) :
  (m ≫= k) st
  = match (m st).1 with
    | Some a => k a (m st).2
    | None => (None, (m st).2)
    end.
Proof. unfold mbind, E_bind. now destruct (m st) as [[a|] st']. Qed.

(** A calculation leaves the widget as it is and issues the requests of
    a plain matrix or of a result. *)
Lemma calculate_run (model : Model.t) (config : Config.t) (st : State) :
  calculate model config st
  = (calculated model config,
     {| this := this st;
        calls :=
          calls st
          ++ requests_of model config
               (if negb (truthy (Config.analysis config))
                then (if strict_eq String.eqb (Config.perspective config)
                           (Def "direct")
                      then MatrixSelector.D else MatrixSelector.U)
                else MatrixSelector.RU) |}).
Proof.
  unfold calculated, calculate.
  destruct (negb _).
  - destruct (strict_eq _ _ _); unfold mbind, E_bind, lift, call; simpl;
      destruct (Model.indicators model); simpl;
      now rewrite <- !app_assoc.
  - unfold mbind, E_bind, lift, call; simpl. now rewrite <- !app_assoc.
Qed.

(** The steps of an update: the configuration is stored, the result of a
    needed calculation is stored unless the calculation throws, and the
    remaining steps are run. *)
Lemma handleUpdate_run (DEFAULT_INDICATORS : list string)
    (model : Model.t) (config : Config.t) (st : State) :
  handleUpdate DEFAULT_INDICATORS model config st
  = let w := this st in
    let needsCalc := needsCalculation w (IndustryList.config w) (Some config) in
    let st1 := {| this := set_config (stored_config w config) w;
                  calls := calls st |} in
    if needsCalc
    then
      let st2 := (calculate model config st1).2 in
      match calculated model config with
      | Some r =>
          lift (finish_update DEFAULT_INDICATORS model config true)
            {| this := set_result r (this st2); calls := calls st2 |}
      | None => (None, st2)
      end
    else lift (finish_update DEFAULT_INDICATORS model config false) st1.
Proof.
  unfold handleUpdate.
  change ((lift get ≫= ?k) st) with (k (this st) st).
  cbv beta zeta.
  rewrite run_bindE, lift_value, lift_state. unfold modify at 1 2.
  cbn [fst snd].
  destruct (needsCalculation _ _ _); [|reflexivity].
  rewrite !run_bindE, !calculate_run. cbn [fst snd].
  destruct (calculated model config); reflexivity.
Qed.

End Quiet.

(** C5, as the update compares the configurations: when the widget has a
    result and the new configuration holds the view array of the old one
    (the same array, not only the same view modes) and agrees with it in
    the perspective, the analysis type, the year and the location, an
    update keeps the result of the widget and issues no request that
    computes one. *)
Theorem handleUpdate_reuses_result (DEFAULT_INDICATORS : list string)
    (model : Model.t) (old new : Config.t) (r : HeatmapResult)
    (st : IndustryList.State) :
  IndustryList.config (IndustryList.this st) = Some old →
  IndustryList.result (IndustryList.this st) = Some r →
  Config.view old = Config.view new →
  Config.perspective old = Config.perspective new →
  Config.analysis old = Config.analysis new →
  Config.year old = Config.year new →
  Config.location old = Config.location new →
  let st' := (IndustryList.handleUpdate DEFAULT_INDICATORS model new st).2 in
  IndustryList.result (IndustryList.this st') = Some r
  ∧ ∃ issued,
      IndustryList.calls st' = (IndustryList.calls st ++ issued)%list
      ∧ Forall (λ c, IndustryList.recalculates c = false) issued.
Proof.
  intros Hconfig Hresult Hview Hpersp Hana Hyear Hloc st'. subst st'.
  pose proof (needsCalculation_unchanged (IndustryList.this st) old new r
                Hresult Hview Hpersp Hana Hyear Hloc) as Hneeds.
  rewrite handleUpdate_run. cbv zeta. rewrite Hconfig, Hneeds, lift_state.
  match goal with
  | |- context [(IndustryList.finish_update ?d ?m ?c ?b ?st1).2] =>
      destruct (finish_update_quiet d m c b st1) as [Hkeep Hcalls]
  end.
  split; [now rewrite Hkeep|exact Hcalls].
Qed.

Lemma handleUpdate_reuses_result_witness :
  let st := (IndustryList.handleUpdate [] Samples.model Samples.mosaic
               Samples.fresh).2 in
  let st' := (IndustryList.handleUpdate [] Samples.model
                (Config.set_page (Def 2) Samples.mosaic) st).2 in
  IndustryList.result (IndustryList.this st') = Some Samples.scores
  ∧ ∃ issued,
      IndustryList.calls st' = (IndustryList.calls st ++ issued)%list
      ∧ Forall (λ c, IndustryList.recalculates c = false) issued.
Proof.
  intros st.
  apply (handleUpdate_reuses_result [] Samples.model Samples.mosaic
           (Config.set_page (Def 2) Samples.mosaic) Samples.scores st);
    reflexivity.
Defined.

(** A view with the same view modes in another array: only the page
    differs otherwise, the widget has a result, and the update calculates
    again, since the views are compared as arrays and not by their
    modes. *)
Lemma handleUpdate_equal_view_counterexample :
  let old := Samples.mosaic in
  let new :=
    Config.set_page (Def 2)
      (Config.set_view (Def (Array 2 ["mosaic"])) Samples.mosaic) in
  let st := Samples.heatmap in
  let st' := (IndustryList.handleUpdate [] Samples.model new st).2 in
  IndustryList.config (IndustryList.this st) = Some old
  ∧ IndustryList.result (IndustryList.this st) = Some Samples.scores
  ∧ Config.view old = Def (Array 1 ["mosaic"])
  ∧ Config.view new = Def (Array 2 ["mosaic"])
  ∧ Config.perspective old = Config.perspective new
  ∧ Config.analysis old = Config.analysis new
  ∧ Config.year old = Config.year new
  ∧ Config.location old = Config.location new
  ∧ IndustryList.needsCalculation (IndustryList.this st) (Some old) (Some new)
    = true
  ∧ IndustryList.calls st'
    = (IndustryList.calls st
       ++ [IndustryList.GetMatrix "D"; IndustryList.GetIndicators;
           IndustryList.GetSectors; IndustryList.GetIndicators;
           IndustryList.Render])%list
  ∧ Exists (λ c, IndustryList.recalculates c = true)
      (drop (length (IndustryList.calls st)) (IndustryList.calls st')).
Proof.
  repeat split; try reflexivity.
  apply Exists_cons_hd. reflexivity.
Qed.


(** ** Properties of the export *)

Section Download.

Import IndustryList.

Lemma string_app_cons (x : ascii) (a b : string) :
  String x a +:+ b = String x (a +:+ b).
Proof. reflexivity. Qed.

Lemma string_app_nil_l (a : string) : "" +:+ a = a.
Proof. reflexivity. Qed.

Lemma string_app_assoc (a b c : string) : (a +:+ b) +:+ c = a +:+ b +:+ c.
Proof.
  induction a as [|x a IH]; [reflexivity|].
  rewrite !string_app_cons. now f_equal.
Qed.

Lemma quote_state_app (q : bool) (a b : string) :
  quote_state q (a +:+ b) = quote_state (quote_state q a) b.
Proof.
  revert q. induction a as [|x a IH]; intros q; [reflexivity|].
  rewrite string_app_cons. simpl. apply IH.
Qed.

Lemma separators_app (q : bool) (a b : string) :
  separators q (a +:+ b)
  = (separators q a + separators (quote_state q a) b)%nat.
Proof.
  revert q. induction a as [|x a IH]; intros q; [reflexivity|].
  rewrite string_app_cons. simpl.
  destruct (Ascii.eqb x dquote); [apply IH|].
  destruct (Ascii.eqb x comma && negb q); rewrite IH; reflexivity.
Qed.

(** Inside of double quotes a text without double quotes has no
    separator and stays inside. *)
Lemma no_dquote_inside (s : string) :
  no_dquote s = true → separators true s = 0%nat ∧ quote_state true s = true.
Proof.
  induction s as [|x s IH]; simpl; [now split|].
  intros [Hx Hs]%andb_true_iff. apply negb_true_iff in Hx. rewrite Hx.
  rewrite andb_false_r. now apply IH.
Qed.

Lemma no_dquote_app (a b : string) :
  no_dquote (a +:+ b) = no_dquote a && no_dquote b.
Proof.
  induction a as [|x a IH]; [reflexivity|].
  rewrite string_app_cons. simpl. now rewrite IH, andb_assoc.
Qed.

Lemma closed_quoted (s : string) : no_dquote s = true → closed (quoted s).
Proof.
  intros Hs. destruct (no_dquote_inside s Hs) as [Hsep Hstate].
  unfold closed, quoted. simpl.
  rewrite separators_app, quote_state_app, Hsep, Hstate. now split.
Qed.

Lemma digits_closed (q : bool) (d : Decimal.uint) :
  separators q (NilEmpty.string_of_uint d) = 0%nat
  ∧ quote_state q (NilEmpty.string_of_uint d) = q.
Proof. induction d; simpl; (now split) || exact IHd. Qed.

Lemma closed_Z_to_string (z : Z) : closed (Z_to_string z).
Proof.
  unfold closed, Z_to_string, NilZero.string_of_int, NilZero.string_of_uint.
  destruct (Z.to_int z) as [d|d]; destruct d; simpl;
    try (now split); apply digits_closed.
Qed.

Lemma string_app_nil_r (a : string) : a +:+ "" = a.
Proof.
  induction a as [|x a IH]; [reflexivity|].
  rewrite string_app_cons. now f_equal.
Qed.

(** Fields that follow other fields, each behind its comma. *)
Local Abbreviation glue cells := (foldr (λ x acc, "," +:+ x +:+ acc) "" cells).

Lemma concat_cons (c : string) (cells : list string) :
  String.concat "," (c :: cells) = c +:+ glue cells.
Proof.
  revert c. induction cells as [|d cells IH]; intros c.
  - simpl. now rewrite string_app_nil_r.
  - change (String.concat "," (c :: d :: cells))
      with (c +:+ "," +:+ String.concat "," (d :: cells)).
    now rewrite IH.
Qed.

Lemma glue_app (xs ys : list string) :
  glue (xs ++ ys)%list = glue xs +:+ glue ys.
Proof.
  induction xs as [|x xs IH]; simpl; [reflexivity|].
  rewrite IH. now rewrite !string_app_assoc.
Qed.

Lemma foldl_glue {X} (f : X → string) (text : string) (xs : list X) :
  foldl (λ text i, text +:+ "," +:+ f i) text xs = text +:+ glue (f <$> xs).
Proof.
  revert text. induction xs as [|x xs IH]; intros text; simpl.
  - now rewrite string_app_nil_r.
  - rewrite IH. now rewrite !string_app_assoc.
Qed.

Lemma glue_closed (cells : list string) :
  Forall closed cells →
  separators false (glue cells) = length cells
  ∧ quote_state false (glue cells) = false.
Proof.
  induction 1 as [|c cells [Hsep Hstate] _ [IHsep IHstate]]; simpl;
    [now split|].
  rewrite !string_app_nil_l.
  rewrite separators_app, quote_state_app, Hsep, Hstate, IHsep, IHstate.
  now split.
Qed.

(** A line of closed fields has as many columns as fields. *)
Lemma csv_columns_concat (c : string) (cells : list string) :
  Forall closed (c :: cells) →
  csv_columns (String.concat "," (c :: cells)) = length (c :: cells).
Proof.
  intros Hclosed. apply Forall_cons in Hclosed as [[Hsep Hstate] Hcells].
  destruct (glue_closed cells Hcells) as [Hglue _].
  unfold csv_columns. rewrite concat_cons, separators_app.
  rewrite Hsep, Hstate, Hglue. reflexivity.
Qed.

Lemma csv_header_cells (w : t) :
  csv_header w = String.concat "," (header_cells w).
Proof.
  unfold csv_header, header_cells. rewrite concat_cons.
  destruct (demand w), (result w), (indicators w); simpl;
    rewrite ?foldl_glue, ?glue_app; simpl;
    rewrite ?string_app_assoc; reflexivity.
Qed.

Lemma csv_line_cells (w : t) (row : Row) :
  csv_line w row = String.concat "," (line_cells w row).
Proof.
  unfold csv_line, line_cells. rewrite concat_cons. destruct row as [s rank].
  destruct (demand w), (result w), (indicators w); simpl;
    rewrite ?foldl_glue, ?glue_app; simpl;
    rewrite ?string_app_assoc, ?string_app_nil_r; reflexivity.
Qed.

Lemma header_cells_length (w : t) :
  length (header_cells w) = exported_columns w.
Proof.
  unfold header_cells, exported_columns.
  destruct (demand w), (result w), (indicators w); simpl;
    rewrite ?length_app, ?length_fmap; simpl; lia.
Qed.

Lemma line_cells_length (w : t) (row : Row) :
  length (line_cells w row) = exported_columns w.
Proof.
  unfold line_cells, exported_columns.
  destruct (demand w), (result w), (indicators w); simpl;
    rewrite ?length_app, ?length_fmap; simpl; lia.
Qed.

Lemma closed_plain (cell : string) :
  separators false cell = 0%nat → no_dquote cell = true → closed cell.
Proof.
  intros Hsep Hplain. split; [exact Hsep|].
  clear Hsep. induction cell as [|x cell IH]; simpl in *; [reflexivity|].
  apply andb_true_iff in Hplain as [Hx Hcell].
  apply negb_true_iff in Hx. rewrite Hx. now apply IH.
Qed.

Lemma header_cells_closed (w : t) :
  Forall (λ i, plain_indicator i = true) (default [] (indicators w)) →
  Forall closed (header_cells w).
Proof.
  intros Hplain. unfold header_cells.
  repeat (constructor; [now split|]).
  apply Forall_app. split.
  - destruct (demand w); repeat constructor.
  - destruct (result w), (indicators w) as [inds|]; try constructor.
    simpl in Hplain. apply Forall_app. split; [|repeat constructor].
    apply Forall_fmap. eapply Forall_impl; [exact Hplain|].
    intros i Hi. simpl. apply closed_quoted.
    unfold plain_indicator in Hi.
    apply andb_true_iff in Hi as [[Hcode Hname]%andb_true_iff Hunit].
    unfold indicator_label.
    now rewrite !no_dquote_app, Hcode, Hname, Hunit.
Qed.

Lemma line_cells_closed (w : t) (row : Row) :
  plain_sector row.1 = true → Forall closed (line_cells w row).
Proof.
  intros [Hcode Hname]%andb_true_iff. unfold line_cells.
  constructor; [now apply closed_quoted|].
  constructor; [now apply closed_quoted|].
  apply Forall_app. split.
  - destruct (demand w) as [d|]; [|constructor].
    constructor; [|constructor].
    destruct (d !! _); [apply closed_Z_to_string|now split].
  - destruct (result w), (indicators w) as [inds|]; try constructor.
    apply Forall_app. split.
    + apply Forall_fmap, Forall_forall. intros i _. apply closed_Z_to_string.
    + constructor; [apply closed_Z_to_string|constructor].
Qed.

End Download.

(** C4, as the export is written: when the codes, names and units of the
    indicators and the code and name of a sector have no double quote, the
    first line and the line of a row consist of the columns sector code,
    sector name, demand (when there are demand values), one column per
    indicator and ranking (both when there is a result), in this order;
    their number is 2 + (1 with demand values) + (the number of
    indicators + 1 with a result). *)
Theorem csv_export_columns (w : IndustryList.t) :
  Forall (λ i, IndustryList.plain_indicator i = true)
    (default [] (IndustryList.indicators w)) →
  (IndustryList.csv_header w
     = String.concat "," (IndustryList.header_cells w)
   ∧ IndustryList.csv_columns (IndustryList.csv_header w)
     = IndustryList.exported_columns w)
  ∧ ∀ row : Row,
      IndustryList.plain_sector row.1 = true →
      IndustryList.csv_line w row
        = String.concat "," (IndustryList.line_cells w row)
      ∧ IndustryList.csv_columns (IndustryList.csv_line w row)
        = IndustryList.exported_columns w.
Proof.
  intros Hplain. split.
  - split; [apply csv_header_cells|].
    rewrite csv_header_cells, <- header_cells_length.
    pose proof (header_cells_closed w Hplain) as Hclosed.
    unfold IndustryList.header_cells in *.
    now apply csv_columns_concat.
  - intros row Hrow. split; [apply csv_line_cells|].
    rewrite csv_line_cells, <- (line_cells_length w row).
    pose proof (line_cells_closed w row Hrow) as Hclosed.
    unfold IndustryList.line_cells in *.
    now apply csv_columns_concat.
Qed.

Lemma csv_export_columns_witness :
  let w := IndustryList.this Samples.heatmap in
  IndustryList.csv_columns (IndustryList.csv_header w) = 4%nat
  ∧ IndustryList.csv_columns (IndustryList.csv_line w (Samples.apple, 3))
    = 4%nat.
Proof.
  intros w.
  destruct (csv_export_columns w) as [[_ Hheader] Hline].
  { repeat constructor. }
  destruct (Hline (Samples.apple, 3) eq_refl) as [_ Happle].
  split; [exact Hheader|exact Happle].
Defined.

(** The export of a widget that keeps its result while it shows no
    indicators has a ranking column, one column more than
    2 + (1 with demand values) + indicatorCount + (1 with indicators). *)
Lemma csv_expected_columns_counterexample :
  let w := IndustryList.this Samples.ranked in
  IndustryList.result w = Some Samples.scores
  ∧ IndustryList.demand w = None
  ∧ IndustryList.indicators w = Some []
  ∧ IndustryList.csv_header w = "sector code,sector name,ranking"
  ∧ IndustryList.csv_columns (IndustryList.csv_header w) = 3%nat
  ∧ IndustryList.expected_columns w = 2%nat
  ∧ IndustryList.csv_columns (IndustryList.csv_header w)
    ≠ IndustryList.expected_columns w.
Proof. repeat split; try reflexivity. discriminate. Qed.

(** The text of the download consists of the first line and the lines of
    the exported ranking, each with its line break. *)
Lemma onDownload_CSV_lines (w : IndustryList.t) (ranking : list Row) :
  IndustryList.download_ranking w = Some ranking →
  IndustryList.onDownload_CSV w =
    Some (foldr (λ line text, line +:+ String newline "" +:+ text) ""
            (IndustryList.csv_header w :: (IndustryList.csv_line w <$> ranking))).
Proof.
  intros Hranking. unfold IndustryList.onDownload_CSV. rewrite Hranking.
  simpl. f_equal.
  assert (∀ text,
            foldl (λ text row,
                text +:+ IndustryList.csv_line w row +:+ String newline "")
              text ranking
            = text +:+
              foldr (λ line text, line +:+ String newline "" +:+ text) ""
                (IndustryList.csv_line w <$> ranking)) as Hlines.
  { clear Hranking.
    induction ranking as [|row rows IH]; intros text; simpl.
    - now rewrite string_app_nil_r.
    - rewrite IH. now rewrite !string_app_assoc. }
  rewrite Hlines. now rewrite string_app_assoc.
Qed.

(** ** Properties of the numbers and their texts *)

Section Numbers.

Lemma read_digits_uint (d : Decimal.uint) (acc : option Z) :
  read_digits 10 acc (NilEmpty.string_of_uint d)
  = match d with
    | Decimal.Nil => acc
    | _ => Some (uint_value d (default 0 acc))
    end.
Proof.
  revert acc. induction d as [|d IH|d IH|d IH|d IH|d IH|d IH|d IH|d IH|d IH|d IH];
    intros acc; [reflexivity|..];
    cbn [NilEmpty.string_of_uint read_digits];
    match goal with
    | |- context [digit_value 10 ?c] =>
        let v := eval vm_compute in (digit_value 10 c) in
        change (digit_value 10 c) with v
    end;
    cbv iota; rewrite IH; destruct d, acc; simpl; rewrite ?Z.add_0_r;
    reflexivity.
Qed.

Lemma uint_value_acc (d : Decimal.uint) (p : positive) :
  Z.pos (Pos.of_uint_acc d p) = uint_value d (Z.pos p).
Proof.
  revert p. induction d; intros p; simpl; [reflexivity|..];
    rewrite IHd; f_equal; lia.
Qed.

Lemma uint_value_of_uint (d : Decimal.uint) : Z.of_uint d = uint_value d 0.
Proof.
  unfold Z.of_uint. induction d; simpl; [reflexivity|exact IHd|..];
    rewrite uint_value_acc; reflexivity.
Qed.

End Numbers.

Lemma trim_start_keep (c : ascii) (s : string) :
  is_space c = false → space_lead c = false →
  trim_start (String c s) = String c s.
Proof.
  intros Hc Hlead. unfold trim_start; fold trim_start. rewrite Hc.
  unfold no_break_space, wide_space. rewrite Hlead.
  now destruct s as [|c2 [|c3 s]].
Qed.

(** The integer of digits that were printed. *)
Ltac parse_digits :=
  unfold read_integer; cbn [NilEmpty.string_of_uint];
  rewrite trim_start_keep by reflexivity;
  cbv beta iota zeta;
  match goal with
  | |- context [uint_value ?d 0] =>
      let H := fresh in
      pose proof (read_digits_uint d None) as H;
      cbn [NilEmpty.string_of_uint] in H; cbv iota in H;
      rewrite H
  end;
  change (default 0 (@None Z)) with 0; do 2 f_equal; lia.

Lemma read_integer_string_of_int (i : Decimal.signed_int) :
  read_integer (NilZero.string_of_int i) = Some (10, Z.of_int i).
Proof.
  unfold Z.of_int.
  destruct i as [d|d]; rewrite uint_value_of_uint;
    unfold NilZero.string_of_int, NilZero.string_of_uint.
  - destruct d as [|d|d|d|d|d|d|d|d|d|d]; [reflexivity| |parse_digits..].
    destruct d; [reflexivity|parse_digits..].
  - destruct d as [|d|d|d|d|d|d|d|d|d|d]; [reflexivity| |parse_digits..].
    destruct d; [reflexivity|parse_digits..].
Qed.

(** The text of an integer is read as the integer in base 10. *)
Lemma read_integer_Z_to_string (z : Z) :
  read_integer (Z_to_string z) = Some (10, z).
Proof.
  unfold Z_to_string. rewrite read_integer_string_of_int.
  do 2 f_equal. apply DecimalZ.of_to.
Qed.

Lemma no_colon_digits (d : Decimal.uint) :
  CommodityList.no_colon (NilEmpty.string_of_uint d) = true.
Proof. induction d; simpl; [reflexivity|exact IHd..]. Qed.

Lemma no_colon_Z_to_string (z : Z) :
  CommodityList.no_colon (Z_to_string z) = true.
Proof.
  unfold Z_to_string, NilZero.string_of_int, NilZero.string_of_uint.
  destruct (Z.to_int z) as [d|d]; destruct d; simpl;
    try reflexivity; apply no_colon_digits.
Qed.

(** ** Properties of the selection of commodities *)

Section Selection.

Import CommodityList.

Context `{Engine}.

Lemma split_cons (c : ascii) (s : string) :
  split colon (String c s) =
    if Ascii.eqb c colon then "" :: split colon s
    else match split colon s with
         | [] => [String c ""]
         | p :: ps => String c p :: ps
         end.
Proof. reflexivity. Qed.

Lemma split_no_colon (s : string) :
  no_colon s = true → split colon s = [s].
Proof.
  induction s as [|c s IH]; [reflexivity|].
  simpl no_colon. intros [Hc Hs]%andb_true_iff. apply negb_true_iff in Hc.
  rewrite split_cons, Hc, (IH Hs). reflexivity.
Qed.

Lemma split_entry (k v : string) :
  no_colon k = true → split colon (k +:+ ":" +:+ v) = k :: split colon v.
Proof.
  induction k as [|c k IH]; [reflexivity|].
  simpl no_colon. intros [Hc Hk]%andb_true_iff. apply negb_true_iff in Hc.
  change (String c k +:+ ":" +:+ v) with (String c (k +:+ ":" +:+ v)).
  rewrite split_cons, Hc, (IH Hk). reflexivity.
Qed.

Lemma entry_key_plain (s : string) : no_colon (entry_key s) = true.
Proof.
  unfold entry_key. induction s as [|c s IH]; [reflexivity|].
  rewrite split_cons. destruct (Ascii.eqb c colon) eqn:Hc; [reflexivity|].
  destruct (split colon s) as [|p ps]; simpl in *; now rewrite Hc.
Qed.

Lemma split_nonempty (s : string) : (0 < length (split colon s))%nat.
Proof.
  induction s as [|c s IH]; [simpl; lia|].
  rewrite split_cons. destruct (Ascii.eqb c colon); [simpl; lia|].
  destruct (split colon s); simpl in *; lia.
Qed.

Lemma split_short (s : string) :
  (length (split colon s) < 2)%nat → no_colon s = true.
Proof.
  induction s as [|c s IH]; [reflexivity|].
  rewrite split_cons. simpl no_colon.
  pose proof (split_nonempty s) as Hne.
  destruct (Ascii.eqb c colon) eqn:Hc; simpl; [lia|].
  destruct (split colon s) as [|p ps]; simpl in *; [lia|].
  intros Hlen. apply IH. lia.
Qed.

(** *** The properties of a plain object *)

Lemma TMap_lookup_empty (k : string) : (∅ : TMap) !! k = None.
Proof. reflexivity. Qed.

Lemma TMap_lookup_insert_eq (m : TMap) (k : string) (v : number) :
  <[k := v]> m !! k = Some v.
Proof.
  unfold lookup, TMap_lookup, insert, TMap_insert.
  induction m as [|[k' v'] m IH]; simpl.
  - now rewrite String.eqb_refl.
  - destruct (String.eqb k' k) eqn:E; simpl; rewrite E; [reflexivity|exact IH].
Qed.

Lemma TMap_lookup_insert_ne (m : TMap) (k k' : string) (v : number) :
  k ≠ k' → <[k := v]> m !! k' = m !! k'.
Proof.
  intros Hne. unfold lookup, TMap_lookup, insert, TMap_insert.
  induction m as [|[k0 v0] m IH]; simpl.
  - destruct (String.eqb_spec k k'); [contradiction|reflexivity].
  - destruct (String.eqb_spec k0 k) as [->|Hk0]; simpl.
    + destruct (String.eqb_spec k k'); [contradiction|reflexivity].
    + destruct (String.eqb k0 k'); [reflexivity|exact IH].
Qed.

Lemma TMap_lookup_delete_Some (m : TMap) (k k' : string) (v : number) :
  delete k m !! k' = Some v ↔ k ≠ k' ∧ m !! k' = Some v.
Proof.
  unfold lookup, TMap_lookup, delete, TMap_delete.
  induction m as [|[k0 v0] m IH]; simpl.
  - split; [discriminate|intros [_ ?]; discriminate].
  - destruct (String.eqb_spec k0 k) as [->|Hk0]; simpl.
    + rewrite IH. destruct (String.eqb_spec k k'); [|reflexivity].
      split; intros [? ?]; contradiction.
    + destruct (String.eqb_spec k0 k') as [->|Hk']; [|exact IH].
      split; [intros ->; split; [congruence|reflexivity]|now intros [_ ?]].
Qed.

Lemma TMap_lookup_delete_eq (m : TMap) (k : string) :
  delete k m !! k = None.
Proof.
  destruct (delete k m !! k) as [v|] eqn:Hv; [|reflexivity].
  now apply TMap_lookup_delete_Some in Hv as [? _].
Qed.

Lemma TMap_lookup_delete_ne (m : TMap) (k k' : string) :
  k ≠ k' → delete k m !! k' = m !! k'.
Proof.
  intros Hne. destruct (m !! k') as [v|] eqn:Hv.
  - now apply TMap_lookup_delete_Some.
  - destruct (delete k m !! k') as [v|] eqn:Hd; [|reflexivity].
    apply TMap_lookup_delete_Some in Hd as [_ Hd]. congruence.
Qed.

Lemma TMap_elem_keys (m : TMap) (k : string) :
  k ∈ m.*1 ↔ is_Some (m !! k).
Proof.
  unfold lookup, TMap_lookup.
  induction m as [|[k0 v0] m IH]; simpl.
  - rewrite elem_of_nil. split; [tauto|intros [? ?]; discriminate].
  - rewrite elem_of_cons, IH.
    destruct (String.eqb_spec k0 k) as [->|Hne];
      split; eauto; intros [?|?]; [congruence|assumption].
Qed.

Lemma TMap_keys_insert (m : TMap) (k : string) (v : number) :
  NoDup m.*1 → NoDup (<[k := v]> m).*1.
Proof.
  induction m as [|[k0 v0] m IH]; intros Hm.
  - repeat constructor. apply not_elem_of_nil.
  - apply NoDup_cons in Hm as [Hk0 Hm].
    unfold insert, TMap_insert. simpl.
    destruct (String.eqb_spec k0 k) as [->|Hne]; simpl.
    + now constructor.
    + constructor; [|now apply IH].
      change (TMap_set k v m) with (<[k := v]> m).
      rewrite TMap_elem_keys, TMap_lookup_insert_ne by congruence.
      now rewrite <- TMap_elem_keys.
Qed.

Lemma TMap_keys_delete (m : TMap) (k : string) :
  NoDup m.*1 → NoDup (delete k m).*1.
Proof.
  induction m as [|[k0 v0] m IH]; intros Hm; [constructor|].
  apply NoDup_cons in Hm as [Hk0 Hm].
  unfold delete, TMap_delete. simpl.
  destruct (String.eqb_spec k0 k) as [->|Hne]; simpl; [now apply IH|].
  constructor; [|now apply IH].
  change (TMap_remove k m) with (delete k m).
  rewrite TMap_elem_keys. intros [v Hv].
  apply TMap_lookup_delete_Some in Hv as [_ Hv].
  apply Hk0, TMap_elem_keys. eauto.
Qed.

(** The keys that are enumerated are the keys of the object. *)
Lemma Object_keys_perm (m : TMap) : Object_keys m ≡ₚ m.*1.
Proof.
  unfold Object_keys. rewrite sort_by_perm.
  - apply filter_app_complement.
  - intros x y. unfold before. lia.
  - intros x y z. unfold before. lia.
Qed.

Lemma Object_keys_elem (m : TMap) (k : string) :
  k ∈ Object_keys m ↔ is_Some (m !! k).
Proof. now rewrite Object_keys_perm, TMap_elem_keys. Qed.

(** *** The selection *)

(** An entry is stored under its sector code with its factor. *)
Lemma select_insert (m : TMap) (e : string) :
  select m e = <[entry_key e := entry_factor e]> m.
Proof.
  unfold select, entry_factor, entry_key.
  destruct (Nat.ltb_spec (length (split colon e)) 2) as [Hshort|_];
    [|reflexivity].
  now rewrite (split_no_colon e (split_short e Hshort)).
Qed.

Lemma selection_entries (config : Config.t) :
  selection config = foldl select ∅ (entries config).
Proof. unfold selection, entries. now destruct (Config.sectors config). Qed.

(** The selection has no sector code twice. *)
Lemma selection_keys (config : Config.t) : NoDup (selection config).*1.
Proof.
  rewrite selection_entries.
  assert (∀ m : TMap, NoDup m.*1 → NoDup (foldl select m (entries config)).*1)
    as Hfold.
  { induction (entries config) as [|e es IH]; intros m Hm; [exact Hm|].
    simpl. apply IH. rewrite select_insert. now apply TMap_keys_insert. }
  apply Hfold. constructor.
Qed.

(** What holds for the factor of every entry holds for every factor of
    the selection. *)
Lemma selection_factors (P : string → number → Prop) (config : Config.t) :
  Forall (λ e, P (entry_key e) (entry_factor e)) (entries config) →
  ∀ k v, selection config !! k = Some v → P k v.
Proof.
  rewrite selection_entries. intros Hentries.
  assert (∀ m : TMap,
            (∀ k v, m !! k = Some v → P k v) →
            ∀ k v, foldl select m (entries config) !! k = Some v → P k v)
    as Hfold.
  { induction Hentries as [|e es He _ IH]; intros m Hm; [exact Hm|].
    simpl. apply IH. intros k v. rewrite select_insert.
    destruct (decide (entry_key e = k)) as [<-|Hne].
    - rewrite TMap_lookup_insert_eq. intros [= <-]. exact He.
    - rewrite TMap_lookup_insert_ne by exact Hne. apply Hm. }
  apply Hfold. intros k v. discriminate.
Qed.

Lemma selection_keys_plain (config : Config.t) (k : string) (v : number) :
  selection config !! k = Some v → no_colon k = true.
Proof.
  apply (selection_factors (λ k _, no_colon k = true)).
  apply Forall_forall. intros e _. apply entry_key_plain.
Qed.

(** The last entry of a sector code determines its factor. *)
Lemma selection_last (config : Config.t) (l1 l2 : list string) (e : string) :
  entries config = (l1 ++ e :: l2)%list →
  Forall (λ e', entry_key e' ≠ entry_key e) l2 →
  selection config !! entry_key e = Some (entry_factor e).
Proof.
  intros Hentries Hlater. rewrite selection_entries, Hentries.
  rewrite foldl_app. simpl. generalize (foldl select ∅ l1). intros m.
  assert (∀ m : TMap,
            foldl select m l2 !! entry_key e = m !! entry_key e) as Hkeep.
  { clear m Hentries.
    induction Hlater as [|e' es He' _ IH]; intros m; [reflexivity|].
    simpl. rewrite IH, select_insert. now apply TMap_lookup_insert_ne. }
  rewrite Hkeep, select_insert. apply TMap_lookup_insert_eq.
Qed.

(** The commodities are the sectors with the state of their codes in
    the selection. *)
Lemma commodities_elem (config : Config.t) (sectors : list Sector.t)
    (c : Commodity.t) :
  c ∈ commodities config sectors →
  Commodity.selected c
    = bool_decide (is_Some (selection config !! Commodity.code c))
  ∧ Commodity.value c
    = default (Num 100) (selection config !! Commodity.code c).
Proof.
  unfold commodities. intros (s & -> & _)%list_elem_of_fmap. now split.
Qed.

(** The entries of the emitted sector list are the entries of the
    selection with a sector code that is not empty. *)
Lemma entry_emitted (sel : TMap) (k : string) (v : number) :
  sel !! k = Some v → k ≠ "" →
  (k +:+ ":" +:+ number_to_string v) ∈ omap (entry sel) (Object_keys sel).
Proof.
  intros Hk Hne. apply list_elem_of_omap. exists k. split.
  - apply Object_keys_elem. eauto.
  - unfold entry. rewrite Hk. now destruct k.
Qed.

Lemma emitted_entry (sel : TMap) (e : string) :
  e ∈ omap (entry sel) (Object_keys sel) →
  ∃ k v, sel !! k = Some v ∧ k ≠ ""
         ∧ e = k +:+ ":" +:+ number_to_string v.
Proof.
  intros (k & [v Hk]%Object_keys_elem & He)%list_elem_of_omap.
  exists k, v. split; [exact Hk|].
  unfold entry in He. rewrite Hk in He.
  destruct k; [discriminate|]. split; [discriminate|].
  cbn in He. now injection He as <-.
Qed.

(** *** The factors that are printed and read again *)

(** The text of a safe integer or of [NaN] is read as the number. *)
Lemma parseInt_exact (v : number) :
  exact v → parseInt (number_to_string v) = v.
Proof.
  destruct v as [z|]; [|reflexivity]. simpl. intros Hsafe.
  unfold parseInt. now rewrite Hsafe, read_integer_Z_to_string, Hsafe.
Qed.

Lemma no_colon_exact (v : number) :
  exact v → no_colon (number_to_string v) = true.
Proof.
  destruct v as [z|]; [|reflexivity]. simpl. intros ->.
  apply no_colon_Z_to_string.
Qed.

(** An entry of a fired sector list has the sector code that it was
    written from, and the factor when the factor is printed and read as
    it is. *)
Lemma entry_parses (k : string) (v : number) :
  no_colon k = true →
  entry_key (k +:+ ":" +:+ number_to_string v) = k
  ∧ (exact v → entry_factor (k +:+ ":" +:+ number_to_string v) = v).
Proof.
  intros Hk. unfold entry_key, entry_factor.
  rewrite (split_entry k _ Hk). split; [reflexivity|]. intros Hv.
  rewrite (split_no_colon _ (no_colon_exact v Hv)). simpl.
  now apply parseInt_exact.
Qed.

(** C8, as the commodities are derived: the commodity list depends only on
    the sector selection of the configuration and on the sector list. A
    commodity is selected when the sector list has an entry of its code,
    and its value is then the factor that is parsed from the last such
    entry: the integer behind the colon for the digits of a safe integer,
    100 for an entry without a factor. The value is 100 for a sector that
    is not selected, and a sector without an entry is not selected. The
    value lies between 0 and 500 when the factor of every entry of the
    sector selection does. *)
Theorem commodities_values (config : Config.t) (sectors : list Sector.t) :
  (∀ config',
     Config.sectors config' = Config.sectors config →
     commodities config' sectors = commodities config sectors)
  ∧ ∀ c : Commodity.t,
      c ∈ commodities config sectors →
      (Forall (λ e, in_range (entry_factor e)) (entries config) →
       in_range (Commodity.value c))
      ∧ (Commodity.selected c = false → Commodity.value c = Num 100)
      ∧ (∀ l1 l2 : list string,
           entries config = (l1 ++ Commodity.code c :: l2)%list →
           no_colon (Commodity.code c) = true →
           Forall (λ e, entry_key e ≠ Commodity.code c) l2 →
           Commodity.selected c = true ∧ Commodity.value c = Num 100)
      ∧ (∀ (l1 l2 : list string) (e : string),
           entries config = (l1 ++ e :: l2)%list →
           entry_key e = Commodity.code c →
           Forall (λ e', entry_key e' ≠ Commodity.code c) l2 →
           Commodity.selected c = true
           ∧ Commodity.value c = entry_factor e)
      ∧ (∀ (l1 l2 : list string) (z : Z),
           entries config
           = (l1 ++ (Commodity.code c +:+ ":" +:+ Z_to_string z) :: l2)%list →
           no_colon (Commodity.code c) = true →
           safe z = true →
           Forall (λ e', entry_key e' ≠ Commodity.code c) l2 →
           Commodity.selected c = true ∧ Commodity.value c = Num z)
      ∧ (Forall (λ e, entry_key e ≠ Commodity.code c) (entries config) →
         Commodity.selected c = false).
Proof.
  split.
  - intros config' Hsame. unfold commodities, selection. now rewrite Hsame.
  - intros c [Hselected Hvalue]%commodities_elem.
    rewrite Hselected, Hvalue. clear Hselected Hvalue.
    assert (∀ (l1 l2 : list string) (e : string),
              entries config = (l1 ++ e :: l2)%list →
              entry_key e = Commodity.code c →
              Forall (λ e', entry_key e' ≠ Commodity.code c) l2 →
              selection config !! Commodity.code c = Some (entry_factor e))
      as Hlast.
    { intros l1 l2 e Hentries <- Hlater. now apply (selection_last _ l1 l2). }
    split; [|split; [|split; [|split; [|split]]]].
    + intros Hentries.
      destruct (selection config !! Commodity.code c) as [v|] eqn:Hv; simpl.
      * apply (selection_factors (λ _ v, in_range v) config) in Hv;
          [exact Hv|exact Hentries].
      * unfold Slider_min, Slider_max. lia.
    + intros Hnone. apply bool_decide_eq_false in Hnone.
      destruct (selection config !! Commodity.code c); [|reflexivity].
      exfalso. apply Hnone. eauto.
    + intros l1 l2 Hentries Hplain Hlater.
      rewrite (Hlast l1 l2 (Commodity.code c) Hentries); [| |exact Hlater].
      * unfold entry_factor. rewrite split_no_colon by exact Hplain.
        split; [|reflexivity]. apply bool_decide_eq_true. eauto.
      * unfold entry_key. now rewrite split_no_colon.
    + intros l1 l2 e Hentries Hkey Hlater.
      rewrite (Hlast l1 l2 e Hentries Hkey Hlater).
      split; [|reflexivity]. apply bool_decide_eq_true. eauto.
    + intros l1 l2 z Hentries Hplain Hsafe Hlater.
      assert (number_to_string (Num z) = Z_to_string z) as Htext
        by (simpl; now rewrite Hsafe).
      destruct (entry_parses (Commodity.code c) (Num z) Hplain)
        as [Hkey Hfactor].
      rewrite Htext in Hkey, Hfactor.
      rewrite (Hlast l1 l2 _ Hentries Hkey Hlater), (Hfactor Hsafe).
      split; [|reflexivity]. apply bool_decide_eq_true. eauto.
    + intros Hentries. apply bool_decide_eq_false. intros [v Hv].
      now apply (selection_factors (λ k _, k ≠ Commodity.code c) config
                   Hentries) in Hv.
Qed.

(** C6, as the selection is fired: a click on the check box of a commodity
    that is not selected and whose code is not empty fires a configuration
    change whose sector list has the entry of the code with the factor 100
    and the entry of every selected code that is not empty with its factor;
    a click on the check box of a selected commodity fires a configuration
    change whose sector list has no entry of its code and still the entries
    of the other selected codes. *)
Theorem onClick_toggles (config : Config.t) (sectors : list Sector.t)
    (c : Commodity.t) :
  c ∈ commodities config sectors →
  (Commodity.selected c = false → Commodity.code c ≠ "" →
   ∃ l,
     onClick config c = [Config.set_sectors (Def l) Config.empty]
     ∧ (Commodity.code c +:+ ":100") ∈ l
     ∧ ∀ k v, selection config !! k = Some v → k ≠ "" →
         (k +:+ ":" +:+ number_to_string v) ∈ l)
  ∧ (Commodity.selected c = true →
     ∃ l,
       onClick config c = [Config.set_sectors (Def l) Config.empty]
       ∧ (∀ e, e ∈ l → entry_key e ≠ Commodity.code c)
       ∧ ∀ k v, selection config !! k = Some v → k ≠ "" →
           k ≠ Commodity.code c →
           (k +:+ ":" +:+ number_to_string v) ∈ l).
Proof.
  intros [Hselected _]%commodities_elem. unfold onClick. split.
  - intros Hfalse Hcode. rewrite Hfalse. rewrite Hfalse in Hselected.
    symmetry in Hselected. apply bool_decide_eq_false in Hselected.
    eexists. split; [reflexivity|]. split.
    + apply (entry_emitted _ (Commodity.code c) (Num 100));
        [apply TMap_lookup_insert_eq|exact Hcode].
    + intros k v Hk Hne. apply entry_emitted; [|exact Hne].
      rewrite TMap_lookup_insert_ne; [exact Hk|].
      intros <-. apply Hselected. eauto.
  - intros Htrue. rewrite Htrue.
    eexists. split; [reflexivity|]. split.
    + intros e (k & v & Hk & _ & ->)%emitted_entry.
      apply TMap_lookup_delete_Some in Hk as [Hne Hk].
      unfold entry_key.
      rewrite (split_entry k _ (selection_keys_plain config k v Hk)).
      simpl. congruence.
    + intros k v Hk Hne Hother. apply entry_emitted; [|exact Hne].
      apply TMap_lookup_delete_Some. split; [congruence|exact Hk].
Qed.

End Selection.

Lemma commodities_values_witness :
  let engine := Samples.engine in
  let config := Samples.selecting ["A:250"; "B"] in
  let sectors := [Samples.apple; Samples.banana; Samples.cherry] in
  CommodityList.commodities config sectors
  = [Samples.commodity Samples.apple true (Num 250);
     Samples.commodity Samples.banana true (Num 100);
     Samples.commodity Samples.cherry false (Num 100)]
  ∧ (let c := Samples.commodity Samples.banana true (Num 100) in
     CommodityList.in_range (CommodityList.Commodity.value c)
     ∧ (CommodityList.Commodity.selected c = true
        ∧ CommodityList.Commodity.value c = Num 100))
  ∧ (let c := Samples.commodity Samples.apple true (Num 250) in
     CommodityList.Commodity.selected c = true
     ∧ CommodityList.Commodity.value c = Num 250).
Proof.
  intros engine config sectors. split; [reflexivity|]. split.
  - intros c.
    destruct (proj2 (commodities_values config sectors) c)
      as (Hrange & _ & Hbare & _).
    { apply list_elem_of_further, list_elem_of_here. }
    split.
    + apply Hrange. constructor; [|constructor; [|constructor]].
      * change (0 ≤ 250 ≤ 500). lia.
      * change (0 ≤ 100 ≤ 500). lia.
    + apply (Hbare ["A:250"] []); [reflexivity|reflexivity|constructor].
  - intros c.
    destruct (proj2 (commodities_values config sectors) c)
      as (_ & _ & _ & _ & Hparsed & _).
    { apply list_elem_of_here. }
    apply (Hparsed [] ["B"] 250); [reflexivity..|].
    repeat constructor. discriminate.
Defined.

(** A factor of the configuration beyond the maximum of the slider is the
    value of the commodity. *)
Lemma commodities_range_counterexample :
  let engine := Samples.engine in
  CommodityList.commodities (Samples.selecting ["A:900"]) [Samples.apple]
    = [Samples.commodity Samples.apple true (Num 900)]
  ∧ ¬ CommodityList.in_range (Num 900).
Proof.
  split; [reflexivity|].
  unfold CommodityList.in_range, CommodityList.Slider_min,
    CommodityList.Slider_max. lia.
Qed.

Lemma onClick_toggles_witness :
  let engine := Samples.engine in
  (∃ l,
     CommodityList.onClick (Samples.selecting ["B:50"])
       (Samples.commodity Samples.apple false (Num 100))
       = [Config.set_sectors (Def l) Config.empty]
     ∧ "A:100" ∈ l
     ∧ ∀ k v,
         CommodityList.selection (Samples.selecting ["B:50"]) !! k = Some v →
         k ≠ "" →
         (k +:+ ":" +:+ number_to_string v) ∈ l)
  ∧ (∃ l,
       CommodityList.onClick (Samples.selecting ["B:50"])
         (Samples.commodity Samples.banana true (Num 50))
         = [Config.set_sectors (Def l) Config.empty]
       ∧ (∀ e, e ∈ l → CommodityList.entry_key e ≠ "B")
       ∧ ∀ k v,
           CommodityList.selection (Samples.selecting ["B:50"]) !! k
           = Some v →
           k ≠ "" → k ≠ "B" → (k +:+ ":" +:+ number_to_string v) ∈ l).
Proof.
  intros engine. split.
  - apply (onClick_toggles (Samples.selecting ["B:50"])
             [Samples.apple; Samples.banana]
             (Samples.commodity Samples.apple false (Num 100))).
    + apply list_elem_of_here.
    + reflexivity.
    + discriminate.
  - apply (onClick_toggles (Samples.selecting ["B:50"])
             [Samples.apple; Samples.banana]
             (Samples.commodity Samples.banana true (Num 50))).
    + apply list_elem_of_further, list_elem_of_here.
    + reflexivity.
Defined.

(** A click on the check box of a commodity without a code fires a sector
    list without an entry for it. *)
Lemma onClick_empty_code_counterexample :
  let engine := Samples.engine in
  let c := Samples.commodity Samples.nameless false (Num 100) in
  CommodityList.commodities Config.empty [Samples.nameless] = [c]
  ∧ CommodityList.selection Config.empty
      !! CommodityList.Commodity.code c = None
  ∧ CommodityList.onClick Config.empty c
    = [Config.set_sectors (Def []) Config.empty]
  ∧ (CommodityList.Commodity.code c +:+ ":100") ∉ ([] : list string).
Proof.
  repeat split; try reflexivity. apply not_elem_of_nil.
Qed.


(** ** Further properties of the matrix selector *)

(** X1: the update of a configuration for a matrix changes the analysis type
    and the perspective only: the perspective becomes direct for D and RD
    and final for U and RU, the analysis type is cleared for D and U and,
    for RD and RU, kept when there is one and Consumption otherwise. *)
Theorem update_changes_matrix_fields (c : option Config.t)
    (m : MatrixSelector.Matrix) :
  let old := default Config.empty c in
  let new := MatrixSelector.update c (Some m) in
  (Config.sectors new = Config.sectors old
   ∧ Config.naics new = Config.naics old
   ∧ Config.indicators new = Config.indicators old
   ∧ Config.view new = Config.view old
   ∧ Config.year new = Config.year old
   ∧ Config.location new = Config.location old
   ∧ Config.count new = Config.count old
   ∧ Config.page new = Config.page old
   ∧ Config.showvalues new = Config.showvalues old
   ∧ Config.showdownload new = Config.showdownload old
   ∧ Config.showscientific new = Config.showscientific old
   ∧ Config.selectmatrix new = Config.selectmatrix old)
  ∧ Config.perspective new
    = Def (match m with
           | MatrixSelector.D | MatrixSelector.RD => "direct"
           | _ => "final"
           end)
  ∧ Config.analysis new
    = match m with
      | MatrixSelector.D | MatrixSelector.U => Null
      | _ => if truthy (Config.analysis old) then Config.analysis old
             else Def "Consumption"
      end.
Proof.
  intros old new. subst old new. destruct c as [c|]; simpl.
  - destruct m; simpl; try (repeat split; reflexivity);
      destruct (truthy (Config.analysis c)); simpl; repeat split; reflexivity.
  - destruct m; repeat split; reflexivity.
Qed.

(** X2: a second update for the same matrix changes nothing. *)
Theorem update_idempotent (c : option Config.t) (m : MatrixSelector.Matrix) :
  MatrixSelector.update (Some (MatrixSelector.update c (Some m))) (Some m)
  = MatrixSelector.update c (Some m).
Proof.
  unfold MatrixSelector.update.
  set (conf := match c with None => Config.empty | Some c0 => c0 end).
  destruct m; try reflexivity;
    destruct (truthy (Config.analysis conf)) eqn:E; simpl;
    rewrite ?E; reflexivity.
Qed.

(** X3: for a configuration with a perspective, the calculation of the
    industry list issues the requests of the matrix type that the
    selector shows for it, and nothing else changes. *)
Theorem calculate_matches_matrixOf (model : Model.t) (config : Config.t)
    (st : IndustryList.State) :
  truthy (Config.perspective config) = true →
  let st' := (IndustryList.calculate model config st).2 in
  IndustryList.this st' = IndustryList.this st
  ∧ IndustryList.calls st'
    = (IndustryList.calls st
       ++ IndustryList.requests_of model config
            (MatrixSelector.matrixOf (Some config)))%list.
Proof.
  intros Hpersp st'. subst st'.
  rewrite calculate_run. unfold MatrixSelector.matrixOf. rewrite Hpersp.
  cbn [snd negb IndustryList.this IndustryList.calls].
  split; [reflexivity|].
  destruct (truthy (Config.analysis config)); simpl;
    destruct (strict_eq String.eqb (Config.perspective config) (Def "direct"));
    reflexivity.
Qed.

Lemma calculate_matches_matrixOf_witness :
  let st' := (IndustryList.calculate Samples.model Samples.mosaic
                Samples.fresh).2 in
  IndustryList.this st' = IndustryList.this Samples.fresh
  ∧ IndustryList.calls st'
    = [IndustryList.GetMatrix "D"; IndustryList.GetIndicators;
       IndustryList.GetSectors].
Proof.
  apply (calculate_matches_matrixOf Samples.model Samples.mosaic Samples.fresh).
  reflexivity.
Defined.

(** X4: the calculation for the configuration of a selected matrix issues
    the requests of that matrix. *)
Theorem calculate_after_update (model : Model.t) (c : option Config.t)
    (m : MatrixSelector.Matrix) (st : IndustryList.State) :
  let config := MatrixSelector.update c (Some m) in
  IndustryList.calls (IndustryList.calculate model config st).2
  = (IndustryList.calls st ++ IndustryList.requests_of model config m)%list.
Proof.
  intros config. subst config. rewrite calculate_run.
  cbn [snd IndustryList.calls]. f_equal.
  unfold MatrixSelector.update.
  set (conf := match c with None => Config.empty | Some c0 => c0 end).
  destruct m; simpl; try reflexivity;
    destruct (truthy (Config.analysis conf)) eqn:E; simpl;
    rewrite ?E; reflexivity.
Qed.

(** ** Further properties of the update of the industry list *)

Section Update.

Import IndustryList.

Lemma run_bind {A B} (m : M A) (k : A → M B) (st : State) :
  (m ≫= k) st = k (m st).1 (m st).2.
Proof. unfold mbind, M_bind. now destruct (m st). Qed.

Lemma keeps_ret {A X} (part : t → X) (a : A) : keeps part (mret a).
Proof. intros st. reflexivity. Qed.

Lemma keeps_bind {A B X} (part : t → X) (m : M A) (k : A → M B) :
  keeps part m → (∀ a, keeps part (k a)) → keeps part (m ≫= k).
Proof.
  intros Hm Hk st. rewrite run_bind. now rewrite Hk, Hm.
Qed.

Lemma keeps_get {X} (part : t → X) : keeps part get.
Proof. intros st. reflexivity. Qed.

Lemma keeps_modify {X} (part : t → X) (f : t → t) :
  (∀ w, part (f w) = part w) → keeps part (modify f).
Proof. intros Hf st. apply Hf. Qed.

Lemma keeps_call {A X} (part : t → X) (c : Call) (answer : A) :
  keeps part (call c answer).
Proof. intros st. reflexivity. Qed.

Lemma keeps_when {X} (part : t → X) (b : bool) (m : M unit) :
  keeps part m → keeps part (when b m).
Proof. intros Hm. destruct b; [exact Hm|apply keeps_ret]. Qed.

Lemma keeps_calculate {X} (part : t → X) (model : Model.t)
    (config : Config.t) :
  keeps part (calculate model config).
Proof.
  intros st. now rewrite calculate_run.
Qed.

Lemma keeps_syncIndicators {X} (part : t → X)
    (DEFAULT_INDICATORS : list string) (model : Model.t) (config : Config.t) :
  keeps part (syncIndicators DEFAULT_INDICATORS model config).
Proof.
  unfold syncIndicators.
  destruct (negb _); [apply keeps_ret|].
  apply keeps_bind; [apply keeps_call|].
  intros [[|i all]|]; try apply keeps_ret.
  destruct (_ <=? _)%nat; apply keeps_ret.
Qed.

(** The answer of a calculation does not depend on the widget. *)
Lemma calculate_value (model : Model.t) (config : Config.t) (st : State) :
  (calculate model config st).1 = calculated model config.
Proof.
  now rewrite calculate_run.
Qed.

End Update.

Ltac solve_quiet :=
  repeat first
    [ apply quiet_ret
    | apply quiet_get
    | apply quiet_syncIndicators
    | apply quiet_call; reflexivity
    | apply quiet_modify; reflexivity
    | apply quiet_when
    | apply quiet_bind; [|intros ?]
    | match goal with
      | |- IndustryList.quiet (match ?d with Some _ => _ | None => _ end) =>
          destruct d
      end ].

Ltac solve_keeps :=
  repeat first
    [ apply keeps_ret
    | apply keeps_get
    | apply keeps_syncIndicators
    | apply keeps_calculate
    | apply keeps_call
    | apply keeps_modify; reflexivity
    | apply keeps_when
    | apply keeps_bind; [|intros ?]
    | match goal with
      | |- IndustryList.keeps _ (match ?d with Some _ => _ | None => _ end) =>
          destruct d
      end ].

Section Staleness.

Import IndustryList.

Lemma strict_eq_string (x y : optional string) :
  strict_eq String.eqb x y = true → x = y.
Proof.
  destruct x, y; simpl; try discriminate; try reflexivity.
  intros ->%String.eqb_eq. reflexivity.
Qed.

Lemma strict_eq_Z (x y : optional Z) : strict_eq Z.eqb x y = true → x = y.
Proof.
  destruct x, y; simpl; try discriminate; try reflexivity.
  intros ->%Z.eqb_eq. reflexivity.
Qed.

(** With a heatmap view, a calculation is needed for the first update,
    without a result, and after a change in one of the fields that
    trigger a calculation. *)
Lemma needsCalculation_stale (w : t) (new : Config.t) :
  strings.isMember "mosaic" (Config.view new) = true →
  config w = None ∨ result w = None
  ∨ (∃ old, config w = Some old ∧ stale old new) →
  needsCalculation w (config w) (Some new) = true.
Proof.
  intros Hmosaic Hstale. unfold needsCalculation. rewrite Hmosaic. simpl.
  destruct (config w) as [old|]; [|reflexivity].
  destruct (result w) as [r|]; [|reflexivity].
  destruct Hstale as [?|[?|(old' & [= <-] & Hstale)]]; try discriminate.
  destruct (strict_eq same_array _ _) eqn:Hview; [|reflexivity].
  destruct (strict_eq String.eqb (Config.perspective _) _) eqn:Hpersp;
    [|reflexivity].
  destruct (strict_eq String.eqb (Config.analysis _) _) eqn:Hana;
    [|reflexivity].
  destruct (strict_eq Z.eqb _ _) eqn:Hyear; [|reflexivity].
  destruct (strict_eq String.eqb (Config.location _) _) eqn:Hloc;
    [|reflexivity].
  apply strict_eq_string in Hpersp, Hana, Hloc. apply strict_eq_Z in Hyear.
  destruct Hstale as [?|[?|[?|[?|?]]]]; congruence.
Qed.

End Staleness.

(** A calculation throws for a plain matrix without indicators of the
    model, and only then. *)
Lemma calculated_None (model : Model.t) (config : Config.t) :
  IndustryList.calculated model config = None
  ↔ truthy (Config.analysis config) = false ∧ Model.indicators model = None.
Proof.
  unfold IndustryList.calculated, IndustryList.calculate.
  destruct (truthy (Config.analysis config)); cbn [negb].
  - split; [discriminate|intros [? _]; discriminate].
  - rewrite !run_bindE, !lift_value. cbn [fst snd].
    destruct (Model.indicators model); split;
      try discriminate; try (intros [_ ?]; discriminate); auto.
Qed.

(** X5: for a heatmap view, the first update, an update of a widget without a
    result and an update that changes the view, the perspective, the
    analysis type, the year or the location run the calculation. When the
    calculation gives a result, the update stores it and comes to its
    rendering. When the calculation throws, which it does for a plain
    matrix without indicators of the model, the update is rejected: the
    result, the indicators and the demand values of the widget stay as
    they were, and nothing is rendered. *)
Theorem handleUpdate_recalculates (DEFAULT_INDICATORS : list string)
    (model : Model.t) (config : Config.t) (st : IndustryList.State) :
  strings.isMember "mosaic" (Config.view config) = true →
  IndustryList.config (IndustryList.this st) = None
  ∨ IndustryList.result (IndustryList.this st) = None
  ∨ (∃ old, IndustryList.config (IndustryList.this st) = Some old
            ∧ IndustryList.stale old config) →
  let run := IndustryList.handleUpdate DEFAULT_INDICATORS model config st in
  (∀ r, IndustryList.calculated model config = Some r →
     run.1 = Some tt
     ∧ IndustryList.result (IndustryList.this run.2) = Some r)
  ∧ (IndustryList.calculated model config = None →
     run.1 = None
     ∧ IndustryList.result (IndustryList.this run.2)
       = IndustryList.result (IndustryList.this st)
     ∧ IndustryList.indicators (IndustryList.this run.2)
       = IndustryList.indicators (IndustryList.this st)
     ∧ IndustryList.demand (IndustryList.this run.2)
       = IndustryList.demand (IndustryList.this st)
     ∧ IndustryList.Render ∉ drop (length (IndustryList.calls st))
                                (IndustryList.calls run.2))
  ∧ (IndustryList.calculated model config = None
     ↔ truthy (Config.analysis config) = false
       ∧ Model.indicators model = None).
Proof.
  intros Hmosaic Hstale run. subst run.
  pose proof (needsCalculation_stale (IndustryList.this st) config
                Hmosaic Hstale) as Hneeds.
  rewrite handleUpdate_run. cbv zeta. rewrite Hneeds, calculate_run.
  cbn [snd IndustryList.this IndustryList.calls].
  split; [|split; [|apply calculated_None]].
  - intros r ->. rewrite lift_value, lift_state.
    split; [now destruct (_.1)|].
    match goal with
    | |- context [(IndustryList.finish_update ?d ?m ?c ?b ?st1).2] =>
        destruct (finish_update_quiet d m c b st1) as [-> _]
    end.
    reflexivity.
  - intros ->. cbn [fst snd IndustryList.this IndustryList.calls].
    repeat split.
    rewrite drop_app_length.
    destruct (negb _); [destruct (strict_eq _ _ _)|]; cbn;
      rewrite !elem_of_cons, elem_of_nil; intuition discriminate.
Qed.

Lemma handleUpdate_recalculates_witness :
  let config := Config.set_perspective (Def "final") Samples.mosaic in
  let run := IndustryList.handleUpdate [] Samples.model config
               Samples.heatmap in
  let rejected := IndustryList.handleUpdate [] Samples.blank config
                    Samples.heatmap in
  (run.1 = Some tt
   ∧ IndustryList.result (IndustryList.this run.2) = Some Samples.scores)
  ∧ rejected.1 = None
  ∧ IndustryList.calls rejected.2
    = (IndustryList.calls Samples.heatmap
       ++ [IndustryList.GetMatrix "U"; IndustryList.GetIndicators;
           IndustryList.GetSectors])%list.
Proof.
  intros config run rejected.
  assert (strings.isMember "mosaic" (Config.view config) = true) as Hmosaic
    by reflexivity.
  assert (IndustryList.config (IndustryList.this Samples.heatmap) = None
          ∨ IndustryList.result (IndustryList.this Samples.heatmap) = None
          ∨ (∃ old,
               IndustryList.config (IndustryList.this Samples.heatmap)
               = Some old
               ∧ IndustryList.stale old config)) as Hstale.
  { right. right. exists Samples.mosaic. split; [reflexivity|].
    right. left. discriminate. }
  split.
  - apply (handleUpdate_recalculates [] Samples.model config Samples.heatmap
             Hmosaic Hstale).
    reflexivity.
  - split; [|reflexivity].
    apply (handleUpdate_recalculates [] Samples.blank config Samples.heatmap
             Hmosaic Hstale).
    reflexivity.
Defined.

(** The steps of an update, run on a widget with its fields. *)
Ltac run_update :=
  unfold IndustryList.calculate, IndustryList.syncIndicators,
    IndustryList.when, IndustryList.get, IndustryList.modify,
    IndustryList.call, mbind, IndustryList.M_bind, mret, IndustryList.M_ret;
  simpl;
  repeat match goal with
  | |- context [if ?b then _ else _] => destruct b eqn:?; simpl
  | |- context [match ?x with _ => _ end] =>
      match type of x with
      | option _ => destruct x eqn:?; simpl
      | list _ => destruct x eqn:?; simpl
      end
  end.

(** What the steps behind the calculation leave behind: the configuration,
    the attribute of the mount element and the result as they were,
    indicators, and sectors whenever there is no result. *)
Lemma finish_update_post (DEFAULT_INDICATORS : list string)
    (model : Model.t) (config : Config.t) (needsCalc : bool)
    (st : IndustryList.State) :
  let st' :=
    (IndustryList.finish_update DEFAULT_INDICATORS model config needsCalc
       st).2 in
  IndustryList.config (IndustryList.this st')
    = IndustryList.config (IndustryList.this st)
  ∧ IndustryList._naicsAttr (IndustryList.this st')
    = IndustryList._naicsAttr (IndustryList.this st)
  ∧ IndustryList.result (IndustryList.this st')
    = IndustryList.result (IndustryList.this st)
  ∧ is_Some (IndustryList.indicators (IndustryList.this st'))
  ∧ (IndustryList.result (IndustryList.this st) = None →
     IndustryList.sectors (IndustryList.this st')
     = Some (Model.singleRegionSectors model)).
Proof.
  intros st'. subst st'. unfold IndustryList.finish_update.
  destruct st as [[c [r|] d i s n] log];
    run_update; repeat split; eauto; discriminate.
Qed.


(** The demand values behind the steps of an update. *)
Lemma finish_update_demand (DEFAULT_INDICATORS : list string)
    (model : Model.t) (config : Config.t) (needsCalc : bool)
    (st : IndustryList.State) :
  let st' :=
    (IndustryList.finish_update DEFAULT_INDICATORS model config needsCalc
       st).2 in
  (∀ demand,
     truthy (Config.showvalues config) = true →
     IndustryList.demand (IndustryList.this st) = None →
     Model.demand model (Model.findDemand model config) = Some demand →
     IndustryList.demand (IndustryList.this st')
     = Some (IndustryList.aggregate_demand demand (Model.sectors model)))
  ∧ (truthy (Config.showvalues config) = false →
     IndustryList.demand (IndustryList.this st')
     = IndustryList.demand (IndustryList.this st))
  ∧ (is_Some (IndustryList.demand (IndustryList.this st)) →
     is_Some (IndustryList.demand (IndustryList.this st')))
  ∧ (IndustryList.demand (IndustryList.this st) = None →
     Model.demand model (Model.findDemand model config) = None →
     IndustryList.demand (IndustryList.this st') = None).
Proof.
  intros st'. subst st'. unfold IndustryList.finish_update.
  split; [|split; [|split]].
  - intros demand Hshow Hnone Hdemand.
    destruct st as [[c [r|] d i s n] log]; simpl in Hnone; subst d.
    all: run_update; try congruence.
    all: rewrite Hshow in *; simpl in *; congruence.
  - intros Hshow.
    destruct st as [[c [r|] d i s n] log].
    all: run_update; try reflexivity.
    all: rewrite Hshow in *; simpl in *; congruence.
  - intros [v Hv].
    destruct st as [[c [r|] d i s n] log]; simpl in Hv; subst d.
    all: run_update; eauto.
  - intros Hnone Hdemand.
    destruct st as [[c [r|] d i s n] log]; simpl in Hnone; subst d.
    all: run_update; congruence.
Qed.


(** What every update leaves behind: the stored configuration and the
    attribute of the mount element as it was and, unless it is rejected,
    indicators, and sectors whenever there is no result. *)
Lemma handleUpdate_post (DEFAULT_INDICATORS : list string)
    (model : Model.t) (config : Config.t) (st : IndustryList.State) :
  let run := IndustryList.handleUpdate DEFAULT_INDICATORS model config st in
  IndustryList.config (IndustryList.this run.2)
    = Some (IndustryList.stored_config (IndustryList.this st) config)
  ∧ IndustryList._naicsAttr (IndustryList.this run.2)
    = IndustryList._naicsAttr (IndustryList.this st)
  ∧ (run.1 = Some tt →
     is_Some (IndustryList.indicators (IndustryList.this run.2))
     ∧ (IndustryList.result (IndustryList.this run.2) = None →
        IndustryList.sectors (IndustryList.this run.2)
        = Some (Model.singleRegionSectors model))).
Proof.
  intros run. subst run. rewrite handleUpdate_run. cbv zeta.
  destruct (IndustryList.needsCalculation _ _ _);
    [rewrite calculate_run; destruct (IndustryList.calculated model config)|];
    cbn [fst snd IndustryList.this IndustryList.calls];
    try (repeat split; discriminate);
    rewrite lift_state;
    match goal with
    | |- context [(IndustryList.finish_update ?d ?m ?c ?b ?st1).2] =>
        destruct (finish_update_post d m c b st1)
          as (Hconfig & Hattr & Hresult & Hinds & Hsectors)
    end;
    rewrite Hconfig, Hattr; repeat split; try exact Hinds;
    rewrite Hresult; exact Hsectors.
Qed.

(** An update that is not rejected has run its last steps from a widget
    with the stored configuration and with the demand values of the
    widget before the update, behind requests without a rendering. *)
Lemma handleUpdate_completed (DEFAULT_INDICATORS : list string)
    (model : Model.t) (config : Config.t) (st : IndustryList.State) :
  let run := IndustryList.handleUpdate DEFAULT_INDICATORS model config st in
  run.1 = Some tt →
  ∃ st1 issued,
    run.2
    = (IndustryList.finish_update DEFAULT_INDICATORS model config
         (IndustryList.needsCalculation (IndustryList.this st)
            (IndustryList.config (IndustryList.this st)) (Some config))
         st1).2
    ∧ IndustryList.demand (IndustryList.this st1)
      = IndustryList.demand (IndustryList.this st)
    ∧ IndustryList.calls st1 = (IndustryList.calls st ++ issued)%list
    ∧ Forall (λ c, c ≠ IndustryList.Render) issued
    ∧ (IndustryList.needsCalculation (IndustryList.this st)
         (IndustryList.config (IndustryList.this st)) (Some config) = true →
       IndustryList.result (IndustryList.this st1)
       = IndustryList.calculated model config).
Proof.
  intros run. subst run. rewrite handleUpdate_run. cbv zeta.
  destruct (IndustryList.needsCalculation _ _ _).
  - rewrite calculate_run.
    destruct (IndustryList.calculated model config) as [r|];
      cbn [fst snd IndustryList.this IndustryList.calls]; [|discriminate].
    intros _. rewrite lift_state. eexists. eexists.
    split; [reflexivity|]. cbn [IndustryList.this IndustryList.calls].
    split; [reflexivity|]. split; [reflexivity|]. split; [|reflexivity].
    destruct (negb _); [destruct (strict_eq _ _ _)|];
      repeat constructor; discriminate.
  - intros _. rewrite lift_state. eexists. exists [].
    split; [reflexivity|]. cbn [IndustryList.this IndustryList.calls].
    split; [reflexivity|]. split; [now rewrite app_nil_r|].
    split; [constructor|discriminate].
Qed.

(** After an update that is not rejected, the demand values of the widget
    are missing exactly when they were missing before and the model has
    no demand vector, as far as values are displayed. *)
Lemma handleUpdate_demand_missing (DEFAULT_INDICATORS : list string)
    (model : Model.t) (config : Config.t) (st : IndustryList.State) :
  let run := IndustryList.handleUpdate DEFAULT_INDICATORS model config st in
  run.1 = Some tt →
  truthy (Config.showvalues config) = true →
  IndustryList.demand (IndustryList.this run.2) = None
  ↔ IndustryList.demand (IndustryList.this st) = None
    ∧ Model.demand model (Model.findDemand model config) = None.
Proof.
  intros run Hrun Hshow. subst run.
  destruct (handleUpdate_completed DEFAULT_INDICATORS model config st Hrun)
    as (st1 & issued & -> & Hdemand & _).
  destruct (finish_update_demand DEFAULT_INDICATORS model config
              (IndustryList.needsCalculation (IndustryList.this st)
                 (IndustryList.config (IndustryList.this st)) (Some config))
              st1) as (Hload & _ & Hkeep & Hnone).
  rewrite Hdemand in Hload, Hkeep, Hnone.
  destruct (IndustryList.demand (IndustryList.this st)) as [d|].
  - destruct Hkeep as [d' ->]; [eauto|].
    split; [discriminate|intros [? _]; discriminate].
  - destruct (Model.demand model _) as [demand|].
    + rewrite (Hload demand Hshow eq_refl eq_refl).
      split; [discriminate|intros [_ ?]; discriminate].
    + rewrite Hnone by reflexivity. tauto.
Qed.

(** X6: after every update that is not rejected, the rows of the list are
    defined for every indicator to sort by and every search term. The
    component renders its table with them when values are not displayed,
    or the widget had demand values before the update, or the model has
    a demand vector; when values are displayed without any demand values,
    a row throws, so that no table is rendered unless there is no row. *)
Theorem Component_defined_after_update (DEFAULT_INDICATORS : list string)
    (search : string → string → Z) (no_group : optional IndicatorGroup)
    (model : Model.t) (config : Config.t) (st : IndustryList.State)
    (sorter : option Indicator.t) (searchTerm : option string) :
  let run := IndustryList.handleUpdate DEFAULT_INDICATORS model config st in
  let w := IndustryList.this run.2 in
  run.1 = Some tt →
  ∃ rows,
    IndustryList.Component search w sorter searchTerm = Some rows
    ∧ ((truthy (Config.showvalues config) = true →
        is_Some (IndustryList.demand (IndustryList.this st))
        ∨ is_Some (Model.demand model (Model.findDemand model config))) →
       is_Some (IndustryList.Component_table no_group search w sorter
                  searchTerm))
    ∧ (truthy (Config.showvalues config) = true →
       IndustryList.demand (IndustryList.this st) = None →
       Model.demand model (Model.findDemand model config) = None →
       rows ≠ [] →
       IndustryList.Component_table no_group search w sorter searchTerm
       = None).
Proof.
  intros run w Hrun.
  destruct (handleUpdate_post DEFAULT_INDICATORS model config st)
    as (Hconfig & _ & Hpost).
  destruct (Hpost Hrun) as [[inds Hinds] Hsectors]. clear Hpost.
  pose proof (handleUpdate_demand_missing DEFAULT_INDICATORS model config st
                Hrun) as Hmissing.
  fold run in Hconfig, Hinds, Hsectors, Hmissing.
  fold w in Hconfig, Hinds, Hsectors, Hmissing.
  assert (is_Some (IndustryList.Component search w sorter searchTerm))
    as [rows Hrows].
  { unfold IndustryList.Component, IndustryList.ranking,
      IndustryList.candidates.
    rewrite Hconfig, Hinds. simpl.
    destruct (IndustryList.result w) as [r|].
    - destruct sorter; simpl; eauto.
    - rewrite Hsectors by reflexivity. simpl. eauto. }
  exists rows. split; [exact Hrows|].
  unfold IndustryList.Component_table, IndustryList.Component_head,
    IndustryList.Row_cells.
  rewrite Hrows, Hconfig. cbn [mbind option_bind].
  assert (Config.showvalues
            (IndustryList.stored_config (IndustryList.this st) config)
          = Config.showvalues config) as ->.
  { unfold IndustryList.stored_config. now destruct (_ && _). }
  split.
  - intros Hdemand.
    destruct (truthy (Config.showvalues config)) eqn:Hshow.
    + destruct (IndustryList.demand w) as [d|] eqn:Hd.
      * cbn [mbind option_bind]. clear. induction rows; cbn; eauto.
        destruct IHrows as [x Hx]. cbn in Hx.
        destruct (mapM _ rows); [cbn; eauto|discriminate].
      * destruct (proj1 (Hmissing eq_refl) eq_refl) as [Hnone Hmodel].
        destruct (Hdemand eq_refl) as [[? ?]|[? ?]]; congruence.
    + cbn [mbind option_bind]. clear. induction rows; cbn; eauto.
      destruct IHrows as [x Hx]. cbn in Hx.
      destruct (mapM _ rows); [cbn; eauto|discriminate].
  - intros Hshow Hnone Hmodel Hne. rewrite Hshow.
    rewrite (proj2 (Hmissing Hshow) (conj Hnone Hmodel)).
    destruct rows; [contradiction|reflexivity].
Qed.

Lemma Component_defined_after_update_witness :
  let config :=
    {| Config.sectors := Undefined; Config.naics := Undefined;
       Config.indicators := Undefined; Config.view := Undefined;
       Config.perspective := Undefined; Config.analysis := Undefined;
       Config.year := Undefined; Config.location := Undefined;
       Config.count := Def 2; Config.page := Undefined;
       Config.showvalues := Def true; Config.showdownload := Undefined;
       Config.showscientific := Undefined;
       Config.selectmatrix := Undefined |} in
  let shown :=
    IndustryList.this
      (IndustryList.handleUpdate [] Samples.demanding config
         Samples.fresh).2 in
  let failing :=
    IndustryList.this
      (IndustryList.handleUpdate [] Samples.model config Samples.fresh).2 in
  IndustryList.Component_table Null Samples.search_all shown None None
  = Some ([IndustryList.SectorColumn; IndustryList.DemandColumn],
          [[IndustryList.SectorColumn; IndustryList.DemandColumn];
           [IndustryList.SectorColumn; IndustryList.DemandColumn]])
  ∧ IndustryList.Component Samples.search_all failing None None
    = Some [(Samples.apple, 0); (Samples.banana, 0)]
  ∧ IndustryList.Component_table Null Samples.search_all failing None None
    = None.
Proof.
  intros config shown failing.
  destruct (Component_defined_after_update [] Samples.search_all Null
              Samples.demanding config Samples.fresh None None eq_refl)
    as (rows & Hrows & Hshown & _).
  destruct (Component_defined_after_update [] Samples.search_all Null
              Samples.model config Samples.fresh None None eq_refl)
    as (rows' & Hrows' & _ & Hfailing).
  split; [|split].
  - destruct Hshown as [table Htable]; [intros _; right; vm_compute; eauto|].
    reflexivity.
  - reflexivity.
  - apply Hfailing; try reflexivity.
    intros ->. discriminate Hrows'.
Defined.


(** X8: with a view that is not a heatmap, an update keeps the result, issues
    no request for a matrix, a calculation or the indicators, shows no
    indicators, and loads the sectors when there is no result. *)
Theorem handleUpdate_without_heatmap (DEFAULT_INDICATORS : list string)
    (model : Model.t) (config : Config.t) (st : IndustryList.State) :
  strings.isMember "mosaic" (Config.view config) = false →
  let st' := (IndustryList.handleUpdate DEFAULT_INDICATORS model config st).2 in
  IndustryList.result (IndustryList.this st')
    = IndustryList.result (IndustryList.this st)
  ∧ IndustryList.indicators (IndustryList.this st') = Some []
  ∧ (IndustryList.result (IndustryList.this st) = None →
     IndustryList.sectors (IndustryList.this st')
     = Some (Model.singleRegionSectors model))
  ∧ ∃ issued,
      IndustryList.calls st' = (IndustryList.calls st ++ issued)%list
      ∧ Forall (λ c, IndustryList.recalculates c = false
                     ∧ c ≠ IndustryList.GetIndicators) issued.
Proof.
  intros Hmosaic st'. subst st'.
  rewrite handleUpdate_run. cbv zeta.
  assert (IndustryList.needsCalculation (IndustryList.this st)
            (IndustryList.config (IndustryList.this st))
            (Some config) = false) as ->.
  { unfold IndustryList.needsCalculation. now rewrite Hmosaic. }
  rewrite lift_state.
  unfold IndustryList.finish_update, IndustryList.syncIndicators.
  rewrite Hmosaic.
  destruct st as [[c [r|] d i s n] log];
    run_update; rewrite <- ?app_assoc; simpl;
    (repeat split; try reflexivity; try discriminate);
    (eexists; split; [reflexivity|]); repeat constructor; discriminate.
Qed.

Lemma handleUpdate_without_heatmap_witness :
  let st' := Samples.ranked in
  IndustryList.result (IndustryList.this st') = Some Samples.scores
  ∧ IndustryList.indicators (IndustryList.this st') = Some []
  ∧ (IndustryList.result (IndustryList.this Samples.heatmap) = None →
     IndustryList.sectors (IndustryList.this st')
     = Some (Model.singleRegionSectors Samples.model))
  ∧ ∃ issued,
      IndustryList.calls st'
      = (IndustryList.calls Samples.heatmap ++ issued)%list
      ∧ Forall (λ c, IndustryList.recalculates c = false
                     ∧ c ≠ IndustryList.GetIndicators) issued.
Proof.
  apply (handleUpdate_without_heatmap [] Samples.model
           (Config.set_view (Def (Array 2 ["ranking"])) Samples.mosaic)
           Samples.heatmap).
  reflexivity.
Defined.

(** An update that needs no calculation keeps the result and issues no
    request for a matrix or a calculation. *)
Lemma handleUpdate_keeps_result (DEFAULT_INDICATORS : list string)
    (model : Model.t) (config : Config.t) (st : IndustryList.State) :
  IndustryList.needsCalculation (IndustryList.this st)
    (IndustryList.config (IndustryList.this st)) (Some config) = false →
  let st' := (IndustryList.handleUpdate DEFAULT_INDICATORS model config st).2 in
  IndustryList.result (IndustryList.this st')
    = IndustryList.result (IndustryList.this st)
  ∧ ∃ issued,
      IndustryList.calls st' = (IndustryList.calls st ++ issued)%list
      ∧ Forall (λ c, IndustryList.recalculates c = false) issued.
Proof.
  intros Hneeds st'. subst st'.
  rewrite handleUpdate_run. cbv zeta. rewrite Hneeds, lift_state.
  match goal with
  | |- context [(IndustryList.finish_update ?d ?m ?c ?b ?st1).2] =>
      exact (finish_update_quiet d m c b st1)
  end.
Qed.

(** X9: a change of the attribute of the mount element stores its codes in
    the configuration; without a value of the attribute, the codes of the
    attribute at the construction of the widget are stored again. The
    other fields of the configuration stay, and a result is kept without
    a request for a matrix or a calculation. *)
Theorem onAttributeChange_stores_codes (DEFAULT_INDICATORS : list string)
    (model : Model.t) (naicsAttr : option string)
    (st : IndustryList.State) :
  let w := IndustryList.this st in
  let old := default Config.empty (IndustryList.config w) in
  let st' :=
    (IndustryList.onAttributeChange DEFAULT_INDICATORS model naicsAttr st).2 in
  IndustryList.config (IndustryList.this st')
    = Some (Config.set_naics
              (IndustryList.attribute_codes
                 (if truthy naicsAttr then naicsAttr
                  else IndustryList._naicsAttr w))
              old)
  ∧ (is_Some (IndustryList.result w) →
     IndustryList.result (IndustryList.this st') = IndustryList.result w
     ∧ ∃ issued,
         IndustryList.calls st' = (IndustryList.calls st ++ issued)%list
         ∧ Forall (λ c, IndustryList.recalculates c = false) issued).
Proof.
  intros w old st'. subst w old st'.
  unfold IndustryList.onAttributeChange.
  change ((IndustryList.lift IndustryList.get ≫= ?k) st)
    with (k (IndustryList.this st) st).
  cbv beta zeta.
  set (old := match IndustryList.config (IndustryList.this st) with
              | Some c => c | None => Config.empty end).
  set (new := Config.set_naics (IndustryList.attribute_codes naicsAttr) old).
  split.
  - destruct (handleUpdate_post DEFAULT_INDICATORS model new st) as [-> _].
    f_equal. unfold IndustryList.stored_config. subst new.
    unfold IndustryList.attribute_codes.
    destruct naicsAttr as [[|ch attr]|]; try reflexivity;
      destruct (IndustryList._naicsAttr (IndustryList.this st))
        as [[|ch' attr']|]; reflexivity.
  - intros [r Hr]. apply handleUpdate_keeps_result.
    subst new old.
    destruct (IndustryList.config (IndustryList.this st)) as [c|] eqn:Hc.
    + now apply (needsCalculation_unchanged _ c _ r).
    + reflexivity.
Qed.

Lemma onAttributeChange_stores_codes_witness :
  let st' :=
    (IndustryList.onAttributeChange [] Samples.model (Some "111, 112 ")
       Samples.heatmap).2 in
  IndustryList.config (IndustryList.this st')
    = Some (Config.set_naics (Def ["111"; "112"]) Samples.mosaic)
  ∧ (is_Some (IndustryList.result (IndustryList.this Samples.heatmap)) →
     IndustryList.result (IndustryList.this st')
       = IndustryList.result (IndustryList.this Samples.heatmap)
     ∧ ∃ issued,
         IndustryList.calls st'
         = (IndustryList.calls Samples.heatmap ++ issued)%list
         ∧ Forall (λ c, IndustryList.recalculates c = false) issued).
Proof.
  exact (onAttributeChange_stores_codes [] Samples.model (Some "111, 112 ")
           Samples.heatmap).
Defined.

(** ** Properties of the demand values *)

(** X10: for any numbers of the amounts with their addition, the demand
    value of a sector code is the sum of the truthy amounts of the sectors
    with that code, added up from left to right in the order of the
    sectors and starting again behind a sum that is not truthy, where the
    last entry of the demand vector for a sector gives its amount; a code
    without such an amount has no demand value. *)
Theorem aggregate_demand_sums {N : Type} `{Truthy N} (add : N → N → N)
    (demand : list (string * N)) (sectors : list Sector.t) (code : string) :
  let values : gmap string N :=
    foldl (λ values e, <[e.1 := e.2]> values) ∅ demand in
  IndustryList.aggregate add demand sectors !! code
  = IndustryList.running_sum add
      (IndustryList.amounts_of values sectors code).
Proof.
  intros values.
  unfold IndustryList.aggregate, IndustryList.running_sum. fold values.
  match goal with
  | |- foldl ?f ∅ sectors !! code = _ => set (step := f)
  end.
  match goal with
  | |- _ = foldl ?f None _ => set (next := f)
  end.
  assert (∀ acc : gmap string N,
            foldl step acc sectors !! code
            = foldl next (acc !! code)
                (IndustryList.amounts_of values sectors code)) as Hfold.
  { induction sectors as [|s ss IH]; intros acc; [reflexivity|].
    simpl foldl. rewrite IH. clear IH.
    change (IndustryList.amounts_of values (s :: ss) code)
      with (match (if String.eqb (Sector.code s) code
                   then v ← values !! Sector.id s;
                        if truthy v then Some v else None
                   else None) with
            | Some y => y :: IndustryList.amounts_of values ss code
            | None => IndustryList.amounts_of values ss code
            end).
    subst step. cbv beta.
    generalize (IndustryList.amounts_of values ss code). intros rest.
    destruct (values !! Sector.id s) as [v|]; cbn [mbind option_bind].
    2:{ now destruct (String.eqb _ _). }
    destruct (truthy v) eqn:Hv; cbn [negb].
    2:{ now destruct (String.eqb _ _). }
    destruct (String.eqb_spec (Sector.code s) code) as [->|Hne].
    - now rewrite lookup_insert_eq.
    - now rewrite lookup_insert_ne by exact Hne. }
  rewrite Hfold, lookup_empty. reflexivity.
Qed.

(** With floating point amounts the sum depends on the order of the
    sectors: the amount 1 is lost behind 2^53 and counts in front of
    it. *)
Lemma aggregate_demand_sums_witness :
  let truthy : Truthy float := Samples.float_truthy in
  let demand := [("a", 9007199254740992%float); ("b", 1%float);
                 ("c", 1%float)] in
  IndustryList.aggregate PrimFloat.add demand
    [Samples.sector_of "a" "X"; Samples.sector_of "b" "X";
     Samples.sector_of "c" "X"] !! "X"
  = Some 9007199254740992%float
  ∧ IndustryList.aggregate PrimFloat.add demand
      [Samples.sector_of "b" "X"; Samples.sector_of "c" "X";
       Samples.sector_of "a" "X"] !! "X"
    = Some 9007199254740994%float.
Proof.
  intros truthy demand. split.
  - rewrite (aggregate_demand_sums PrimFloat.add demand
               [Samples.sector_of "a" "X"; Samples.sector_of "b" "X";
                Samples.sector_of "c" "X"] "X").
    reflexivity.
  - rewrite (aggregate_demand_sums PrimFloat.add demand
               [Samples.sector_of "b" "X"; Samples.sector_of "c" "X";
                Samples.sector_of "a" "X"] "X").
    reflexivity.
Defined.


(** X11: with the display of values, an update of a widget without demand
    values that is not rejected stores the aggregated demand vector of the
    model; without the display of values, an update keeps the demand
    values as they are. *)
Theorem handleUpdate_demand (DEFAULT_INDICATORS : list string)
    (model : Model.t) (config : Config.t) (st : IndustryList.State) :
  let run := IndustryList.handleUpdate DEFAULT_INDICATORS model config st in
  (∀ demand,
     run.1 = Some tt →
     truthy (Config.showvalues config) = true →
     IndustryList.demand (IndustryList.this st) = None →
     Model.demand model (Model.findDemand model config) = Some demand →
     IndustryList.demand (IndustryList.this run.2)
     = Some (IndustryList.aggregate_demand demand (Model.sectors model)))
  ∧ (truthy (Config.showvalues config) = false →
     IndustryList.demand (IndustryList.this run.2)
     = IndustryList.demand (IndustryList.this st)).
Proof.
  intros run. split.
  - intros demand Hrun Hshow Hnone Hdemand.
    destruct (handleUpdate_completed DEFAULT_INDICATORS model config st Hrun)
      as (st1 & issued & Hst1 & Hsame & _).
    fold run in Hst1. rewrite Hst1.
    apply finish_update_demand; congruence.
  - intros Hshow. subst run. rewrite handleUpdate_run. cbv zeta.
    destruct (IndustryList.needsCalculation _ _ _);
      [rewrite calculate_run;
       destruct (IndustryList.calculated model config)|];
      cbn [fst snd IndustryList.this IndustryList.calls];
      try reflexivity;
      rewrite lift_state;
      match goal with
      | |- context [(IndustryList.finish_update ?d ?m ?c ?b ?st1).2] =>
          destruct (finish_update_demand d m c b st1) as (_ & -> & _)
      end; auto.
Qed.

(** ** Properties of the indicators of the industry list *)

Lemma indexOf_elem (xs : list string) (x : string) :
  0 ≤ indexOf xs x ↔ x ∈ xs.
Proof.
  induction xs as [|y ys IH]; simpl.
  - split; [lia|]. intros H. inversion H.
  - destruct (String.eqb_spec y x) as [->|Hne].
    + split; [intros _; apply list_elem_of_here|lia].
    + rewrite elem_of_cons, <- IH.
      destruct (Z.ltb_spec (indexOf ys x) 0);
        intuition (congruence || lia).
Qed.

Lemma group_index_inj (g1 g2 : option IndicatorGroup) :
  IndustryList.group_index g1 = IndustryList.group_index g2 → g1 = g2.
Proof.
  destruct g1 as [[]|], g2 as [[]|]; vm_compute; congruence.
Qed.

Lemma compare_indicators_le (i1 i2 : Indicator.t) :
  before IndustryList.compare_indicators i1 i2 ↔
    (Indicator.group i1 = Indicator.group i2
     ∧ strings.compare (Indicator.code i1) (Indicator.code i2) ≤ 0)
    ∨ IndustryList.group_index (Indicator.group i1)
      < IndustryList.group_index (Indicator.group i2).
Proof.
  unfold before, IndustryList.compare_indicators.
  destruct (decide (Indicator.group i1 = Indicator.group i2)) as [Heq|Hne].
  - rewrite Heq. split; [auto|]. intros [[_ ?]|?]; [assumption|lia].
  - pose proof (group_index_inj (Indicator.group i1) (Indicator.group i2))
      as Hinj.
    split; [|intros [[? _]|?]; [contradiction|lia]].
    intros Hle. right.
    destruct (Z.eq_dec (IndustryList.group_index (Indicator.group i1))
                (IndustryList.group_index (Indicator.group i2))) as [E|E];
      [now apply Hinj in E|lia].
Qed.

Lemma compare_indicators_total (i1 i2 : Indicator.t) :
  before IndustryList.compare_indicators i1 i2
  ∨ before IndustryList.compare_indicators i2 i1.
Proof.
  rewrite !compare_indicators_le.
  destruct (decide (Indicator.group i1 = Indicator.group i2)) as [Heq|Hne].
  - destruct (strings_compare_total (Indicator.code i1) (Indicator.code i2));
      [left|right]; left; split; congruence.
  - pose proof (group_index_inj (Indicator.group i1) (Indicator.group i2))
      as Hinj.
    destruct (Z.lt_trichotomy
                (IndustryList.group_index (Indicator.group i1))
                (IndustryList.group_index (Indicator.group i2)))
      as [?|[E|?]]; [left; right; lia|now apply Hinj in E|right; right; lia].
Qed.

Lemma compare_indicators_trans (i1 i2 i3 : Indicator.t) :
  before IndustryList.compare_indicators i1 i2 →
  before IndustryList.compare_indicators i2 i3 →
  before IndustryList.compare_indicators i1 i3.
Proof.
  rewrite !compare_indicators_le.
  intros [[E12 H12]|H12] [[E23 H23]|H23].
  - left. split; [congruence|]. eapply strings_compare_trans; eassumption.
  - right. now rewrite E12.
  - right. now rewrite <- E23.
  - right. lia.
Qed.

(** X12: the indicators of a heatmap are the indicators of the model with a
    selected code, ordered by their groups and, within a group, by their
    codes; other views have no indicators. *)
Theorem syncIndicators_selects (DEFAULT_INDICATORS : list string)
    (model : Model.t) (config : Config.t) (st : IndustryList.State) :
  let indicators :=
    (IndustryList.syncIndicators DEFAULT_INDICATORS model config st).1 in
  if strings.isMember "mosaic" (Config.view config)
  then
    (∀ i, i ∈ indicators ↔
       i ∈ default [] (Model.indicators model)
       ∧ Indicator.code i
         ∈ IndustryList.selected_codes DEFAULT_INDICATORS config)
    ∧ StronglySorted (before IndustryList.compare_indicators) indicators
  else indicators = [].
Proof.
  intros indicators. subst indicators.
  unfold IndustryList.syncIndicators.
  destruct (strings.isMember "mosaic" (Config.view config)); simpl;
    [|reflexivity].
  fold (IndustryList.selected_codes DEFAULT_INDICATORS config).
  rewrite run_bind. unfold IndustryList.call. cbn [fst snd].
  destruct (Model.indicators model) as [[|i0 all]|]; simpl.
  - split; [|constructor]. intros i. split; [inversion 1|]. intros [H _].
    inversion H.
  - match goal with
    | |- context [filter ?P (i0 :: all)] =>
        change (filter P (i0 :: all))
          with (filter
                  (λ i, 0 ≤ indexOf
                          (IndustryList.selected_codes DEFAULT_INDICATORS
                             config) (Indicator.code i))
                  (i0 :: all));
        set (selected :=
               filter
                 (λ i, 0 ≤ indexOf
                         (IndustryList.selected_codes DEFAULT_INDICATORS
                            config) (Indicator.code i))
                 (i0 :: all))
    end.
    assert (∀ i, i ∈ selected ↔
              i ∈ i0 :: all
              ∧ Indicator.code i
                ∈ IndustryList.selected_codes DEFAULT_INDICATORS config)
      as Hselected.
    { intros i. subst selected. rewrite list_elem_of_filter, indexOf_elem.
      tauto. }
    destruct (Nat.leb_spec (length selected) 1) as [Hshort|_]; simpl.
    + split; [exact Hselected|].
      destruct selected as [|i1 [|i2 rest]]; simpl in Hshort; try lia;
        repeat constructor.
    + split.
      * intros i. rewrite <- Hselected.
        now rewrite (sort_by_perm _ compare_indicators_total
                       compare_indicators_trans selected).
      * apply sort_by_sorted;
          [apply compare_indicators_total|apply compare_indicators_trans].
  - split; [|constructor]. intros i. split; [inversion 1|]. intros [H _].
    inversion H.
Qed.

(** ** Further properties of the rows and pages of the industry list *)

Lemma slice_sublist {A} (xs : list A) (start end_ : Z) :
  slice xs start end_ `sublist_of` xs.
Proof.
  unfold slice. etransitivity; [apply sublist_take|apply sublist_drop].
Qed.

(** X13: the rendered rows are rows of the ranking in their order; a positive
    count bounds their number, and without a positive count all rows are
    rendered, whatever the page is. *)
Theorem select_page_bounds (config : Config.t) (ranking : list Row) :
  IndustryList.select_page config ranking `sublist_of` ranking
  ∧ (∀ N, Config.count config = Def N → 0 < N →
       (length (IndustryList.select_page config ranking) ≤ Z.to_nat N)%nat)
  ∧ ((∀ N, Config.count config = Def N → N ≤ 0) →
     IndustryList.select_page config ranking = ranking).
Proof.
  unfold IndustryList.select_page. split; [|split].
  - destruct (Config.count config) as [| |N]; try reflexivity.
    destruct (truthy N && (0 <=? N)); [|reflexivity].
    destruct (Config.page config) as [| |P]; try apply slice_sublist.
    destruct (P <=? 1); [apply slice_sublist|].
    destruct (_ <? _); apply slice_sublist.
  - intros N -> HN. unfold truthy, Z_truthy.
    destruct (Z.eqb_spec N 0) as [?|_]; [lia|].
    destruct (Z.leb_spec 0 N) as [_|?]; [|lia]. simpl.
    assert (length (slice ranking 0 N) ≤ Z.to_nat N)%nat as Hfirst.
    { rewrite slice_first by lia. rewrite length_take. lia. }
    destruct (Config.page config) as [| |P]; try exact Hfirst.
    destruct (Z.leb_spec P 1); [exact Hfirst|].
    destruct (_ <? _); [|exact Hfirst].
    rewrite slice_take_drop by nia. rewrite length_take. lia.
  - intros Hcount. destruct (Config.count config) as [| |N]; try reflexivity.
    specialize (Hcount N eq_refl). unfold truthy, Z_truthy.
    destruct (Z.eqb_spec N 0) as [->|?]; [reflexivity|].
    destruct (Z.leb_spec 0 N); [lia|reflexivity].
Qed.

Lemma select_page_bounds_witness :
  (length (IndustryList.select_page (Samples.paged 2 7) Samples.three)
   ≤ 2)%nat
  ∧ IndustryList.select_page (Samples.paged (-1) 7) Samples.three
    = Samples.three.
Proof.
  split.
  - apply (proj1 (proj2 (select_page_bounds (Samples.paged 2 7)
                           Samples.three)) 2);
      [reflexivity|lia].
  - apply (proj2 (proj2 (select_page_bounds (Samples.paged (-1) 7)
                           Samples.three))).
    intros N [= <-]. lia.
Defined.

(** X14: with a search term, the ranking consists of the rows whose sector
    name contains the term. *)
Theorem ranking_matches_search (search : string → string → Z)
    (w : IndustryList.t) (sorter : option Indicator.t) (term : string)
    (rows full : list Row) :
  term ≠ "" →
  IndustryList.candidates search w sorter None = Some rows →
  IndustryList.ranking search w sorter (Some term) = Some full →
  ∀ r, r ∈ full ↔ r ∈ rows ∧ 0 ≤ search (Sector.name r.1) term.
Proof.
  intros Hterm Hrows Hfull r.
  apply ranking_perm in Hfull as (filtered & Hfiltered & Hperm).
  rewrite Hperm. clear Hperm.
  unfold IndustryList.candidates in *.
  destruct (match IndustryList.result w with Some _ => _ | None => _ end)
    as [base|]; [|discriminate].
  simpl in *. injection Hrows as <-. injection Hfiltered as <-.
  destruct term; [contradiction|]. simpl.
  rewrite list_elem_of_filter. tauto.
Qed.

Lemma ranking_matches_search_witness :
  (Samples.banana, 0) ∈ [(Samples.apple, 0); (Samples.banana, 0)] ↔
  (Samples.banana, 0) ∈ [(Samples.banana, 0); (Samples.apple, 0)]
  ∧ 0 ≤ Samples.search_all (Sector.name Samples.banana) "an".
Proof.
  apply (ranking_matches_search Samples.search_all
           (Samples.listing Config.empty [Samples.banana; Samples.apple])
           None "an" [(Samples.banana, 0); (Samples.apple, 0)]
           [(Samples.apple, 0); (Samples.banana, 0)]);
    [discriminate|reflexivity|reflexivity].
Defined.

(** ** Properties of the paginator *)

(** The quotient that is rounded up covers the dividend with its last
    multiple only. *)
Lemma ceil_div_bounds (total size : Z) :
  0 < size →
  (- (- total / size) - 1) * size < total ≤ - (- total / size) * size.
Proof.
  intros Hsize.
  pose proof (Z.mul_div_le (- total) size Hsize).
  pose proof (Z.mul_succ_div_gt (- total) size Hsize).
  nia.
Qed.

(** X15: for a number of sectors, the page that the paginator marks is one of
    the pages, if there is any; with a positive count, the pages of the
    size min (count, total) cover the sectors, and the last page is not
    empty. *)
Theorem Paginator_pages (total : Z) (config : Config.t) :
  0 ≤ total →
  let pageCount := (IndustryList.Paginator total config).1 in
  let page := (IndustryList.Paginator total config).2 in
  0 ≤ pageCount ∧ page ≤ pageCount ∧ (1 ≤ pageCount → 1 ≤ page)
  ∧ ∀ N, Config.count config = Def N → 1 ≤ N → 1 ≤ total →
      (pageCount - 1) * Z.min N total < total ≤ pageCount * Z.min N total.
Proof.
  intros Htotal pageCount page. subst pageCount page.
  unfold IndustryList.Paginator. cbn [fst snd].
  set (count0 := or_default (Config.count config) (-1)).
  set (count := if total <? count0 then total else count0).
  set (pageCount := if 0 <? count then - (- total / count) else 0).
  set (page0 := or_default (Config.page config) 1).
  set (page1 := if page0 <=? 0 then 1 else page0).
  assert (0 ≤ pageCount) as Hcount.
  { subst pageCount. destruct (Z.ltb_spec 0 count) as [Hpos|_]; [|lia].
    pose proof (ceil_div_bounds total count Hpos). nia. }
  assert (1 ≤ page1) as Hpage.
  { subst page1. destruct (Z.leb_spec page0 0); lia. }
  split; [exact Hcount|]. split; [|split].
  - destruct (Z.ltb_spec pageCount page1); lia.
  - destruct (Z.ltb_spec pageCount page1); lia.
  - intros N HN Hpos Hrows.
    assert (count = Z.min N total) as Hmin.
    { subst count count0. rewrite HN. unfold or_default, truthy, Z_truthy.
      destruct (Z.eqb_spec N 0); [lia|]. simpl.
      destruct (Z.ltb_spec total N); lia. }
    subst pageCount. rewrite <- Hmin.
    destruct (Z.ltb_spec 0 count) as [Hc|Hc]; [|lia].
    apply ceil_div_bounds. exact Hc.
Qed.

Lemma Paginator_pages_witness :
  0 ≤ 2 ∧ 2 ≤ 2 ∧ (1 ≤ 2 → 1 ≤ 2)
  ∧ ∀ N, Config.count (Samples.paged 2 3) = Def N → 1 ≤ N → 1 ≤ 3 →
      (2 - 1) * Z.min N 3 < 3 ≤ 2 * Z.min N 3.
Proof.
  apply (Paginator_pages 3 (Samples.paged 2 3)). lia.
Defined.

Section PageLinks.

Import IndustryList.

(** The page count is not negative, and the marked page is one of the
    pages, if there is any. *)
Lemma Paginator_range (total : Z) (config : Config.t) :
  0 ≤ total →
  0 ≤ (Paginator total config).1
  ∧ (Paginator total config).2 ≤ (Paginator total config).1
  ∧ (1 ≤ (Paginator total config).1 → 1 ≤ (Paginator total config).2)
  ∧ 0 ≤ (Paginator total config).2.
Proof.
  intros Htotal. unfold Paginator. cbn [fst snd].
  set (count0 := or_default (Config.count config) (-1)).
  set (count := if total <? count0 then total else count0).
  set (pageCount := if 0 <? count then - (- total / count) else 0).
  set (page0 := or_default (Config.page config) 1).
  set (page1 := if page0 <=? 0 then 1 else page0).
  assert (0 ≤ pageCount) as Hcount.
  { subst pageCount. destruct (Z.ltb_spec 0 count) as [Hpos|_]; [|lia].
    pose proof (ceil_div_bounds total count Hpos). nia. }
  assert (1 ≤ page1) as Hpage.
  { subst page1. destruct (Z.leb_spec page0 0); lia. }
  destruct (Z.ltb_spec pageCount page1); lia.
Qed.

(** For a positive count, the pages of the paginator are the pages whose
    offset lies in the list. *)
Lemma page_in_range (total N P : Z) (config : Config.t) :
  Config.count config = Def N → 1 ≤ N → 0 ≤ total → 1 ≤ P →
  P ≤ (Paginator total config).1 ↔ (P - 1) * N < total.
Proof.
  intros HN Hpos Htotal HP. unfold Paginator. cbn [fst snd]. rewrite HN.
  assert (or_default (Def N) (-1) = N) as ->.
  { unfold or_default, truthy, Z_truthy. destruct (Z.eqb_spec N 0); [lia|].
    reflexivity. }
  set (count := if total <? N then total else N).
  assert (count = Z.min N total) as Hmin.
  { subst count. destruct (Z.ltb_spec total N); lia. }
  destruct (Z.ltb_spec 0 count) as [Hrows|Hnone].
  - pose proof (ceil_div_bounds total count Hrows) as Hceil.
    remember (- (- total / count)) as pageCount eqn:HpageCount.
    clear HpageCount.
    destruct (Z.le_gt_cases N total).
    + replace count with N in * by lia. split; intros Hp.
      * assert ((P - 1) * N ≤ (pageCount - 1) * N)
          by (apply Z.mul_le_mono_nonneg_r; lia).
        lia.
      * destruct (Z.le_gt_cases P pageCount) as [?|Hgt]; [assumption|].
        assert (pageCount * N ≤ (P - 1) * N)
          by (apply Z.mul_le_mono_nonneg_r; lia).
        lia.
    + replace count with total in * by lia.
      assert (pageCount = 1) as -> by nia. split; intros Hp; nia.
  - assert (total = 0) as -> by lia. split; intros Hp; nia.
Qed.

Lemma page_links_elem (page : Z) (xs : list Z) (init : list PageLink)
    (l : PageLink) :
  l ∈ foldl (λ links i, page_link page i links) init xs →
  l ∈ init ∨ l = Separator
  ∨ ∃ i, i ∈ xs ∧ l = (if i =? page then Current i else GoTo i).
Proof.
  revert init. induction xs as [|x xs IH]; intros init; simpl; [auto|].
  intros [Hin|[->|(i & Hi & ->)]]%IH; [|auto|].
  - unfold page_link in Hin.
    apply elem_of_app in Hin as [Hin|Hin].
    + destruct (_ <? _)%nat; [|auto].
      apply elem_of_app in Hin as [?|Hsep]; [auto|].
      apply list_elem_of_singleton in Hsep. auto.
    + apply list_elem_of_singleton in Hin. right. right. exists x.
      split; [apply list_elem_of_here|exact Hin].
  - right. right. exists i. split; [now apply list_elem_of_further|reflexivity].
Qed.

Lemma page_links_shown (page : Z) (xs : list Z) (init : list PageLink)
    (i : Z) :
  i ∈ xs →
  (if i =? page then Current i else GoTo i)
    ∈ foldl (λ links i, page_link page i links) init xs.
Proof.
  assert (∀ ys init l,
            l ∈ init → l ∈ foldl (λ links i, page_link page i links) init ys)
    as Hkeep.
  { induction ys as [|y ys IH]; intros init' l Hl; simpl; [exact Hl|].
    apply IH. unfold page_link. apply elem_of_app. left.
    destruct (_ <? _)%nat; [apply elem_of_app; auto|exact Hl]. }
  revert init. induction xs as [|x xs IH]; intros init Hi; [inversion Hi|].
  simpl. apply elem_of_cons in Hi as [->|Hi]; [|now apply IH].
  apply Hkeep. unfold page_link. apply elem_of_app. right.
  apply list_elem_of_here.
Qed.

End PageLinks.

(** X16: the links of the paginator go to pages of the paginator other than
    the marked page; the marked page is shown, if there is any page, and
    no other page is shown as the marked one. *)
Theorem Paginator_links_valid (total : Z) (config : Config.t) :
  0 ≤ total →
  let pageCount := (IndustryList.Paginator total config).1 in
  let page := (IndustryList.Paginator total config).2 in
  let links := IndustryList.Paginator_links total config in
  (∀ l t, l ∈ links → IndustryList.link_target l = Some t →
     1 ≤ t ≤ pageCount ∧ t ≠ page)
  ∧ (1 ≤ pageCount → IndustryList.Current page ∈ links)
  ∧ (∀ p, IndustryList.Current p ∈ links → p = page).
Proof.
  intros Htotal pageCount page links.
  destruct (Paginator_range total config Htotal)
    as (Hcount & Hle & Hpage & Hpage0).
  subst links pageCount page. unfold IndustryList.Paginator_links.
  destruct (IndustryList.Paginator total config) as [pageCount' page'] eqn:HP.
  cbn [fst snd] in *.
  set (start := if 3 <? page' then page' - 2 else 1).
  set (end_ := if pageCount' <? start + 4 then pageCount' else start + 4).
  set (first := if 1 <? page' then [IndustryList.Previous (page' - 1)] else []).
  set (pages := foldl (λ links i, IndustryList.page_link page' i links) first
                  (seqZ start (end_ - start + 1))).
  assert (1 ≤ start ∧ (1 ≤ page' → start ≤ page' ≤ start + 4)) as [Hstart Hwin].
  { subst start. destruct (Z.ltb_spec 3 page'); lia. }
  assert (end_ ≤ pageCount' ∧ end_ ≤ start + 4
          ∧ (1 ≤ page' → page' ≤ end_)) as (Hend & Hend' & Hendp).
  { subst end_. destruct (Z.ltb_spec pageCount' (start + 4)); lia. }
  clearbody start end_.
  assert (∀ l, l ∈ pages →
            l = IndustryList.Previous (page' - 1) ∧ 1 < page'
            ∨ l = IndustryList.Separator
            ∨ ∃ i, start ≤ i ≤ end_
                   ∧ l = (if i =? page' then IndustryList.Current i
                          else IndustryList.GoTo i)) as Hpages.
  { intros l [Hl|[->|(i & Hi & ->)]]%page_links_elem; [|auto|].
    - subst first. destruct (Z.ltb_spec 1 page'); [|inversion Hl].
      apply list_elem_of_singleton in Hl. auto.
    - right. right. exists i. apply elem_of_seqZ in Hi.
      split; [lia|reflexivity]. }
  assert (∀ l, l ∈ (if page' <? pageCount'
                    then (pages ++ [IndustryList.Separator;
                                    IndustryList.Next (page' + 1)])%list
                    else pages) →
            l ∈ pages ∨ l = IndustryList.Separator
            ∨ l = IndustryList.Next (page' + 1) ∧ page' < pageCount')
    as Hlinks.
  { intros l. destruct (Z.ltb_spec page' pageCount'); [|auto].
    rewrite elem_of_app, !elem_of_cons, elem_of_nil. intuition. }
  split; [|split].
  - intros l t [Hl|[->|[-> Hnext]]]%Hlinks; simpl; try discriminate.
    + apply Hpages in Hl as [[-> Hprev]|[->|(i & Hi & ->)]]; simpl;
        try discriminate.
      * intros [= <-]. lia.
      * destruct (Z.eqb_spec i page'); simpl; [discriminate|].
        intros [= <-]. lia.
    + intros [= <-]. lia.
  - intros Hsome. specialize (Hpage Hsome).
    assert (IndustryList.Current page' ∈ pages) as Hcurrent.
    { subst pages.
      pose proof (page_links_shown page' (seqZ start (end_ - start + 1))
                    first page') as Hshown.
      rewrite Z.eqb_refl in Hshown. apply Hshown.
      apply elem_of_seqZ. lia. }
    destruct (page' <? pageCount'); [apply elem_of_app; auto|exact Hcurrent].
  - intros p [Hl|[?|[? _]]]%Hlinks; try discriminate.
    apply Hpages in Hl as [[? _]|[?|(i & Hi & Hp)]]; try discriminate.
    destruct (Z.eqb_spec i page'); [|discriminate].
    congruence.
Qed.

Lemma Paginator_links_valid_witness :
  IndustryList.Paginator_links 3 (Samples.paged 2 3)
  = [IndustryList.Previous 1; IndustryList.Separator; IndustryList.GoTo 1;
     IndustryList.Separator; IndustryList.Current 2]
  ∧ ((∀ l t,
        l ∈ IndustryList.Paginator_links 3 (Samples.paged 2 3) →
        IndustryList.link_target l = Some t → 1 ≤ t ≤ 2 ∧ t ≠ 2)
     ∧ (1 ≤ 2 →
        IndustryList.Current 2
          ∈ IndustryList.Paginator_links 3 (Samples.paged 2 3))
     ∧ (∀ p,
          IndustryList.Current p
            ∈ IndustryList.Paginator_links 3 (Samples.paged 2 3) →
          p = 2)).
Proof.
  split; [reflexivity|].
  apply (Paginator_links_valid 3 (Samples.paged 2 3)). lia.
Defined.

(** X17: with a positive count and without a search term, every link of the
    paginator leads to a page with rows. The paginator counts the pages
    for the number of sectors that the header passes to it; for a widget
    without a result this is the number of rows of the ranking, for a
    widget with a result it is assumed to be. Then, for the page that a
    click on a link goes to, the component renders the rows from the
    offset of that page on, and there is at least one. *)
Theorem Paginator_links_lead_to_rows (search : string → string → Z)
    (sectors_of : HeatmapResult → option (list Sector.t))
    (w : IndustryList.t) (sorter : option Indicator.t)
    (config : Config.t) (ranking : list Row) (total N : Z)
    (l : IndustryList.PageLink) (t : Z) :
  Config.count config = Def N → 1 ≤ N →
  IndustryList.ranking search w sorter None = Some ranking →
  IndustryList.Header_total sectors_of w = Some total →
  (is_Some (IndustryList.result w) → Z.of_nat (length ranking) = total) →
  l ∈ IndustryList.Paginator_links total config →
  IndustryList.link_target l = Some t →
  let rows :=
    IndustryList.select_page
      (Config.set_page (Config.page (IndustryList.goTo t)) config) ranking in
  rows = take (Z.to_nat N) (drop (Z.to_nat ((t - 1) * N)) ranking)
  ∧ rows ≠ [].
Proof.
  intros HN Hpos Hranking Hheader Hresult Hl Ht rows. subst rows.
  assert (total = Z.of_nat (length ranking)) as Htotal_eq.
  { destruct (IndustryList.result w) as [r|] eqn:Hr;
      [symmetry; apply Hresult; eauto|].
    clear Hresult. revert Hheader Hranking.
    unfold IndustryList.Header_total, IndustryList.ranking,
      IndustryList.candidates.
    rewrite Hr. cbn.
    destruct (IndustryList.sectors w) as [sectors|]; [|discriminate].
    cbn. intros [= <-] [= <-].
    rewrite (Permutation_length
               (sort_by_perm _ compare_rows_total compare_rows_trans _)).
    now rewrite length_map. }
  subst total.
  set (total := Z.of_nat (length ranking)) in *.
  assert (0 ≤ total) as Htotal by (subst total; lia).
  assert (1 ≤ t ≤ (IndustryList.Paginator total config).1) as [Ht1 Htp].
  { pose proof (Paginator_range total config Htotal)
      as (Hcount & Hle & Hpage & Hpage0).
    unfold IndustryList.Paginator_links in Hl.
    destruct (IndustryList.Paginator total config) as [pageCount page].
    cbn [fst snd] in *.
    set (start := if 3 <? page then page - 2 else 1) in *.
    set (end_ := if pageCount <? start + 4 then pageCount else start + 4) in *.
    assert (1 ≤ start) as Hstart.
    { subst start. destruct (Z.ltb_spec 3 page); lia. }
    assert (end_ ≤ pageCount) as Hend.
    { subst end_. destruct (Z.ltb_spec pageCount (start + 4)); lia. }
    clearbody start end_.
    assert (l ∈ foldl (λ links i, IndustryList.page_link page i links)
                  (if 1 <? page then [IndustryList.Previous (page - 1)]
                   else []) (seqZ start (end_ - start + 1))
            ∨ l = IndustryList.Next (page + 1) ∧ page < pageCount)
      as [Hpages|[-> Hnext]].
    { destruct (Z.ltb_spec page pageCount); [|auto].
      apply elem_of_app in Hl as [?|Hl]; [auto|].
      rewrite !elem_of_cons, elem_of_nil in Hl.
      destruct Hl as [->|[->|[]]]; [discriminate|auto]. }
    - apply page_links_elem in Hpages as [Hfirst|[->|(i & Hi & ->)]];
        [|discriminate|].
      + destruct (Z.ltb_spec 1 page); [|inversion Hfirst].
        apply list_elem_of_singleton in Hfirst as ->.
        injection Ht as <-. lia.
      + apply elem_of_seqZ in Hi.
        destruct (i =? page); [discriminate|]. injection Ht as <-. lia.
    - injection Ht as <-. lia. }
  apply (page_in_range total N t config HN Hpos Htotal Ht1) in Htp.
  rewrite (select_page_spec _ ranking N t); [|exact HN|reflexivity|exact Hpos].
  fold total.
  assert (take (Z.to_nat N) (drop (Z.to_nat ((t - 1) * N)) ranking) ≠ [])
    as Hrows.
  { intros Hnil. apply (f_equal length) in Hnil.
    rewrite length_take, length_drop in Hnil. simpl in Hnil.
    subst total. nia. }
  destruct (Z.ltb_spec 1 t) as [Hlater|Hfirst]; simpl.
  - destruct (Z.ltb_spec ((t - 1) * N) total); [|lia]. now split.
  - assert (t = 1) as -> by lia. simpl in *. now split.
Qed.

Lemma Paginator_links_lead_to_rows_witness :
  let w := Samples.listing (Samples.paged 2 1)
             [Samples.cherry; Samples.apple; Samples.banana] in
  let rows :=
    IndustryList.select_page
      (Config.set_page (Config.page (IndustryList.goTo 2)) (Samples.paged 2 1))
      Samples.three in
  IndustryList.Header_total (λ _, None) w = Some 3
  ∧ IndustryList.Next 2
    ∈ IndustryList.Paginator_links 3 (Samples.paged 2 1)
  ∧ rows = [(Samples.cherry, 0)] ∧ rows ≠ [].
Proof.
  intros w. split; [reflexivity|].
  split; [vm_compute; repeat constructor|].
  apply (Paginator_links_lead_to_rows Samples.search_all (λ _, None) w None
           (Samples.paged 2 1) Samples.three 3 2 (IndustryList.Next 2) 2).
  - reflexivity.
  - lia.
  - reflexivity.
  - reflexivity.
  - intros [r Hr]. discriminate Hr.
  - vm_compute. repeat constructor.
  - reflexivity.
Defined.

(** ** Properties of the selection of rows *)

Section RowSelection.

Import IndustryList.

Variable toBEA : string → option string.

Lemma indexOf_first (l1 l2 : list string) (x : string) :
  x ∉ l1 → indexOf (l1 ++ x :: l2) x = Z.of_nat (length l1).
Proof.
  induction l1 as [|y l1 IH]; simpl; intros Hx.
  - now rewrite String.eqb_refl.
  - apply not_elem_of_cons in Hx as [Hne Hx].
    destruct (String.eqb_spec y x); [congruence|].
    rewrite (IH Hx). destruct (Z.ltb_spec (Z.of_nat (length l1)) 0); lia.
Qed.

Lemma splice1_middle {A} (l1 l2 : list A) (x : A) :
  splice1 (l1 ++ x :: l2) (Z.of_nat (length l1)) = (l1 ++ l2)%list.
Proof.
  unfold splice1, relative_index. rewrite length_app. simpl.
  destruct (Z.ltb_spec (Z.of_nat (length l1)) 0); [lia|].
  rewrite Z.min_l by lia. rewrite Nat2Z.id.
  match goal with H : _ ≤ _ |- _ => clear H end.
  induction l1 as [|y l1 IH]; simpl; [reflexivity|]. f_equal. exact IH.
Qed.

(** The codes that the selection handler collects from NAICS codes. *)
Lemma naics_codes_elem (selected : bool) (code : string) (naics init : list string) :
  code ∈ foldl (λ codes naicsCode,
                  match toBEA naicsCode with
                  | Some c =>
                      if negb (truthy c) then codes
                      else if selected && String.eqb c code then codes
                      else (codes ++ [c])%list
                  | None => codes
                  end) init naics →
  code ∈ init ∨ selected = false.
Proof.
  revert init. induction naics as [|n naics IH]; intros init; simpl; [auto|].
  intros [Hin|?]%IH; [|auto].
  destruct (toBEA n) as [c|]; [|auto].
  destruct (negb (truthy c)); [auto|].
  destruct selected; [|auto]. simpl in Hin.
  destruct (String.eqb_spec c code); [auto|].
  apply elem_of_app in Hin as [?|Hin]; [auto|].
  apply list_elem_of_singleton in Hin. congruence.
Qed.

Lemma naics_codes_keep (selected : bool) (code x : string)
    (naics init : list string) :
  x ∈ init →
  x ∈ foldl (λ codes naicsCode,
               match toBEA naicsCode with
               | Some c =>
                   if negb (truthy c) then codes
                   else if selected && String.eqb c code then codes
                   else (codes ++ [c])%list
               | None => codes
               end) init naics.
Proof.
  revert init. induction naics as [|n naics IH]; intros init Hx; simpl;
    [exact Hx|].
  apply IH. destruct (toBEA n) as [c|]; [|exact Hx].
  destruct (negb (truthy c)); [exact Hx|].
  destruct (selected && _); [exact Hx|apply elem_of_app; auto].
Qed.

End RowSelection.

(** X18: a click on a row turns its selection around: with the fired sector
    list, a selected sector is not selected any more and a sector that
    was not selected is selected, provided that the sector list of the
    configuration names no code twice. *)
Theorem onSelect_flips (toBEA : string → option string) (config : Config.t)
    (sector : Sector.t) :
  (∀ codes, Config.sectors config = Def codes → NoDup codes) →
  IndustryList.Row_selected toBEA
    (Config.set_sectors
       (Config.sectors (IndustryList.onSelect toBEA config sector)) config)
    sector
  = negb (IndustryList.Row_selected toBEA config sector).
Proof.
  intros Hnodup. unfold IndustryList.onSelect.
  set (selected := IndustryList.Row_selected toBEA config sector).
  unfold IndustryList.Row_selected at 1. cbn [Config.sectors Config.set_sectors].
  assert (∀ codes,
            (0 <=? indexOf codes (Sector.code sector))
            = bool_decide (Sector.code sector ∈ codes)) as Hindex.
  { intros codes. destruct (Z.leb_spec 0 (indexOf codes (Sector.code sector)))
      as [Hin|Hout]; symmetry.
    - apply bool_decide_eq_true. now apply indexOf_elem.
    - apply bool_decide_eq_false. rewrite <- indexOf_elem. lia. }
  rewrite Hindex.
  destruct (Config.sectors config) as [| |codes] eqn:Hsectors.
  3:{ assert (selected = bool_decide (Sector.code sector ∈ codes)) as Hsel.
      { subst selected. unfold IndustryList.Row_selected.
        now rewrite Hsectors, Hindex. }
      destruct selected; symmetry in Hsel; simpl.
      - apply bool_decide_eq_true in Hsel.
        apply bool_decide_eq_false.
        apply list_elem_of_split_l in Hsel as (l1 & l2 & -> & Hfirst).
        rewrite (indexOf_first l1 l2 _ Hfirst), splice1_middle.
        specialize (Hnodup _ eq_refl).
        apply NoDup_app in Hnodup as (_ & Hdisjoint & Hl2).
        apply NoDup_cons in Hl2 as [Hl2 _].
        rewrite elem_of_app. tauto.
      - apply bool_decide_eq_true, elem_of_app. right.
        apply list_elem_of_here. }
  all: destruct (Config.naics config) as [| |naics] eqn:Hnaics; simpl.
  all: try (assert (selected = false) as ->
              by (subst selected; unfold IndustryList.Row_selected;
                  now rewrite Hsectors, Hnaics);
            apply bool_decide_eq_true, list_elem_of_here).
  all: destruct selected; cbn [negb].
  all: try (apply bool_decide_eq_false; intros Hin;
            apply naics_codes_elem in Hin as [Hin|?];
            [inversion Hin|discriminate]).
  all: apply bool_decide_eq_true, naics_codes_keep, list_elem_of_here.
Qed.

Lemma onSelect_flips_witness :
  IndustryList.Row_selected (λ _, None)
    (Config.set_sectors
       (Config.sectors
          (IndustryList.onSelect (λ _, None) (Samples.selecting ["A"; "B"])
             Samples.apple))
       (Samples.selecting ["A"; "B"]))
    Samples.apple
  = negb (IndustryList.Row_selected (λ _, None) (Samples.selecting ["A"; "B"])
            Samples.apple).
Proof.
  apply (onSelect_flips (λ _, None) (Samples.selecting ["A"; "B"])
           Samples.apple).
  intros codes [= <-]. repeat constructor; vm_compute; intros H; inversion H;
    subst; try discriminate;
    repeat match goal with
           | H' : _ ∈ _ |- _ => inversion H'; clear H'; subst
           end.
Defined.

(** X19: a second click on a row that was not selected fires the sector list
    of the configuration before the first click. *)
Theorem onSelect_twice (toBEA : string → option string) (config : Config.t)
    (sector : Sector.t) (codes : list string) :
  Config.sectors config = Def codes →
  Sector.code sector ∉ codes →
  Config.sectors
    (IndustryList.onSelect toBEA
       (Config.set_sectors
          (Config.sectors (IndustryList.onSelect toBEA config sector)) config)
       sector)
  = Def codes.
Proof.
  intros Hsectors Hfresh.
  assert (∀ xs, Config.sectors (Config.set_sectors (Def xs) config) = Def xs)
    as Hset by reflexivity.
  assert (Config.sectors (IndustryList.onSelect toBEA config sector)
          = Def (codes ++ [Sector.code sector])%list) as ->.
  { unfold IndustryList.onSelect, IndustryList.Row_selected.
    rewrite Hsectors. simpl.
    destruct (Z.leb_spec 0 (indexOf codes (Sector.code sector))) as [Hin|_];
      [|reflexivity].
    now apply indexOf_elem in Hin. }
  unfold IndustryList.onSelect, IndustryList.Row_selected. rewrite Hset.
  simpl. rewrite (indexOf_first codes [] _ Hfresh).
  destruct (Z.leb_spec 0 (Z.of_nat (length codes))); [|lia].
  now rewrite splice1_middle, app_nil_r.
Qed.

Lemma onSelect_twice_witness :
  Config.sectors
    (IndustryList.onSelect (λ _, None)
       (Config.set_sectors
          (Config.sectors
             (IndustryList.onSelect (λ _, None) (Samples.selecting ["B"])
                Samples.apple))
          (Samples.selecting ["B"]))
       Samples.apple)
  = Def ["B"].
Proof.
  apply (onSelect_twice (λ _, None) (Samples.selecting ["B"]) Samples.apple
           ["B"]); [reflexivity|].
  intros H. inversion H as [|? ? ? H']; subst. inversion H'.
Defined.

(** ** Further properties of the selection of commodities *)

Section Rerendering.

Import CommodityList.

Context `{Engine}.

Variable config : Config.t.
Variable sectors : list Sector.t.

(** The sector codes of the entries of a fired sector list: no code twice,
    and codes of the selection only. *)
Lemma fired_keys (sel : TMap) (ks : list string) :
  NoDup ks →
  (∀ k, k ∈ ks → ∃ v, sel !! k = Some v ∧ no_colon k = true) →
  NoDup (entry_key <$> omap (entry sel) ks)
  ∧ ∀ x, x ∈ entry_key <$> omap (entry sel) ks → x ∈ ks.
Proof.
  induction 1 as [|k ks Hk Hks IH]; intros Hsel; simpl;
    [split; [constructor|auto]|].
  destruct IH as [IHnodup IHsub].
  { intros k' Hk'. apply Hsel. now apply list_elem_of_further. }
  destruct (Hsel k (list_elem_of_here _ _)) as (v & Hv & Hplain).
  assert (entry sel k = None
          ∨ entry sel k = Some (k +:+ ":" +:+ number_to_string v)) as [He|He].
  { unfold entry. rewrite Hv. destruct (truthy k); auto. }
  - rewrite He. split; [exact IHnodup|]. intros x Hx.
    apply list_elem_of_further. now apply IHsub.
  - rewrite He, fmap_cons, (proj1 (entry_parses k v Hplain)). split.
    + constructor; [|exact IHnodup]. intros Hin. apply Hk. now apply IHsub.
    + intros x [->|Hx]%elem_of_cons; [apply list_elem_of_here|].
      apply list_elem_of_further. now apply IHsub.
Qed.

(** The selection that a fired sector list parses to. *)
Lemma fired_selection_lookup (sel : TMap) (k : string) :
  NoDup sel.*1 →
  (∀ k v, sel !! k = Some v → no_colon k = true ∧ exact v) →
  selection
    (Config.set_sectors (Def (omap (entry sel) (Object_keys sel)))
       Config.empty) !! k
  = if decide (k = "") then None else sel !! k.
Proof.
  intros Hkeys Hplain.
  set (change := Config.set_sectors
                   (Def (omap (entry sel) (Object_keys sel))) Config.empty).
  assert (Forall (λ e, entry_key e ≠ ""
                       ∧ sel !! entry_key e = Some (entry_factor e))
            (entries change)) as Hentries.
  { apply Forall_forall. intros e (k' & v & Hk' & Hne & ->)%emitted_entry.
    destruct (Hplain _ _ Hk') as [Hcolon Hexact].
    destruct (entry_parses k' v Hcolon) as [-> Hfactor].
    now rewrite (Hfactor Hexact). }
  destruct (selection change !! k) as [v|] eqn:Hlookup.
  - apply (selection_factors
             (λ k v, k ≠ "" ∧ sel !! k = Some v) change Hentries) in Hlookup
      as [Hne Hv].
    destruct (decide (k = "")); [contradiction|now rewrite Hv].
  - destruct (decide (k = "")) as [|Hne]; [reflexivity|].
    destruct (sel !! k) as [v|] eqn:Hv; [|reflexivity].
    pose proof (entry_emitted sel k v Hv Hne) as Hin.
    apply list_elem_of_split in Hin as (l1 & l2 & Hsplit).
    destruct (Hplain _ _ Hv) as [Hcolon Hexact].
    destruct (entry_parses k v Hcolon) as [Hkey Hfactor].
    specialize (Hfactor Hexact).
    assert (selection change !! k = Some v) as Hfound; [|congruence].
    rewrite <- Hkey at 1. rewrite <- Hfactor at 2.
    apply (selection_last change l1 l2); [exact Hsplit|].
    destruct (fired_keys sel (Object_keys sel)) as [Hnodup _].
    { now rewrite Object_keys_perm. }
    { intros k' [v' Hk']%Object_keys_elem.
      exists v'. split; [exact Hk'|]. now apply (Hplain k' v'). }
    rewrite Hsplit, fmap_app, fmap_cons in Hnodup.
    apply NoDup_app in Hnodup as (_ & _ & Hnodup).
    apply NoDup_cons in Hnodup as [Hfresh _].
    apply Forall_forall. intros e' He' Heq. apply Hfresh.
    rewrite <- Heq. apply list_elem_of_fmap. eauto.
Qed.

(** The factors of a selection are printed and read as they are when
    those of the entries of the sector list are. *)
Lemma selection_exact :
  Forall (λ e, exact (entry_factor e)) (entries config) →
  ∀ k v, selection config !! k = Some v → no_colon k = true ∧ exact v.
Proof.
  intros Hentries k v Hv. split; [exact (selection_keys_plain _ _ _ Hv)|].
  exact (selection_factors (λ _ v, exact v) config Hentries k v Hv).
Qed.

(** A commodity whose sector has the same entry in the selection of two
    configurations is the same commodity in both lists. *)
Lemma commodities_same (change : Config.t) (c' : Commodity.t) :
  c' ∈ commodities change sectors →
  selection change !! Commodity.code c'
    = selection config !! Commodity.code c' →
  c' ∈ commodities config sectors.
Proof.
  unfold commodities. intros (s & -> & Hs)%list_elem_of_fmap. cbn.
  intros Heq. apply list_elem_of_fmap. exists s. split; [|exact Hs].
  now rewrite Heq.
Qed.


(** X21: what a click on a check box gives at the next rendering. For a
    commodity whose code is not empty and has no colon, and a sector list
    whose factors are safe integers or NaN, in the commodities of the
    fired configuration change the commodity of that code is selected
    exactly if the clicked one was not, with the value 100, and every
    other commodity with a code is the one of the list before. *)
Theorem onClick_rerenders (c : Commodity.t) (change : Config.t) :
  c ∈ commodities config sectors →
  Commodity.code c ≠ "" →
  no_colon (Commodity.code c) = true →
  Forall (λ e, exact (entry_factor e)) (entries config) →
  change ∈ onClick config c →
  ∀ c', c' ∈ commodities change sectors →
    (Commodity.code c' = Commodity.code c →
     Commodity.selected c' = negb (Commodity.selected c)
     ∧ Commodity.value c' = Num 100)
    ∧ (Commodity.code c' ≠ Commodity.code c → Commodity.code c' ≠ "" →
       c' ∈ commodities config sectors).
Proof.
  intros Hc Hcode Hplain Hexact Hfired c' Hc'.
  pose proof (commodities_elem _ _ _ Hc') as [Hselected Hvalue].
  unfold onClick in Hfired. apply list_elem_of_singleton in Hfired.
  assert (∀ k, selection change !! k
               = if decide (k = "") then None
                 else (if Commodity.selected c
                       then delete (Commodity.code c) (selection config)
                       else <[Commodity.code c := Num 100]>
                              (selection config)) !! k) as Hlookup.
  { intros k. rewrite Hfired. apply fired_selection_lookup.
    - destruct (Commodity.selected c);
        [apply TMap_keys_delete|apply TMap_keys_insert];
        apply selection_keys.
    - intros k' v'. destruct (Commodity.selected c).
      + intros [_ Hv]%TMap_lookup_delete_Some.
        now apply selection_exact.
      + destruct (decide (Commodity.code c = k')) as [<-|Hne].
        * rewrite TMap_lookup_insert_eq. intros [= <-].
          split; [exact Hplain|reflexivity].
        * rewrite TMap_lookup_insert_ne by exact Hne.
          now apply selection_exact. }
  split.
  - intros Heq. rewrite Hselected, Hvalue, Hlookup, Heq.
    destruct (decide (Commodity.code c = "")); [contradiction|].
    destruct (Commodity.selected c).
    + rewrite TMap_lookup_delete_eq. split; [|reflexivity].
      apply bool_decide_eq_false. now intros [? ?].
    + rewrite TMap_lookup_insert_eq. split; [|reflexivity].
      apply bool_decide_eq_true. eauto.
  - intros Hne Hcode'. apply (commodities_same change); [exact Hc'|].
    rewrite Hlookup.
    destruct (decide (Commodity.code c' = "")); [contradiction|].
    destruct (Commodity.selected c).
    + rewrite TMap_lookup_delete_ne by congruence. reflexivity.
    + rewrite TMap_lookup_insert_ne by congruence. reflexivity.
Qed.

(** X22: what a change of a slider gives at the next rendering. For a
    commodity whose code is not empty and has no colon, a value of the
    slider that is a safe integer, and a sector list whose factors are
    safe integers or NaN, in the commodities of the fired configuration
    change the commodity of that code is selected and has the value of the
    slider, and every other commodity with a code is the one of the list
    before. *)
Theorem Slider_onChange_rerenders (c : Commodity.t) (value : Z)
    (change : Config.t) :
  Commodity.code c ≠ "" →
  no_colon (Commodity.code c) = true →
  safe value = true →
  Forall (λ e, exact (entry_factor e)) (entries config) →
  change ∈ Slider_onChange config c value →
  ∀ c', c' ∈ commodities change sectors →
    (Commodity.code c' = Commodity.code c →
     Commodity.selected c' = true ∧ Commodity.value c' = Num value)
    ∧ (Commodity.code c' ≠ Commodity.code c → Commodity.code c' ≠ "" →
       c' ∈ commodities config sectors).
Proof.
  intros Hcode Hplain Hsafe Hexact Hfired c' Hc'.
  pose proof (commodities_elem _ _ _ Hc') as [Hselected Hvalue].
  unfold Slider_onChange in Hfired. apply list_elem_of_singleton in Hfired.
  assert (∀ k, selection change !! k
               = if decide (k = "") then None
                 else <[Commodity.code c := Num value]>
                        (selection config) !! k) as Hlookup.
  { intros k. rewrite Hfired. apply fired_selection_lookup.
    - apply TMap_keys_insert, selection_keys.
    - intros k' v'.
      destruct (decide (Commodity.code c = k')) as [<-|Hne].
      + rewrite TMap_lookup_insert_eq. intros [= <-].
        split; [exact Hplain|exact Hsafe].
      + rewrite TMap_lookup_insert_ne by exact Hne.
        now apply selection_exact. }
  split.
  - intros Heq. rewrite Hselected, Hvalue, Hlookup, Heq.
    destruct (decide (Commodity.code c = "")); [contradiction|].
    rewrite TMap_lookup_insert_eq. split; [|reflexivity].
    apply bool_decide_eq_true. eauto.
  - intros Hne Hcode'. apply (commodities_same change); [exact Hc'|].
    rewrite Hlookup.
    destruct (decide (Commodity.code c' = "")); [contradiction|].
    rewrite TMap_lookup_insert_ne by congruence. reflexivity.
Qed.

(** X23: a click on the slider cell of a commodity of the list that is
    not selected fires what a click on its check box fires; a click on the
    slider of a selected commodity, or on another cell, fires nothing. *)
Theorem onSliderClicked_selects (field : string) (c : Commodity.t) :
  c ∈ commodities config sectors →
  onSliderClicked config field c
  = if String.eqb field "value" && negb (Commodity.selected c)
    then onClick config c
    else [].
Proof.
  intros [Hselected Hvalue]%commodities_elem.
  unfold onSliderClicked, onClick.
  destruct (String.eqb field "value"); [|reflexivity].
  destruct (Commodity.selected c) eqn:Hsel; [reflexivity|]. cbn.
  rewrite Hvalue. symmetry in Hselected.
  apply bool_decide_eq_false in Hselected.
  destruct (selection config !! Commodity.code c) as [v|] eqn:Hv;
    [exfalso; eauto|reflexivity].
Qed.

End Rerendering.


(** Beyond the safe integers a factor is not read back as it was: the
    engine of the samples prints 10^21 in exponent notation, and the digit
    in front of the exponent is read as the factor 1. *)
Lemma fireSelectionChange_unsafe_factor :
  let engine := Samples.engine in
  let sel : CommodityList.TMap := <["A" := Num (10 ^ 21)]> ∅ in
  CommodityList.fireSelectionChange sel = [Samples.selecting ["A:1e+21"]]
  ∧ CommodityList.selection (Samples.selecting ["A:1e+21"]) !! "A"
    = Some (Num 1).
Proof. intros engine sel. split; reflexivity. Qed.

Lemma onClick_rerenders_witness :
  let engine := Samples.engine in
  let config := Samples.selecting ["B:250"] in
  let sectors := [Samples.apple; Samples.banana] in
  let c := Samples.commodity Samples.apple false (Num 100) in
  let change := Samples.selecting ["B:250"; "A:100"] in
  c ∈ CommodityList.commodities config sectors
  ∧ change ∈ CommodityList.onClick config c
  ∧ ∀ c', c' ∈ CommodityList.commodities change sectors →
      (CommodityList.Commodity.code c' = CommodityList.Commodity.code c →
       CommodityList.Commodity.selected c'
       = negb (CommodityList.Commodity.selected c)
       ∧ CommodityList.Commodity.value c' = Num 100)
      ∧ (CommodityList.Commodity.code c' ≠ CommodityList.Commodity.code c →
         CommodityList.Commodity.code c' ≠ "" →
         c' ∈ CommodityList.commodities config sectors).
Proof.
  intros engine config sectors c change.
  assert (c ∈ CommodityList.commodities config sectors) as Hc
    by (vm_compute; apply list_elem_of_here).
  assert (change ∈ CommodityList.onClick config c) as Hfired
    by (vm_compute; apply list_elem_of_here).
  split; [exact Hc|]. split; [exact Hfired|].
  apply (onClick_rerenders config sectors c change Hc);
    [discriminate|reflexivity| |exact Hfired].
  repeat constructor.
Defined.

Lemma Slider_onChange_rerenders_witness :
  let engine := Samples.engine in
  let config := Samples.selecting ["B:250"; "A:100"] in
  let sectors := [Samples.apple; Samples.banana] in
  let c := Samples.commodity Samples.apple true (Num 100) in
  let change := Samples.selecting ["B:250"; "A:320"] in
  change ∈ CommodityList.Slider_onChange config c 320
  ∧ ∀ c', c' ∈ CommodityList.commodities change sectors →
      (CommodityList.Commodity.code c' = CommodityList.Commodity.code c →
       CommodityList.Commodity.selected c' = true
       ∧ CommodityList.Commodity.value c' = Num 320)
      ∧ (CommodityList.Commodity.code c' ≠ CommodityList.Commodity.code c →
         CommodityList.Commodity.code c' ≠ "" →
         c' ∈ CommodityList.commodities config sectors).
Proof.
  intros engine config sectors c change.
  assert (change ∈ CommodityList.Slider_onChange config c 320) as Hfired
    by (vm_compute; apply list_elem_of_here).
  split; [exact Hfired|].
  apply (Slider_onChange_rerenders config sectors c 320 change);
    [discriminate|reflexivity|reflexivity| |exact Hfired].
  repeat constructor.
Defined.

Lemma onSliderClicked_selects_witness :
  let engine := Samples.engine in
  let config := Samples.selecting ["B:250"] in
  let sectors := [Samples.apple; Samples.banana] in
  let c := Samples.commodity Samples.apple false (Num 100) in
  c ∈ CommodityList.commodities config sectors
  ∧ CommodityList.onSliderClicked config "value" c
    = [Samples.selecting ["B:250"; "A:100"]].
Proof.
  intros engine config sectors c.
  assert (c ∈ CommodityList.commodities config sectors) as Hc
    by (vm_compute; apply list_elem_of_here).
  split; [exact Hc|].
  rewrite (onSliderClicked_selects config sectors "value" c Hc).
  reflexivity.
Defined.


Lemma handleUpdate_demand_witness :
  let config :=
    {| Config.sectors := Undefined; Config.naics := Undefined;
       Config.indicators := Undefined; Config.view := Undefined;
       Config.perspective := Undefined; Config.analysis := Undefined;
       Config.year := Undefined; Config.location := Undefined;
       Config.count := Undefined; Config.page := Undefined;
       Config.showvalues := Def true; Config.showdownload := Undefined;
       Config.showscientific := Undefined;
       Config.selectmatrix := Undefined |} in
  let st' := (IndustryList.handleUpdate [] Samples.demanding config
                Samples.fresh).2 in
  default ∅ (IndustryList.demand (IndustryList.this st')) !! "A" = Some 5
  ∧ default ∅ (IndustryList.demand (IndustryList.this st')) !! "C" = None
  ∧ IndustryList.demand
      (IndustryList.this
         (IndustryList.handleUpdate [] Samples.demanding Samples.mosaic
            Samples.fresh).2)
    = None.
Proof.
  intros config st'. subst st'.
  destruct (handleUpdate_demand [] Samples.demanding config Samples.fresh)
    as [Hshown _].
  destruct (handleUpdate_demand [] Samples.demanding Samples.mosaic
              Samples.fresh) as [_ Hkept].
  rewrite (Hshown _ eq_refl eq_refl eq_refl eq_refl), (Hkept eq_refl).
  split; [reflexivity|]. split; reflexivity.
Defined.

(** ** Properties of the table of the industry list *)

(** After an update that is not rejected the widget has a result whenever
    it has indicators. *)
Lemma handleUpdate_indicators_with_result (DEFAULT_INDICATORS : list string)
    (model : Model.t) (config : Config.t) (st : IndustryList.State) :
  let run := IndustryList.handleUpdate DEFAULT_INDICATORS model config st in
  run.1 = Some tt →
  IndustryList.indicators (IndustryList.this run.2) = Some []
  ∨ is_Some (IndustryList.result (IndustryList.this run.2)).
Proof.
  intros run. subst run. rewrite handleUpdate_run. cbv zeta.
  destruct (strings.isMember "mosaic" (Config.view config)) eqn:Hmosaic.
  - assert (IndustryList.needsCalculation (IndustryList.this st)
              (IndustryList.config (IndustryList.this st)) (Some config)
            = true
            ∨ is_Some (IndustryList.result (IndustryList.this st)))
      as Hcases.
    { unfold IndustryList.needsCalculation. rewrite Hmosaic. cbn [negb].
      destruct (IndustryList.config (IndustryList.this st)),
        (IndustryList.result (IndustryList.this st)); eauto. }
    destruct (IndustryList.needsCalculation _ _ _).
    + rewrite calculate_run.
      destruct (IndustryList.calculated model config) as [r|];
        cbn [fst snd IndustryList.this IndustryList.calls]; [|discriminate].
      intros _. right. rewrite lift_state.
      match goal with
      | |- context [(IndustryList.finish_update ?d ?m ?c ?b ?st1).2] =>
          destruct (finish_update_post d m c b st1) as (_ & _ & -> & _)
      end.
      cbn. eauto.
    + destruct Hcases as [?|Hresult]; [discriminate|].
      intros _. right. rewrite lift_state.
      match goal with
      | |- context [(IndustryList.finish_update ?d ?m ?c ?b ?st1).2] =>
          destruct (finish_update_post d m c b st1) as (_ & _ & -> & _)
      end.
      exact Hresult.
  - assert (IndustryList.needsCalculation (IndustryList.this st)
              (IndustryList.config (IndustryList.this st)) (Some config)
            = false) as ->.
    { unfold IndustryList.needsCalculation. now rewrite Hmosaic. }
    intros _. left. rewrite lift_state.
    unfold IndustryList.finish_update, IndustryList.syncIndicators.
    rewrite Hmosaic. cbn [negb].
    destruct st as [[c r d i s n] log]. run_update; reflexivity.
Qed.

(** The head cells of the indicators are the cells of their results when
    there is a result or no indicator. *)
Lemma IndicatorResult_head (no_group : optional IndicatorGroup)
    (w : IndustryList.t) :
  IndustryList.indicators w = Some [] ∨ is_Some (IndustryList.result w) →
  IndustryList.IndicatorResult no_group w
  = IndustryList.IndicatorHeader no_group (IndustryList.indicators w).
Proof.
  unfold IndustryList.IndicatorResult, IndustryList.IndicatorHeader.
  intros [->|[r ->]]; [reflexivity|].
  destruct (IndustryList.indicators w) as [[|i [|i' l]]|]; reflexivity.
Qed.

(** The head cells of the indicators have one cell for every
    indicator. *)
Lemma IndicatorHeader_elem (no_group : optional IndicatorGroup)
    (indicators : option (list Indicator.t)) (i : Indicator.t) :
  IndustryList.IndicatorColumn i
    ∈ IndustryList.IndicatorHeader no_group indicators
  ↔ i ∈ default [] indicators.
Proof.
  assert (∀ l g items,
            IndustryList.IndicatorColumn i
              ∈ (foldl (λ '(g, items) indicator,
                   let '(g, items) :=
                     if negb (strict_eq IndustryList.same_group
                                (IndustryList.group_of no_group indicator) g)
                     then (IndustryList.group_of no_group indicator,
                           (items ++ [IndustryList.GroupColumn])%list)
                     else (g, items) in
                   (g, (items ++ [IndustryList.IndicatorColumn indicator])%list))
                  (g, items) l).2
            ↔ IndustryList.IndicatorColumn i ∈ items ∨ i ∈ l) as Hloop.
  { induction l as [|x l IH]; intros g items.
    - cbn. rewrite elem_of_nil. tauto.
    - cbn [foldl].
      destruct (negb (strict_eq IndustryList.same_group
                        (IndustryList.group_of no_group x) g));
        rewrite IH, !elem_of_app, !list_elem_of_singleton, elem_of_cons;
        split; intros H; intuition (congruence || discriminate || auto). }
  unfold IndustryList.IndicatorHeader.
  destruct indicators as [[|x [|y l]]|]; cbn [default from_option id].
  - rewrite !elem_of_nil. tauto.
  - rewrite !list_elem_of_singleton. split; congruence.
  - rewrite Hloop, elem_of_nil. tauto.
  - rewrite !elem_of_nil. tauto.
Qed.

(** The cells of a row that renders are the cells of the head row when
    there is a result or no indicator. *)
Lemma Row_cells_head (no_group : optional IndicatorGroup)
    (w : IndustryList.t) (head cells : list IndustryList.Column) :
  IndustryList.indicators w = Some [] ∨ is_Some (IndustryList.result w) →
  IndustryList.Component_head no_group w = Some head →
  IndustryList.Row_cells no_group w = Some cells →
  cells = head.
Proof.
  intros Hresult. unfold IndustryList.Component_head, IndustryList.Row_cells.
  rewrite (IndicatorResult_head no_group w Hresult).
  destruct (IndustryList.config w) as [config|]; [|discriminate].
  cbn [mbind option_bind]. intros [= <-].
  destruct (truthy (Config.showvalues config)); [|now intros [= <-]].
  destruct (IndustryList.demand w); [|discriminate].
  now intros [= <-].
Qed.

(** X24: after every update that is not rejected the head row of the table
    has one cell for every indicator of the widget, and in every table
    that the component renders each row has the cells of the head row,
    column by column. *)
Theorem table_aligned_after_update (DEFAULT_INDICATORS : list string)
    (search : string → string → Z) (no_group : optional IndicatorGroup)
    (model : Model.t) (config : Config.t) (st : IndustryList.State)
    (sorter : option Indicator.t) (searchTerm : option string) :
  let run := IndustryList.handleUpdate DEFAULT_INDICATORS model config st in
  let w := IndustryList.this run.2 in
  run.1 = Some tt →
  ∃ head,
    IndustryList.Component_head no_group w = Some head
    ∧ (∀ i, IndustryList.IndicatorColumn i ∈ head
            ↔ i ∈ default [] (IndustryList.indicators w))
    ∧ (∀ cells, IndustryList.Row_cells no_group w = Some cells →
         cells = head)
    ∧ (∀ table,
         IndustryList.Component_table no_group search w sorter searchTerm
         = Some table →
         table.1 = head ∧ Forall (λ cells, cells = head) table.2).
Proof.
  intros run w Hrun.
  destruct (handleUpdate_post DEFAULT_INDICATORS model config st)
    as (Hconfig & _).
  pose proof (handleUpdate_indicators_with_result DEFAULT_INDICATORS model
                config st Hrun) as Hresult.
  fold run in Hconfig, Hresult. fold w in Hconfig, Hresult.
  assert (is_Some (IndustryList.Component_head no_group w)) as [head Hhead].
  { unfold IndustryList.Component_head. rewrite Hconfig. cbn. eauto. }
  exists head. split; [exact Hhead|]. split; [|split].
  - revert Hhead. unfold IndustryList.Component_head. rewrite Hconfig.
    cbn [mbind option_bind]. intros [= <-].
    intros i. rewrite <- (IndicatorHeader_elem no_group).
    rewrite elem_of_cons, !elem_of_app.
    destruct (truthy (Config.showvalues _)), (strings.isMember "ranking" _);
      rewrite ?list_elem_of_singleton, ?elem_of_nil;
      split; intros H; intuition discriminate.
  - intros cells. now apply Row_cells_head.
  - intros [head' body]. unfold IndustryList.Component_table.
    rewrite Hhead.
    destruct (IndustryList.Component search w sorter searchTerm)
      as [rows|]; [|discriminate].
    cbn [mbind option_bind].
    destruct (mapM _ rows) as [body'|] eqn:Hbody; [|discriminate].
    cbn [mbind option_bind]. intros [= <- <-]. split; [reflexivity|].
    apply mapM_Some in Hbody. clear -Hbody Hresult Hhead.
    induction Hbody as [|row cells rows body Hcells _ IH]; constructor;
      [|exact IH].
    now apply (Row_cells_head no_group w).
Qed.

Lemma table_aligned_after_update_witness :
  let w := IndustryList.this Samples.heatmap in
  IndustryList.Component_table Null Samples.search_all w None None
  = Some ([IndustryList.SectorColumn; IndustryList.IndicatorColumn Samples.co2],
          [[IndustryList.SectorColumn;
            IndustryList.IndicatorColumn Samples.co2];
           [IndustryList.SectorColumn;
            IndustryList.IndicatorColumn Samples.co2];
           [IndustryList.SectorColumn;
            IndustryList.IndicatorColumn Samples.co2]])
  ∧ ∃ head,
      IndustryList.Component_head Null w = Some head
      ∧ (∀ i, IndustryList.IndicatorColumn i ∈ head
              ↔ i ∈ default [] (IndustryList.indicators w))
      ∧ (∀ cells, IndustryList.Row_cells Null w = Some cells → cells = head)
      ∧ (∀ table,
           IndustryList.Component_table Null Samples.search_all w None None
           = Some table →
           table.1 = head ∧ Forall (λ cells, cells = head) table.2).
Proof.
  intros w. split; [reflexivity|].
  apply (table_aligned_after_update [] Samples.search_all Null Samples.model
           Samples.mosaic Samples.fresh None None).
  reflexivity.
Defined.
